(** * CIM diagram layout editor: the application state of [AppState.ts]

    A shallow embedding of the interaction state machine, the view
    transform and the point insert / delete operations of
    [src/services/AppState.ts], together with [loadDiagramLayout] and
    [loadDiagramProfiles] of [DiagramService] and the load and render handlers
    of the configuration panel.

    - JavaScript numbers are IEEE 754 binary64 values: coordinates, scale,
      offsets and thresholds are primitive floats, compared with the
      IEEE comparisons the source uses.
    - [PointModel] objects are shared between an object's ordered point array
      and the diagram's flattened point array, and are mutated in place.  They
      live in a heap indexed by references; both arrays hold references.
    - The svelte stores are the fields of one [AppState] record; the stores
      none of the operations below reads or writes ([coordinates],
      [diagramList], [errorMessage]) are left out, and [remoteCalls] records
      the calls made to the SPARQL service, in order.
    - An [async] function is split at its [await]: the part that runs
      synchronously, and the part that runs once the remote call has settled,
      which receives the outcome of the call. *)

From Stdlib Require Import Floats ZArith.
From stdpp Require Import gmap strings list pretty.

Set Default Proof Using "Type".

(** ** Numbers *)

Module Num.

(** [Math.abs] *)
Definition Math_abs (a : float) : float := abs a.

(** [Math.min]: NaN if an argument is NaN, and [-0] is below [+0]. *)
Definition Math_min (a b : float) : float :=
  if is_nan a || is_nan b then nan
  else if (a <? b)%float then a
  else if (b <? a)%float then b
  else if get_sign a then a else b.

(** [Math.max]: NaN if an argument is NaN, and [+0] is above [-0]. *)
Definition Math_max (a b : float) : float :=
  if is_nan a || is_nan b then nan
  else if (a <? b)%float then b
  else if (b <? a)%float then a
  else if get_sign a then b else a.

(** [a >= b] and [a > b] of JavaScript. *)
Definition geb (a b : float) : bool := (b <=? a)%float.
Definition gtb (a b : float) : bool := (b <? a)%float.

End Num.
Import Num.

(** ** The types of [models/types] *)

Record Point2D := mkPoint2D { x : float; y : float }.

Record ViewTransform := mkViewTransform
  { scale : float; offsetX : float; offsetY : float }.

Inductive InteractionMode := NONE | DRAGGING | SELECTING | PANNING.

Inductive CGMESVersion := V2_4_15 | V3_0.

Record PointUpdateData := mkPointUpdateData
  { moved_points : list string; dx : float; dy : float }.

#[global] Instance InteractionMode_eq_dec : EqDecision InteractionMode.
Proof. solve_decision. Defined.

(** ** [Set<string>] and [Map<string, Point2D>]

    A JavaScript [Set] iterates in insertion order and [Array.from] exposes
    that order, so a set of identifiers is a duplicate-free list in insertion
    order.  The snapshot map is only read with [get] and written with [set]. *)

Module JSSet.

Definition t := list string.

Definition empty : t := [].

Definition has (s : t) (k : string) : bool := bool_decide (k ∈ s).

Definition add (k : string) (s : t) : t := if has s k then s else s ++ [k].

Definition delete (k : string) (s : t) : t := filter (λ k', k' ≠ k) s.

Definition toArray (s : t) : list string := s.

End JSSet.

Record InteractionState := mkInteractionState
  { mode : InteractionMode;
    dragStart : option Point2D;
    dragEnd : option Point2D;
    panStart : option Point2D;
    selectedPoints : JSSet.t;
    originalPositions : gmap string Point2D }.

(** ** The diagram model

    Modelled from the spec: the classes [PointModel], [DiagramObjectModel] and
    [DiagramModel] of [models/] are not part of the sources at hand.  Their
    fields are the ones [AppState.ts] reads and writes ([iri], [x], [y],
    [sequenceNumber], [parentObject]; [iri], [points]; [objects], [points]),
    and [gluedTo] is the set of glued-point identifiers the data model of the
    specification gives every point.  [new PointModel(iri, x, y,
    sequenceNumber, parentObject)] stores its arguments and starts without
    glue. *)

Definition ref := positive.

Record PointModel := mkPointModel
  { iri : string;
    point_x : float;
    point_y : float;
    sequenceNumber : Z;
    parentObject : option ref;
    gluedTo : list string }.

Record DiagramObjectModel := mkDiagramObjectModel
  { object_iri : string;
    object_points : list ref }.

Record DiagramModel := mkDiagramModel
  { objects : list ref;
    points : list ref }.

Definition set_xy (nx ny : float) (p : PointModel) : PointModel :=
  {| iri := iri p; point_x := nx; point_y := ny;
     sequenceNumber := sequenceNumber p; parentObject := parentObject p;
     gluedTo := gluedTo p |}.

Definition set_sequenceNumber (n : Z) (p : PointModel) : PointModel :=
  {| iri := iri p; point_x := point_x p; point_y := point_y p;
     sequenceNumber := n; parentObject := parentObject p;
     gluedTo := gluedTo p |}.

Definition set_object_points (ps : list ref) (o : DiagramObjectModel) : DiagramObjectModel :=
  {| object_iri := object_iri o; object_points := ps |}.

Definition set_points (ps : list ref) (d : DiagramModel) : DiagramModel :=
  {| objects := objects d; points := ps |}.

(** ** Remote calls *)

Inductive RemoteCall :=
  | InsertNewPoint (pointIri objectIri : string) (px py : float) (seq : Z)
      (sequenceUpdates : list (string * Z)) (namespace : string)
  | DeletePoint (pointIri : string)
      (sequenceUpdates : list (string * Z)) (namespace : string)
  | ExecuteQuery (query : string).

(** How an awaited remote call settles. *)
Inductive RemoteOutcome :=
  | Resolved
  | Rejected (message : string).

(** ** The stores *)

Record AppState := mkAppState
  { cgmesVersion : CGMESVersion;
    viewTransform : ViewTransform;
    diagramData : option DiagramModel;
    pointHeap : gmap ref PointModel;
    objectHeap : gmap ref DiagramObjectModel;
    isLoading : bool;
    statusText : string;
    selectedDiagram : string;
    interactionState : InteractionState;
    positionUpdateEvent : option PointUpdateData;
    remoteCalls : list RemoteCall }.

Definition update_interactionState (f : InteractionState → InteractionState) (st : AppState) : AppState :=
  {| cgmesVersion := cgmesVersion st; viewTransform := viewTransform st;
     diagramData := diagramData st; pointHeap := pointHeap st;
     objectHeap := objectHeap st; isLoading := isLoading st;
     statusText := statusText st; selectedDiagram := selectedDiagram st;
     interactionState := f (interactionState st);
     positionUpdateEvent := positionUpdateEvent st;
     remoteCalls := remoteCalls st |}.

Definition set_cgmesVersion (v : CGMESVersion) (st : AppState) : AppState :=
  {| cgmesVersion := v; viewTransform := viewTransform st;
     diagramData := diagramData st; pointHeap := pointHeap st;
     objectHeap := objectHeap st; isLoading := isLoading st;
     statusText := statusText st; selectedDiagram := selectedDiagram st;
     interactionState := interactionState st;
     positionUpdateEvent := positionUpdateEvent st;
     remoteCalls := remoteCalls st |}.

Definition set_viewTransform (v : ViewTransform) (st : AppState) : AppState :=
  {| cgmesVersion := cgmesVersion st; viewTransform := v;
     diagramData := diagramData st; pointHeap := pointHeap st;
     objectHeap := objectHeap st; isLoading := isLoading st;
     statusText := statusText st; selectedDiagram := selectedDiagram st;
     interactionState := interactionState st;
     positionUpdateEvent := positionUpdateEvent st;
     remoteCalls := remoteCalls st |}.

Definition set_diagramData (d : option DiagramModel) (st : AppState) : AppState :=
  {| cgmesVersion := cgmesVersion st; viewTransform := viewTransform st;
     diagramData := d; pointHeap := pointHeap st;
     objectHeap := objectHeap st; isLoading := isLoading st;
     statusText := statusText st; selectedDiagram := selectedDiagram st;
     interactionState := interactionState st;
     positionUpdateEvent := positionUpdateEvent st;
     remoteCalls := remoteCalls st |}.

Definition set_pointHeap (h : gmap ref PointModel) (st : AppState) : AppState :=
  {| cgmesVersion := cgmesVersion st; viewTransform := viewTransform st;
     diagramData := diagramData st; pointHeap := h;
     objectHeap := objectHeap st; isLoading := isLoading st;
     statusText := statusText st; selectedDiagram := selectedDiagram st;
     interactionState := interactionState st;
     positionUpdateEvent := positionUpdateEvent st;
     remoteCalls := remoteCalls st |}.

Definition set_objectHeap (h : gmap ref DiagramObjectModel) (st : AppState) : AppState :=
  {| cgmesVersion := cgmesVersion st; viewTransform := viewTransform st;
     diagramData := diagramData st; pointHeap := pointHeap st;
     objectHeap := h; isLoading := isLoading st;
     statusText := statusText st; selectedDiagram := selectedDiagram st;
     interactionState := interactionState st;
     positionUpdateEvent := positionUpdateEvent st;
     remoteCalls := remoteCalls st |}.

Definition set_positionUpdateEvent (e : option PointUpdateData) (st : AppState) : AppState :=
  {| cgmesVersion := cgmesVersion st; viewTransform := viewTransform st;
     diagramData := diagramData st; pointHeap := pointHeap st;
     objectHeap := objectHeap st; isLoading := isLoading st;
     statusText := statusText st; selectedDiagram := selectedDiagram st;
     interactionState := interactionState st;
     positionUpdateEvent := e;
     remoteCalls := remoteCalls st |}.

Definition issue (c : RemoteCall) (st : AppState) : AppState :=
  {| cgmesVersion := cgmesVersion st; viewTransform := viewTransform st;
     diagramData := diagramData st; pointHeap := pointHeap st;
     objectHeap := objectHeap st; isLoading := isLoading st;
     statusText := statusText st; selectedDiagram := selectedDiagram st;
     interactionState := interactionState st;
     positionUpdateEvent := positionUpdateEvent st;
     remoteCalls := remoteCalls st ++ [c] |}.

(** [setLoading] and [updateStatus] *)
Definition setLoading (loading : bool) (st : AppState) : AppState :=
  {| cgmesVersion := cgmesVersion st; viewTransform := viewTransform st;
     diagramData := diagramData st; pointHeap := pointHeap st;
     objectHeap := objectHeap st; isLoading := loading;
     statusText := statusText st; selectedDiagram := selectedDiagram st;
     interactionState := interactionState st;
     positionUpdateEvent := positionUpdateEvent st;
     remoteCalls := remoteCalls st |}.

Definition updateStatus (text : string) (st : AppState) : AppState :=
  {| cgmesVersion := cgmesVersion st; viewTransform := viewTransform st;
     diagramData := diagramData st; pointHeap := pointHeap st;
     objectHeap := objectHeap st; isLoading := isLoading st;
     statusText := text; selectedDiagram := selectedDiagram st;
     interactionState := interactionState st;
     positionUpdateEvent := positionUpdateEvent st;
     remoteCalls := remoteCalls st |}.

(** ** Array helpers *)

(** The start position [Array.prototype.splice] derives from its first
    argument: a negative start counts from the end, and the result is clamped
    to [0 .. len]. *)
Definition splice_start (len : nat) (start : Z) : nat :=
  if (start <? 0)%Z then Z.to_nat (Z.max (Z.of_nat len + start) 0)
  else Z.to_nat (Z.min start (Z.of_nat len)).

(** [l.splice(start, 0, item)] *)
Definition splice_insert {A} (start : Z) (item : A) (l : list A) : list A :=
  let k := splice_start (length l) start in
  take k l ++ item :: drop k l.

(** [l.splice(start, 1)] *)
Definition splice_delete {A} (start : Z) (l : list A) : list A :=
  let k := splice_start (length l) start in
  take k l ++ drop (S k) l.

(** [l.findIndex(pred)]: the first index whose element satisfies [pred],
    or [-1]. *)
Definition findIndex {A} (pred : A → bool) (l : list A) : Z :=
  match list_find (λ a, pred a = true) l with
  | Some (i, _) => Z.of_nat i
  | None => (-1)%Z
  end.

(** ** Heap helpers *)

Definition iri_of (h : gmap ref PointModel) (r : ref) : option string :=
  iri <$> h !! r.

(** [p => p.iri === k] on a reference *)
Definition has_iri (h : gmap ref PointModel) (k : string) (r : ref) : bool :=
  bool_decide (iri_of h r = Some k).

(** [rs.forEach(point => { point := f point })] *)
Definition forEach (f : PointModel → PointModel) (rs : list ref)
    (h : gmap ref PointModel) : gmap ref PointModel :=
  foldl (λ h r, alter f r h) h rs.

(** [rs.forEach((point, index) => { point.sequenceNumber = index })],
    started at [index]. *)
Fixpoint renumber (index : nat) (rs : list ref)
    (h : gmap ref PointModel) : gmap ref PointModel :=
  match rs with
  | [] => h
  | r :: rs' => renumber (S index) rs' (alter (set_sequenceNumber (Z.of_nat index)) r h)
  end.

(** [rs.map(point => ({ iri: point.iri, sequenceNumber: point.sequenceNumber }))] *)
Definition sequenceUpdates_of (h : gmap ref PointModel) (rs : list ref) : list (string * Z) :=
  omap (λ r, (λ p, (iri p, sequenceNumber p)) <$> h !! r) rs.

(** The points an array of references denotes. *)
Definition deref (h : gmap ref PointModel) (rs : list ref) : list PointModel :=
  omap (λ r, h !! r) rs.

(** ** Configuration

    [AppConfig] of [utils/config] is supplied from outside; the operations
    take it as a parameter. *)

Record Config := mkConfig
  { dragThreshold : float;
    canvas_zoomFactor : float;
    view_initialScale : float;
    view_initialOffsetX : float;
    view_initialOffsetY : float;
    namespaces : CGMESVersion → string }.

(** What an awaited layout query delivers: the object graph that
    [DiagramModel.fromSparqlResults] builds from the response, or a failure. *)
Record LoadedDiagram := mkLoadedDiagram
  { loaded_diagram : DiagramModel;
    loaded_points : gmap ref PointModel;
    loaded_objects : gmap ref DiagramObjectModel }.

Inductive QueryOutcome :=
  | QueryOk (g : LoadedDiagram)
  | QueryFailed (message : string).

(** An [async] function either returned before its [await], or is suspended
    at it. *)
Inductive Suspended :=
  | Returned (st : AppState)
  | Awaiting (st : AppState).

Definition state_of (s : Suspended) : AppState :=
  match s with Returned st | Awaiting st => st end.

Definition initialInteractionState : InteractionState :=
  {| mode := NONE; dragStart := None; dragEnd := None; panStart := None;
     selectedPoints := JSSet.empty; originalPositions := ∅ |}.

Section Operations.

Variable AppConfig : Config.

(** [buildDiagramLayoutQuery] of [services/utils/sparql-utils] *)
Variable buildDiagramLayoutQuery : string → string → string.

Definition cimNamespace (st : AppState) : string :=
  namespaces AppConfig (cgmesVersion st).

Definition resetViewTransform (st : AppState) : AppState :=
  set_viewTransform
    {| scale := view_initialScale AppConfig;
       offsetX := view_initialOffsetX AppConfig;
       offsetY := view_initialOffsetY AppConfig |} st.

Definition clearSelection (st : AppState) : AppState :=
  update_interactionState (λ state,
    {| mode := mode state; dragStart := dragStart state;
       dragEnd := dragEnd state; panStart := panStart state;
       selectedPoints := JSSet.empty;
       originalPositions := originalPositions state |}) st.

Definition setCGMESVersion (version : CGMESVersion) (st : AppState) : AppState :=
  clearSelection (set_cgmesVersion version st).

Definition togglePointSelection (pointIri : string) (st : AppState) : AppState :=
  update_interactionState (λ state,
    let newSelectedPoints :=
      if JSSet.has (selectedPoints state) pointIri
      then JSSet.delete pointIri (selectedPoints state)
      else JSSet.add pointIri (selectedPoints state) in
    {| mode := mode state; dragStart := dragStart state;
       dragEnd := dragEnd state; panStart := panStart state;
       selectedPoints := newSelectedPoints;
       originalPositions := originalPositions state |}) st.

(** The snapshot [startDragging] takes of the selected points. *)
Definition snapshot (h : gmap ref PointModel) (selected : JSSet.t)
    (rs : list ref) : gmap string Point2D :=
  foldl (λ m r,
    match h !! r with
    | Some point =>
        if JSSet.has selected (iri point)
        then <[iri point := {| x := point_x point; y := point_y point |}]> m
        else m
    | None => m
    end) ∅ rs.

Definition startDragging (position : Point2D) (st : AppState) : AppState :=
  match diagramData st with
  | None => st
  | Some currentDiagram =>
      let currentState := interactionState st in
      let originalPositions :=
        snapshot (pointHeap st) (selectedPoints currentState) (points currentDiagram) in
      update_interactionState (λ state,
        {| mode := DRAGGING; dragStart := Some position;
           dragEnd := Some position; panStart := panStart state;
           selectedPoints := selectedPoints state;
           originalPositions := originalPositions |}) st
  end.

(** The body of the [forEach] of [updateDragging]. *)
Definition drag_point (currentState : InteractionState) (dx dy : float)
    (point : PointModel) : PointModel :=
  if JSSet.has (selectedPoints currentState) (iri point) then
    match originalPositions currentState !! iri point with
    | Some original => set_xy (x original + dx) (y original + dy) point
    | None => point
    end
  else point.

Definition updateDragging (position : Point2D) (st : AppState) : AppState :=
  let currentState := interactionState st in
  match diagramData st, mode currentState, dragStart currentState with
  | Some currentDiagram, DRAGGING, Some start =>
      let dx := (x position - x start)%float in
      let dy := (y position - y start)%float in
      let st := set_pointHeap
        (forEach (drag_point currentState dx dy) (points currentDiagram) (pointHeap st)) st in
      update_interactionState (λ state,
        {| mode := mode state; dragStart := dragStart state;
           dragEnd := Some position; panStart := panStart state;
           selectedPoints := selectedPoints state;
           originalPositions := originalPositions state |}) st
  | _, _, _ => st
  end.

(** The body of the [forEach] of [revertDraggedPositions]. *)
Definition revert_point (currentState : InteractionState)
    (point : PointModel) : PointModel :=
  if JSSet.has (selectedPoints currentState) (iri point) then
    match originalPositions currentState !! iri point with
    | Some original => set_xy (x original) (y original) point
    | None => point
    end
  else point.

Definition revertDraggedPositions (st : AppState) : AppState :=
  let currentState := interactionState st in
  match diagramData st with
  | None => st
  | Some currentDiagram =>
      set_pointHeap
        (forEach (revert_point currentState) (points currentDiagram) (pointHeap st)) st
  end.

Definition isSignificant (dx dy : float) : bool :=
  gtb (Math_abs dx) (dragThreshold AppConfig) || gtb (Math_abs dy) (dragThreshold AppConfig).

Definition endDragging (position : Point2D) (st : AppState)
    : option PointUpdateData * AppState :=
  let currentState := interactionState st in
  match mode currentState, dragStart currentState with
  | DRAGGING, Some start =>
      let dx := (x position - x start)%float in
      let dy := (y position - y start)%float in
      let st := update_interactionState (λ state,
        {| mode := NONE; dragStart := None; dragEnd := None;
           panStart := panStart state;
           selectedPoints := selectedPoints state;
           originalPositions := originalPositions state |}) st in
      if negb (isSignificant dx dy) then (None, revertDraggedPositions st)
      else
        let result :=
          {| moved_points := JSSet.toArray (selectedPoints currentState);
             dx := dx; dy := dy |} in
        (Some result, set_positionUpdateEvent (Some result) st)
  | _, _ => (None, st)
  end.

Definition startSelecting (position : Point2D) (st : AppState) : AppState :=
  update_interactionState (λ state,
    {| mode := SELECTING; dragStart := Some position;
       dragEnd := Some position; panStart := panStart state;
       selectedPoints := selectedPoints state;
       originalPositions := originalPositions state |}) st.

Definition updateSelecting (position : Point2D) (st : AppState) : AppState :=
  update_interactionState (λ state,
    {| mode := mode state; dragStart := dragStart state;
       dragEnd := Some position; panStart := panStart state;
       selectedPoints := selectedPoints state;
       originalPositions := originalPositions state |}) st.

(** The test of the [forEach] of [completeSelecting]. *)
Definition in_rectangle (startX startY endX endY : float) (point : PointModel) : bool :=
  geb (point_x point) startX && (point_x point <=? endX)%float
  && geb (point_y point) startY && (point_y point <=? endY)%float.

(** The selection [completeSelecting] builds: the points of the rectangle
    are added, in array order, to a copy of the current selection. *)
Definition select_in_rectangle (h : gmap ref PointModel)
    (startX startY endX endY : float) (selected : JSSet.t) (rs : list ref) : JSSet.t :=
  foldl (λ s r,
    match h !! r with
    | Some point =>
        if in_rectangle startX startY endX endY point then JSSet.add (iri point) s else s
    | None => s
    end) selected rs.

(** [Math.abs(endX - startX) <= 3 || Math.abs(endY - startY) <= 3] *)
Definition too_small (startX startY endX endY : float) : bool :=
  (Math_abs (endX - startX) <=? 3)%float || (Math_abs (endY - startY) <=? 3)%float.

Definition completeSelecting (st : AppState) : AppState :=
  let currentState := interactionState st in
  match diagramData st, mode currentState, dragStart currentState, dragEnd currentState with
  | Some currentDiagram, SELECTING, Some dstart, Some dend =>
      let startX := Math_min (x dstart) (x dend) in
      let startY := Math_min (y dstart) (y dend) in
      let endX := Math_max (x dstart) (x dend) in
      let endY := Math_max (y dstart) (y dend) in
      if too_small startX startY endX endY then
        update_interactionState (λ state,
          {| mode := NONE; dragStart := None; dragEnd := None;
             panStart := panStart state;
             selectedPoints := selectedPoints state;
             originalPositions := originalPositions state |}) st
      else
        let newSelectedPoints :=
          select_in_rectangle (pointHeap st) startX startY endX endY
            (selectedPoints currentState) (points currentDiagram) in
        update_interactionState (λ state,
          {| mode := NONE; dragStart := None; dragEnd := None;
             panStart := panStart state;
             selectedPoints := newSelectedPoints;
             originalPositions := originalPositions state |}) st
  | _, _, _, _ => st
  end.

Definition startPanning (position : Point2D) (st : AppState) : AppState :=
  update_interactionState (λ state,
    {| mode := PANNING; dragStart := dragStart state;
       dragEnd := dragEnd state; panStart := Some position;
       selectedPoints := selectedPoints state;
       originalPositions := originalPositions state |}) st.

Definition updatePanning (position : Point2D) (st : AppState) : AppState :=
  let currentState := interactionState st in
  match mode currentState, panStart currentState with
  | PANNING, Some pstart =>
      let dx := (x position - x pstart)%float in
      let dy := (y position - y pstart)%float in
      let transform := viewTransform st in
      let st := set_viewTransform
        {| scale := scale transform;
           offsetX := (offsetX transform + dx)%float;
           offsetY := (offsetY transform + dy)%float |} st in
      update_interactionState (λ state,
        {| mode := mode state; dragStart := dragStart state;
           dragEnd := dragEnd state; panStart := Some position;
           selectedPoints := selectedPoints state;
           originalPositions := originalPositions state |}) st
  | _, _ => st
  end.

Definition endPanning (st : AppState) : AppState :=
  update_interactionState (λ state,
    {| mode := NONE; dragStart := dragStart state;
       dragEnd := dragEnd state; panStart := None;
       selectedPoints := selectedPoints state;
       originalPositions := originalPositions state |}) st.

Definition zoom (center : Point2D) (delta : float) (st : AppState) : AppState :=
  let currentTransform := viewTransform st in
  let zoomFactor :=
    if (delta <? 0)%float then canvas_zoomFactor AppConfig
    else (1 / canvas_zoomFactor AppConfig)%float in
  let newScale := (scale currentTransform * zoomFactor)%float in
  let newOffsetX := (x center - (x center - offsetX currentTransform) * zoomFactor)%float in
  let newOffsetY := (y center - (y center - offsetY currentTransform) * zoomFactor)%float in
  set_viewTransform
    {| scale := newScale; offsetX := newOffsetX; offsetY := newOffsetY |} st.

(** *** Inserting a point *)

(** The identifier of the new point; [uuid] is what [uuidv4()] returns. *)
Definition newPointIri (uuid : string) : string :=
  "http://tempuri.org/point/" +:+ uuid.

(** The reference [new PointModel(...)] yields: one no live point has. *)
Definition newRef (h : gmap ref PointModel) : ref := fresh (dom h).

(** [addNewPointToLine] up to its [await]: the point is created, spliced
    into the object, the object is renumbered, the point is pushed on the
    diagram's array, and the remote insert is issued. *)
Definition addNewPointToLine_begin (object : ref) (position : Point2D)
    (insertIndex : Z) (uuid : string) (st : AppState) : Suspended :=
  match objectHeap st !! object, diagramData st with
  | Some obj, Some currentDiagram =>
      let newIri := newPointIri uuid in
      let st := updateStatus "Adding new point..." (setLoading true st) in
      let newPoint :=
        {| iri := newIri; point_x := x position; point_y := y position;
           sequenceNumber := insertIndex; parentObject := Some object;
           gluedTo := [] |} in
      let r := newRef (pointHeap st) in
      let h := <[r := newPoint]> (pointHeap st) in
      let obj_points := splice_insert insertIndex r (object_points obj) in
      let st := set_objectHeap (<[object := set_object_points obj_points obj]> (objectHeap st)) st in
      let h := renumber 0 obj_points h in
      let st := set_pointHeap h st in
      let st := set_diagramData (Some (set_points (points currentDiagram ++ [r]) currentDiagram)) st in
      let namespace := cimNamespace st in
      let sequenceUpdates := sequenceUpdates_of h obj_points in
      Awaiting (issue
        (InsertNewPoint newIri (object_iri obj) (x position) (y position)
           insertIndex sequenceUpdates namespace) st)
  | _, _ => Returned st
  end.

(** The [catch] block of [addNewPointToLine]: the local insert is undone on
    the object and on the diagram held by [diagramData]. *)
Definition addNewPointToLine_revert (object : ref) (newIri : string) (st : AppState) : AppState :=
  match objectHeap st !! object, diagramData st with
  | Some obj, Some currentDiagram =>
      let obj_points :=
        filter (λ r, has_iri (pointHeap st) newIri r = false) (object_points obj) in
      let st := set_objectHeap (<[object := set_object_points obj_points obj]> (objectHeap st)) st in
      let st := set_pointHeap (renumber 0 obj_points (pointHeap st)) st in
      let diagram_points :=
        filter (λ r, has_iri (pointHeap st) newIri r = false) (points currentDiagram) in
      set_diagramData (Some (set_points diagram_points currentDiagram)) st
  | _, _ => st
  end.

(** [addNewPointToLine] from its [await] on. *)
Definition addNewPointToLine_settle (outcome : RemoteOutcome) (object : ref)
    (newIri : string) (st : AppState) : AppState :=
  match outcome with
  | Resolved =>
      let st := updateStatus "New point added" st in
      let st := togglePointSelection newIri (clearSelection st) in
      setLoading false st
  | Rejected message =>
      let st := updateStatus ("Error: " +:+ message) st in
      let st := addNewPointToLine_revert object newIri st in
      setLoading false st
  end.

Definition addNewPointToLine (outcome : RemoteOutcome) (object : ref)
    (position : Point2D) (insertIndex : Z) (uuid : string) (st : AppState) : AppState :=
  match addNewPointToLine_begin object position insertIndex uuid st with
  | Returned st => st
  | Awaiting st => addNewPointToLine_settle outcome object (newPointIri uuid) st
  end.

(** *** Loading a layout *)

(** [DiagramService.loadDiagramLayout]; the second component is the error
    the promise is rejected with, if any.  The module the service imports
    [clearSelection] from is not at hand; the operation empties the selection
    set and is independent of the mode, which is [clearSelection] of
    [AppState.ts].  A successful load installs the object graph built from the
    response; the graph of the diagram it replaces is dropped with it. *)
Definition loadDiagramLayout (outcome : QueryOutcome) (diagramIri : string)
    (st : AppState) : AppState * option string :=
  if bool_decide (diagramIri = "") then (st, Some "Please select a diagram")
  else
    let st := updateStatus "Loading diagram layout data..." (setLoading true st) in
    let st := clearSelection (resetViewTransform st) in
    let namespace := cimNamespace st in
    let st := issue (ExecuteQuery (buildDiagramLayoutQuery diagramIri namespace)) st in
    match outcome with
    | QueryOk g =>
        let diagram := loaded_diagram g in
        let st := set_objectHeap (loaded_objects g) (set_pointHeap (loaded_points g) st) in
        let st := set_diagramData (Some diagram) st in
        let st := updateStatus
          ("Loaded diagram with " +:+ pretty (length (objects diagram))
           +:+ " objects and " +:+ pretty (length (points diagram)) +:+ " points") st in
        (setLoading false st, None)
    | QueryFailed message =>
        let st := updateStatus ("Error: " +:+ message) st in
        (setLoading false st, Some message)
    end.

(** *** Deleting a point *)

(** [deletePointFromLine] up to its [await].  The guard on the first and
    the last point returns from inside the [try], so the [finally] block
    runs on that path too. *)
Definition deletePointFromLine_begin (point : ref) (st : AppState) : Suspended :=
  match pointHeap st !! point, diagramData st with
  | Some pt, Some currentDiagram =>
      match parentObject pt ≫= (λ object, (λ obj, (object, obj)) <$> objectHeap st !! object) with
      | None => Returned (updateStatus "Cannot delete point: parent object not found" st)
      | Some (object, obj) =>
          let pointIndex := findIndex (has_iri (pointHeap st) (iri pt)) (object_points obj) in
          if (pointIndex =? 0)%Z || (pointIndex =? Z.of_nat (length (object_points obj)) - 1)%Z then
            let st := updateStatus "Cannot delete first or last point of a line or shape" st in
            Returned (setLoading false st)
          else
            let st := updateStatus "Deleting point..." (setLoading true st) in
            let obj_points := splice_delete pointIndex (object_points obj) in
            let st := set_objectHeap (<[object := set_object_points obj_points obj]> (objectHeap st)) st in
            let h := renumber 0 obj_points (pointHeap st) in
            let st := set_pointHeap h st in
            let diagramPointIndex := findIndex (has_iri h (iri pt)) (points currentDiagram) in
            let diagram_points :=
              if (0 <=? diagramPointIndex)%Z
              then splice_delete diagramPointIndex (points currentDiagram)
              else points currentDiagram in
            let st := set_diagramData (Some (set_points diagram_points currentDiagram)) st in
            let namespace := cimNamespace st in
            let sequenceUpdates := sequenceUpdates_of h obj_points in
            Awaiting (issue (DeletePoint (iri pt) sequenceUpdates namespace) st)
      end
  | _, _ => Returned st
  end.

(** [deletePointFromLine] from its [await] on.  On failure the layout of
    the selected diagram is loaded again; [reload] is how that query
    settles.  The second component is the error that escapes, if any. *)
Definition deletePointFromLine_settle (outcome : RemoteOutcome) (reload : QueryOutcome)
    (pointIri : string) (st : AppState) : AppState * option string :=
  match outcome with
  | Resolved =>
      let st := updateStatus "Point deleted successfully" st in
      let st := update_interactionState (λ state,
        if JSSet.has (selectedPoints state) pointIri then
          {| mode := mode state; dragStart := dragStart state;
             dragEnd := dragEnd state; panStart := panStart state;
             selectedPoints := JSSet.delete pointIri (selectedPoints state);
             originalPositions := originalPositions state |}
        else state) st in
      (setLoading false st, None)
  | Rejected message =>
      let st := updateStatus ("Error: " +:+ message) st in
      let diagramIri := selectedDiagram st in
      if bool_decide (diagramIri = "") then (setLoading false st, None)
      else
        let '(st, err) := loadDiagramLayout reload diagramIri st in
        (setLoading false st, err)
  end.

Definition deletePointFromLine (outcome : RemoteOutcome) (reload : QueryOutcome)
    (point : ref) (st : AppState) : AppState * option string :=
  match deletePointFromLine_begin point st with
  | Returned st => (st, None)
  | Awaiting st' =>
      deletePointFromLine_settle outcome reload
        (default "" (iri_of (pointHeap st) point)) st'
  end.

End Operations.

(** ** Drag gestures *)

(** A drag gesture up to its commit: [startDragging], then one
    [updateDragging] for every pointer move. *)
Definition drag_gesture (start : Point2D) (moves : list Point2D) (st : AppState) : AppState :=
  foldl (λ st position, updateDragging position st) (startDragging start st) moves.

(** ** Well-formed point arrays *)

(** Every reference of the array denotes a live point. *)
Definition live (h : gmap ref PointModel) (rs : list ref) : Prop :=
  Forall (λ r, is_Some (h !! r)) rs.

(** No two entries of the array carry the same identifier. *)
Definition distinct_iris (h : gmap ref PointModel) (rs : list ref) : Prop :=
  NoDup (iri_of h <$> rs).

(** The sequence numbers of the array are [0 .. n-1] in array order. *)
Definition numbered (h : gmap ref PointModel) (rs : list ref) : Prop :=
  ∀ i r, rs !! i = Some r → sequenceNumber <$> h !! r = Some (Z.of_nat i).

(** ** The operations as events *)

(** One constructor per exported operation of [AppState.ts] that acts on the
    stores modelled here, and one for [loadDiagramLayout]; the asynchronous
    ones carry the outcome of the remote calls they await. *)
Inductive Event :=
  | ResetViewTransform
  | ClearSelection
  | SetCGMESVersion (version : CGMESVersion)
  | TogglePointSelection (pointIri : string)
  | StartDragging (position : Point2D)
  | UpdateDragging (position : Point2D)
  | EndDragging (position : Point2D)
  | RevertDraggedPositions
  | StartSelecting (position : Point2D)
  | UpdateSelecting (position : Point2D)
  | CompleteSelecting
  | StartPanning (position : Point2D)
  | UpdatePanning (position : Point2D)
  | EndPanning
  | Zoom (center : Point2D) (delta : float)
  | AddNewPointToLine (outcome : RemoteOutcome) (object : ref)
      (position : Point2D) (insertIndex : Z) (uuid : string)
  | DeletePointFromLine (outcome : RemoteOutcome) (reload : QueryOutcome) (point : ref)
  | LoadDiagramLayout (outcome : QueryOutcome) (diagramIri : string).

Definition step (cfg : Config) (query : string → string → string)
    (e : Event) (st : AppState) : AppState :=
  match e with
  | ResetViewTransform => resetViewTransform cfg st
  | ClearSelection => clearSelection st
  | SetCGMESVersion version => setCGMESVersion version st
  | TogglePointSelection pointIri => togglePointSelection pointIri st
  | StartDragging position => startDragging position st
  | UpdateDragging position => updateDragging position st
  | EndDragging position => (endDragging cfg position st).2
  | RevertDraggedPositions => revertDraggedPositions st
  | StartSelecting position => startSelecting position st
  | UpdateSelecting position => updateSelecting position st
  | CompleteSelecting => completeSelecting st
  | StartPanning position => startPanning position st
  | UpdatePanning position => updatePanning position st
  | EndPanning => endPanning st
  | Zoom center delta => zoom cfg center delta st
  | AddNewPointToLine outcome object position insertIndex uuid =>
      addNewPointToLine cfg outcome object position insertIndex uuid st
  | DeletePointFromLine outcome reload point =>
      (deletePointFromLine cfg query outcome reload point st).1
  | LoadDiagramLayout outcome diagramIri =>
      (loadDiagramLayout cfg query outcome diagramIri st).1
  end.

Definition is_StartDragging (e : Event) : bool :=
  match e with StartDragging _ => true | _ => false end.

(** ** Frames *)

(** The stores other than the point heap and the interaction state agree. *)
Definition same_stores (st st0 : AppState) : Prop :=
  cgmesVersion st = cgmesVersion st0 ∧ viewTransform st = viewTransform st0 ∧
  diagramData st = diagramData st0 ∧ objectHeap st = objectHeap st0 ∧
  isLoading st = isLoading st0 ∧ statusText st = statusText st0 ∧
  selectedDiagram st = selectedDiagram st0 ∧
  positionUpdateEvent st = positionUpdateEvent st0 ∧
  remoteCalls st = remoteCalls st0.

(** What holds of [st] while a drag that started in [st0] on diagram [d] at
    [start] is in progress: the selection is the one of [st0], the snapshot is
    the one taken in [st0], and a point either is as it was in [st0] or is a
    selected point of the diagram that differs from its old self in its
    coordinates only. *)
Definition dragging_from (st0 : AppState) (d : DiagramModel) (start : Point2D)
    (st : AppState) : Prop :=
  same_stores st st0 ∧
  mode (interactionState st) = DRAGGING ∧
  dragStart (interactionState st) = Some start ∧
  panStart (interactionState st) = panStart (interactionState st0) ∧
  selectedPoints (interactionState st) = selectedPoints (interactionState st0) ∧
  originalPositions (interactionState st) =
    snapshot (pointHeap st0) (selectedPoints (interactionState st0)) (points d) ∧
  ∀ r, pointHeap st !! r = pointHeap st0 !! r ∨
       ∃ pt a b, r ∈ points d ∧ pointHeap st0 !! r = Some pt ∧
                 iri pt ∈ selectedPoints (interactionState st0) ∧
                 pointHeap st !! r = Some (set_xy a b pt).

(** ** Concrete states *)

Module Example.

Definition config : Config :=
  {| dragThreshold := 5;
     canvas_zoomFactor := 0x1.199999999999ap+0;
     view_initialScale := 1;
     view_initialOffsetX := 0;
     view_initialOffsetY := 0;
     namespaces := λ v,
       match v with
       | V2_4_15 => "http://iec.ch/TC57/2013/CIM-schema-cim16#"
       | V3_0 => "http://iec.ch/TC57/CIM100#"
       end |}.

Definition query (diagramIri namespace : string) : string :=
  "layout " +:+ diagramIri +:+ " " +:+ namespace.

Definition P (k : string) (px py : float) (seq : Z) (parent : ref)
    (glued : list string) : PointModel :=
  {| iri := k; point_x := px; point_y := py; sequenceNumber := seq;
     parentObject := Some parent; gluedTo := glued |}.

(** The object [O = [P0(0,0), P1(10,0), P2(10,10)]] alone in a diagram. *)
Definition line : AppState :=
  {| cgmesVersion := V3_0;
     viewTransform := {| scale := 1; offsetX := 0; offsetY := 0 |};
     diagramData := Some {| objects := [1%positive]; points := [1; 2; 3]%positive |};
     pointHeap :=
       <[1%positive := P "P0" 0 0 0 1%positive []]>
         (<[2%positive := P "P1" 10 0 1 1%positive []]>
            (<[3%positive := P "P2" 10 10 2 1%positive []]> ∅));
     objectHeap :=
       {[ 1%positive := {| object_iri := "O"; object_points := [1; 2; 3]%positive |} ]};
     isLoading := false;
     statusText := "Ready";
     selectedDiagram := "http://example.org/diagram";
     interactionState := initialInteractionState;
     positionUpdateEvent := None;
     remoteCalls := [] |}.

(** The same diagram with [P1] selected. *)
Definition line_selected : AppState := togglePointSelection "P1" line.

(** Two objects whose end points [A] and [B] are glued to one another;
    [A] is selected, [B] is not. *)
Definition glued : AppState :=
  {| cgmesVersion := V3_0;
     viewTransform := {| scale := 1; offsetX := 0; offsetY := 0 |};
     diagramData := Some {| objects := [1; 2]%positive; points := [1; 2; 3; 4]%positive |};
     pointHeap :=
       <[1%positive := P "A0" (-10) 0 0 1%positive []]>
         (<[2%positive := P "A" 0 0 1 1%positive ["B"]]>
            (<[3%positive := P "B" 5 5 0 2%positive ["A"]]>
               (<[4%positive := P "B1" 20 5 1 2%positive []]> ∅)));
     objectHeap :=
       <[1%positive := {| object_iri := "OA"; object_points := [1; 2]%positive |}]>
         {[ 2%positive := {| object_iri := "OB"; object_points := [3; 4]%positive |} ]};
     isLoading := false;
     statusText := "Ready";
     selectedDiagram := "http://example.org/diagram";
     interactionState :=
       {| mode := NONE; dragStart := None; dragEnd := None; panStart := None;
          selectedPoints := ["A"]; originalPositions := ∅ |};
     positionUpdateEvent := None;
     remoteCalls := [] |}.

(** The view transform of the zoom example: scale 1, offset (0,0). *)
Definition unit_view : AppState := line.

End Example.

(** ** Whole gestures *)

(** A rectangle selection from press to release: [startSelecting], one
    [updateSelecting] per pointer move, [completeSelecting]. *)
Definition select_gesture (start : Point2D) (moves : list Point2D) (st : AppState) : AppState :=
  completeSelecting
    (foldl (λ st position, updateSelecting position st) (startSelecting start st) moves).

(** A pan up to its release: [startPanning], then one [updatePanning] per
    pointer move. *)
Definition pan_moves (start : Point2D) (moves : list Point2D) (st : AppState) : AppState :=
  foldl (λ st position, updatePanning position st) (startPanning start st) moves.

(** The offset a pan that is anchored at [anchor] reaches from [offset]: every
    move adds its distance from the pointer position before it. *)
Fixpoint pan_offset (coord : Point2D → float) (offset : float) (anchor : Point2D)
    (moves : list Point2D) : float :=
  match moves with
  | [] => offset
  | position :: moves' =>
      pan_offset coord (offset + (coord position - coord anchor))%float position moves'
  end.

(** The state of a rectangle selection in progress whose corners are [a]
    and [b]: [st] with the mode at SELECTING and the corners set. *)
Definition selecting (a b : Point2D) (st : AppState) : AppState :=
  update_interactionState (λ state,
    {| mode := SELECTING; dragStart := Some a; dragEnd := Some b;
       panStart := panStart state;
       selectedPoints := selectedPoints state;
       originalPositions := originalPositions state |}) st.

(** ** The diagram list and the handlers of the configuration panel *)

(** One row of the response to the diagrams query: [binding.diagram.value]
    and, where the row has a name, [binding.name.value]. *)
Record Binding := mkBinding
  { binding_diagram : string;
    binding_name : option string }.

Record SparqlDiagramData := mkSparqlDiagramData
  { diagram_iri : string;
    diagram_name : string }.

(** How the awaited diagrams query settles. *)
Inductive BindingsOutcome :=
  | BindingsOk (bindings : list Binding)
  | BindingsFailed (message : string).

(** The stores of [AppState] together with the [diagramList] store and the
    endpoint the SPARQL service holds. *)
Record Session := mkSession
  { app : AppState;
    diagramList : list SparqlDiagramData;
    serviceEndpoint : string }.

(** [binding => ({ iri: binding.diagram.value,
                   name: binding.name ? binding.name.value : binding.diagram.value })] *)
Definition diagram_of_binding (binding : Binding) : SparqlDiagramData :=
  {| diagram_iri := binding_diagram binding;
     diagram_name :=
       match binding_name binding with
       | Some name => name
       | None => binding_diagram binding
       end |}.

Section Panel.

Variable AppConfig : Config.

(** [isValidEndpoint], [buildDiagramsQuery] and [buildDiagramLayoutQuery] of
    [services/utils/sparql-utils] *)
Variable isValidEndpoint : string → bool.
Variable buildDiagramsQuery : string → string.
Variable buildDiagramLayoutQuery : string → string → string.

(** [DiagramService.loadDiagramProfiles]; the second component is the array
    the promise resolves to, or the error it is rejected with. *)
Definition loadDiagramProfiles (outcome : BindingsOutcome) (endpoint : string)
    (s : Session) : Session * (list SparqlDiagramData + string) :=
  if negb (isValidEndpoint endpoint)
  then (s, inr "Please enter a valid SPARQL endpoint URL")
  else
    let st := updateStatus "Loading diagram profiles..." (setLoading true (app s)) in
    let namespace := cimNamespace AppConfig st in
    let st := issue (ExecuteQuery (buildDiagramsQuery namespace)) st in
    match outcome with
    | BindingsOk bindings =>
        if bool_decide (length bindings = 0) then
          let st := updateStatus "No diagrams found" st in
          ({| app := setLoading false st; diagramList := [];
              serviceEndpoint := endpoint |}, inl [])
        else
          let diagrams := diagram_of_binding <$> bindings in
          let st := updateStatus
            ("Found " +:+ pretty (length diagrams) +:+ " diagrams") st in
          ({| app := setLoading false st; diagramList := diagrams;
              serviceEndpoint := endpoint |}, inl diagrams)
    | BindingsFailed message =>
        let st := updateStatus ("Error: " +:+ message) st in
        ({| app := setLoading false st; diagramList := diagramList s;
            serviceEndpoint := endpoint |}, inr message)
    end.

(** [handleLoadDiagrams] of the configuration panel; the second component is
    the argument [onLoadDiagrams] is called with, if it is called. *)
Definition handleLoadDiagrams (outcome : BindingsOutcome) (endpoint : string)
    (s : Session) : Session * option string :=
  match loadDiagramProfiles outcome endpoint s with
  | (s, inl _) => (s, Some endpoint)
  | (s, inr message) =>
      ({| app := updateStatus ("Error: " +:+ message) (app s);
          diagramList := diagramList s;
          serviceEndpoint := serviceEndpoint s |}, None)
  end.

(** [handleRenderDiagram] of the configuration panel; the second component is
    the argument [onRenderDiagram] is called with, if it is called. *)
Definition handleRenderDiagram (outcome : QueryOutcome) (st : AppState)
    : AppState * option string :=
  match loadDiagramLayout AppConfig buildDiagramLayoutQuery outcome (selectedDiagram st) st with
  | (st, None) => (st, Some (selectedDiagram st))
  | (st, Some message) => (updateStatus ("Error: " +:+ message) st, None)
  end.

End Panel.

(** ** Further concrete states *)

Module Scene.

(** [Example.line] with [P0] and [P2] selected, in that order. *)
Definition ends_selected : AppState :=
  togglePointSelection "P2" (togglePointSelection "P0" Example.line).

(** [Example.line] whose point [P1] has lost its place in the array of its
    parent object. *)
Definition stale : AppState :=
  set_objectHeap
    {[ 1%positive := {| object_iri := "O"; object_points := [1; 3]%positive |} ]}
    Example.line.

(** A point without a parent object, alone in a diagram. *)
Definition orphan : AppState :=
  set_pointHeap
    {[ 1%positive := {| iri := "Q"; point_x := 1; point_y := 2; sequenceNumber := 0;
                        parentObject := None; gluedTo := [] |} ]}
    (set_diagramData (Some {| objects := []; points := [1%positive] |}) Example.line).

(** [Example.line] before any diagram was loaded. *)
Definition unloaded : AppState := set_diagramData None Example.line.

Definition valid_endpoint (endpoint : string) : bool :=
  bool_decide (endpoint ≠ "").

Definition diagrams_query (namespace : string) : string := "diagrams " +:+ namespace.

Definition session : Session :=
  {| app := Example.line_selected; diagramList := []; serviceEndpoint := "" |}.

Definition loaded : LoadedDiagram :=
  {| loaded_diagram := {| objects := [7%positive]; points := [8; 9]%positive |};
     loaded_points :=
       <[8%positive := Example.P "R0" 1 1 0 7%positive []]>
         {[ 9%positive := Example.P "R1" 2 2 1 7%positive [] ]};
     loaded_objects :=
       {[ 7%positive := {| object_iri := "R"; object_points := [8; 9]%positive |} ]} |}.

End Scene.

(** * Properties *)

(** ** IEEE comparisons *)

Lemma SFcompare_antisym (f1 f2 : spec_float) :
  SFcompare f2 f1 = CompOpp <$> SFcompare f1 f2.
Proof.
  destruct f1 as [s1|s1| |s1 m1 e1], f2 as [s2|s2| |s2 m2 e2]; simpl;
    try reflexivity; try (destruct s1; reflexivity); try (destruct s2; reflexivity);
    try (destruct s1, s2; reflexivity).
  f_equal. destruct s1, s2; try reflexivity.
  - rewrite (Z.compare_antisym e1 e2). destruct (e1 ?= e2)%Z; simpl; try reflexivity.
    pose proof (Pos.compare_antisym m1 m2) as H. unfold Pos.compare in H.
    rewrite H. reflexivity.
  - rewrite (Z.compare_antisym e1 e2). destruct (e1 ?= e2)%Z; simpl; try reflexivity.
    exact (Pos.compare_antisym m1 m2).
Qed.

(** [a <= b] excludes [b < a], also at infinities and zeros. *)
Lemma leb_true_ltb_false (a b : float) :
  (a <=? b)%float = true → (b <? a)%float = false.
Proof.
  rewrite leb_spec, ltb_spec. unfold SFleb, SFltb.
  rewrite (SFcompare_antisym (Prim2SF a) (Prim2SF b)).
  destruct (SFcompare (Prim2SF a) (Prim2SF b)) as [[]|]; simpl; congruence.
Qed.

Lemma isSignificant_false cfg (dx dy : float) :
  (Math_abs dx <=? dragThreshold cfg)%float = true →
  (Math_abs dy <=? dragThreshold cfg)%float = true →
  isSignificant cfg dx dy = false.
Proof.
  intros Hx Hy. unfold isSignificant, gtb.
  by rewrite (leb_true_ltb_false _ _ Hx), (leb_true_ltb_false _ _ Hy).
Qed.

(** ** Records *)

Lemma set_xy_set_xy a b a' b' pt : set_xy a b (set_xy a' b' pt) = set_xy a b pt.
Proof. reflexivity. Qed.

Lemma set_xy_same pt : set_xy (point_x pt) (point_y pt) pt = pt.
Proof. by destruct pt. Qed.

Lemma set_sequenceNumber_same pt : set_sequenceNumber (sequenceNumber pt) pt = pt.
Proof. by destruct pt. Qed.

(** ** [forEach] *)

Lemma forEach_cons f r rs h : forEach f (r :: rs) h = forEach f rs (alter f r h).
Proof. reflexivity. Qed.

Lemma forEach_lookup_notin f rs h r : r ∉ rs → forEach f rs h !! r = h !! r.
Proof.
  revert h. induction rs as [|a rs IH]; intros h Hr; [done|].
  rewrite forEach_cons, IH by set_solver.
  apply lookup_alter_ne. set_solver.
Qed.

(** A body that is idempotent acts once on every point of the array, however
    often the array mentions it. *)
Lemma forEach_lookup_in f rs h r :
  (∀ pt, f (f pt) = f pt) → r ∈ rs → forEach f rs h !! r = f <$> h !! r.
Proof.
  intros Hf. revert h. induction rs as [|a rs IH]; intros h Hr; [set_solver|].
  rewrite forEach_cons. destruct (decide (r ∈ rs)) as [Hin|Hin].
  - rewrite IH by done. destruct (decide (a = r)) as [->|Hne].
    + rewrite lookup_alter_eq. destruct (h !! r); simpl; by rewrite ?Hf.
    + by rewrite lookup_alter_ne.
  - assert (a = r) as -> by set_solver.
    rewrite forEach_lookup_notin by done. by rewrite lookup_alter_eq.
Qed.

Lemma drag_point_idem cs dx dy pt :
  drag_point cs dx dy (drag_point cs dx dy pt) = drag_point cs dx dy pt.
Proof.
  unfold drag_point. destruct (JSSet.has _ (iri pt)) eqn:Hs; [|by rewrite Hs].
  destruct (originalPositions cs !! iri pt) eqn:Ho; simpl; by rewrite Hs, Ho.
Qed.

Lemma revert_point_idem cs pt :
  revert_point cs (revert_point cs pt) = revert_point cs pt.
Proof.
  unfold revert_point. destruct (JSSet.has _ (iri pt)) eqn:Hs; [|by rewrite Hs].
  destruct (originalPositions cs !! iri pt) eqn:Ho; simpl; by rewrite Hs, Ho.
Qed.

Lemma JSSet_has_true s k : JSSet.has s k = true ↔ k ∈ s.
Proof. unfold JSSet.has. apply bool_decide_eq_true. Qed.

Lemma JSSet_has_false s k : JSSet.has s k = false ↔ k ∉ s.
Proof. unfold JSSet.has. apply bool_decide_eq_false. Qed.

(** ** The snapshot of [startDragging] *)

Lemma snapshot_snoc h sel rs r :
  snapshot h sel (rs ++ [r]) =
    match h !! r with
    | Some point =>
        if JSSet.has sel (iri point)
        then <[iri point := {| x := point_x point; y := point_y point |}]> (snapshot h sel rs)
        else snapshot h sel rs
    | None => snapshot h sel rs
    end.
Proof. unfold snapshot. by rewrite foldl_app. Qed.

(** The keys of the snapshot are the selected identifiers that name a point
    of the array. *)
Lemma snapshot_is_Some h sel rs k :
  is_Some (snapshot h sel rs !! k) ↔
  k ∈ sel ∧ ∃ r pt, r ∈ rs ∧ h !! r = Some pt ∧ iri pt = k.
Proof.
  induction rs as [|r rs IH] using rev_ind.
  - unfold snapshot; simpl. rewrite lookup_empty. split.
    + by intros [? ?].
    + intros (_ & r & pt & Hr & _). set_solver.
  - rewrite snapshot_snoc. destruct (h !! r) as [point|] eqn:Hpoint.
    + destruct (JSSet.has sel (iri point)) eqn:Hsel.
      * apply JSSet_has_true in Hsel.
        destruct (decide (iri point = k)) as [<-|Hne].
        -- rewrite lookup_insert_eq. split; [|by eauto].
           intros _. split; [done|]. exists r, point. set_solver.
        -- rewrite lookup_insert_ne by done. rewrite IH. split.
           ++ intros (? & r' & pt & ? & ? & ?). split; [done|].
              exists r', pt. set_solver.
           ++ intros (? & r' & pt & Hin & Hpt & Hk). split; [done|].
              apply elem_of_app in Hin as [Hin|Hin]; [by eauto|].
              apply list_elem_of_singleton in Hin as ->. congruence.
      * apply JSSet_has_false in Hsel. rewrite IH. split.
        -- intros (? & r' & pt & ? & ? & ?). split; [done|].
           exists r', pt. set_solver.
        -- intros (? & r' & pt & Hin & Hpt & Hk). split; [done|].
           apply elem_of_app in Hin as [Hin|Hin]; [by eauto|].
           apply list_elem_of_singleton in Hin as ->. congruence.
    + rewrite IH. split.
      * intros (? & r' & pt & ? & ? & ?). split; [done|].
        exists r', pt. set_solver.
      * intros (? & r' & pt & Hin & Hpt & Hk). split; [done|].
        apply elem_of_app in Hin as [Hin|Hin]; [by eauto|].
        apply list_elem_of_singleton in Hin as ->. congruence.
Qed.

(** Every entry of the snapshot holds the coordinates of some selected point
    of the array with that identifier. *)
Lemma snapshot_lookup_Some h sel rs k o :
  snapshot h sel rs !! k = Some o →
  ∃ r pt, r ∈ rs ∧ h !! r = Some pt ∧ iri pt = k ∧
          o = {| x := point_x pt; y := point_y pt |}.
Proof.
  induction rs as [|r rs IH] using rev_ind.
  - unfold snapshot; simpl. by rewrite lookup_empty.
  - rewrite snapshot_snoc.
    assert (snapshot h sel rs !! k = Some o →
            ∃ r0 pt, r0 ∈ rs ++ [r] ∧ h !! r0 = Some pt ∧ iri pt = k ∧
                     o = {| x := point_x pt; y := point_y pt |}) as Hold.
    { intros H. destruct (IH H) as (r0 & pt & ? & ? & ? & ?).
      exists r0, pt. set_solver. }
    destruct (h !! r) as [point|] eqn:Hpoint; [|done].
    destruct (JSSet.has sel (iri point)); [|done].
    destruct (decide (iri point = k)) as [<-|Hne].
    + rewrite lookup_insert_eq. intros [= <-]. exists r, point. set_solver.
    + by rewrite lookup_insert_ne.
Qed.

(** Where identifiers are distinct, the snapshot of a selected point is its
    own position. *)
Lemma snapshot_lookup_own h sel rs r pt :
  distinct_iris h rs → r ∈ rs → h !! r = Some pt → iri pt ∈ sel →
  snapshot h sel rs !! iri pt = Some {| x := point_x pt; y := point_y pt |}.
Proof.
  intros Hd Hr Hpt Hsel.
  assert (is_Some (snapshot h sel rs !! iri pt)) as [o Ho].
  { apply snapshot_is_Some. eauto 6. }
  rewrite Ho. destruct (snapshot_lookup_Some _ _ _ _ _ Ho) as (r' & pt' & Hr' & Hpt' & Hk & ->).
  assert (r' = r) as ->; [|congruence].
  apply list_elem_of_lookup in Hr as [i Hi].
  apply list_elem_of_lookup in Hr' as [j Hj].
  assert (i = j) as ->; [|congruence].
  eapply (NoDup_lookup _ i j (Some (iri pt))); [exact Hd| |].
  - rewrite list_lookup_fmap, Hi. simpl. unfold iri_of. by rewrite Hpt.
  - rewrite list_lookup_fmap, Hj. simpl. unfold iri_of. rewrite Hpt'. simpl. by rewrite Hk.
Qed.

(** ** Dragging *)

Lemma updateDragging_noop position st :
  mode (interactionState st) ≠ DRAGGING ∨ dragStart (interactionState st) = None →
  updateDragging position st = st.
Proof.
  intros H. unfold updateDragging.
  destruct (diagramData st); [|done].
  destruct (mode (interactionState st)) eqn:Hm; try done.
  destruct (dragStart (interactionState st)); [|done].
  by destruct H.
Qed.

Lemma endDragging_noop cfg position st :
  mode (interactionState st) ≠ DRAGGING ∨ dragStart (interactionState st) = None →
  endDragging cfg position st = (None, st).
Proof.
  intros H. unfold endDragging.
  destruct (mode (interactionState st)) eqn:Hm; try done.
  destruct (dragStart (interactionState st)); [|done].
  by destruct H.
Qed.

(** C10: outside of a drag (the mode is not DRAGGING, or there is no
    [dragStart]) [updateDragging] and [endDragging] leave the whole
    application state as it is (point coordinates, interaction state, view
    transform, position-update event, remote calls), and [endDragging] returns
    null. *)
Theorem drag_calls_outside_drag_are_noops cfg position st :
  mode (interactionState st) ≠ DRAGGING ∨ dragStart (interactionState st) = None →
  updateDragging position st = st ∧ endDragging cfg position st = (None, st).
Proof.
  intros H. split; [by apply updateDragging_noop | by apply endDragging_noop].
Qed.

(** The state [revertDraggedPositions] leaves: the points of the diagram whose
    identifier is selected and has a snapshot are at their snapshot, every
    other point is as before. *)
Lemma revertDraggedPositions_lookup st d r :
  diagramData st = Some d →
  pointHeap (revertDraggedPositions st) !! r =
    if bool_decide (r ∈ points d)
    then revert_point (interactionState st) <$> pointHeap st !! r
    else pointHeap st !! r.
Proof.
  intros Hd. unfold revertDraggedPositions. rewrite Hd. simpl.
  case_bool_decide.
  - apply forEach_lookup_in; [apply revert_point_idem | done].
  - by apply forEach_lookup_notin.
Qed.

Lemma updateDragging_lookup position st d start r :
  diagramData st = Some d →
  mode (interactionState st) = DRAGGING →
  dragStart (interactionState st) = Some start →
  pointHeap (updateDragging position st) !! r =
    if bool_decide (r ∈ points d)
    then drag_point (interactionState st)
           (x position - x start) (y position - y start) <$> pointHeap st !! r
    else pointHeap st !! r.
Proof.
  intros Hd Hm Hs. unfold updateDragging. rewrite Hd, Hm, Hs. simpl.
  case_bool_decide.
  - apply forEach_lookup_in; [apply drag_point_idem | done].
  - by apply forEach_lookup_notin.
Qed.

(** An insignificant commit, in any dragging state: null is returned, the
    mode is left, and the positions are reverted. *)
Lemma endDragging_insignificant cfg position st start :
  mode (interactionState st) = DRAGGING →
  dragStart (interactionState st) = Some start →
  isSignificant cfg (x position - x start) (y position - y start) = false →
  endDragging cfg position st =
    (None,
     revertDraggedPositions
       (update_interactionState (λ state,
          {| mode := NONE; dragStart := None; dragEnd := None;
             panStart := panStart state;
             selectedPoints := selectedPoints state;
             originalPositions := originalPositions state |}) st)).
Proof.
  intros Hm Hs Hsig. unfold endDragging. by rewrite Hm, Hs, Hsig.
Qed.

Lemma startDragging_dragging_from st0 d start :
  diagramData st0 = Some d → dragging_from st0 d start (startDragging start st0).
Proof.
  intros Hd. unfold startDragging. rewrite Hd.
  repeat split; by left.
Qed.

Lemma updateDragging_dragging_from st0 d start position st :
  diagramData st0 = Some d →
  dragging_from st0 d start st → dragging_from st0 d start (updateDragging position st).
Proof.
  intros Hd0 (Hsame & Hm & Hs & Hp & Hsel & Ho & Hheap).
  assert (diagramData st = Some d) as Hd.
  { destruct Hsame as (_ & _ & -> & _). done. }
  split; [|split; [|split; [|split; [|split; [|split]]]]].
  - unfold updateDragging. rewrite Hd, Hm, Hs. exact Hsame.
  - unfold updateDragging. by rewrite Hd, Hm, Hs.
  - unfold updateDragging. by rewrite Hd, Hm, Hs.
  - unfold updateDragging. by rewrite Hd, Hm, Hs.
  - unfold updateDragging. by rewrite Hd, Hm, Hs.
  - unfold updateDragging. by rewrite Hd, Hm, Hs.
  - intros r. rewrite (updateDragging_lookup _ _ _ _ _ Hd Hm Hs).
    case_bool_decide as Hin; [|apply Hheap].
    destruct (Hheap r) as [Heq|(pt & a & b & _ & Hpt & Hptsel & Hcur)].
    + rewrite Heq. destruct (pointHeap st0 !! r) as [pt|] eqn:Hpt; [|by left].
      simpl. unfold drag_point.
      destruct (JSSet.has _ (iri pt)) eqn:Hhas; [|by left].
      destruct (originalPositions (interactionState st) !! iri pt); [|by left].
      right. eexists pt, _, _. repeat split; try done.
      rewrite <- Hsel. by apply JSSet_has_true.
    + rewrite Hcur. right. simpl. unfold drag_point. simpl.
      destruct (JSSet.has _ (iri pt)); [|by eauto 10].
      destruct (originalPositions (interactionState st) !! iri pt); by eauto 10.
Qed.

Lemma drag_gesture_dragging_from st0 d start moves :
  diagramData st0 = Some d → dragging_from st0 d start (drag_gesture start moves st0).
Proof.
  intros Hd. unfold drag_gesture.
  induction moves as [|position moves IH] using rev_ind; simpl.
  - by apply startDragging_dragging_from.
  - rewrite foldl_app. simpl. by apply updateDragging_dragging_from.
Qed.

(** Reverting a drag in progress restores the point heap of its start. *)
Lemma revert_dragging_from st0 d start st st' :
  distinct_iris (pointHeap st0) (points d) →
  dragging_from st0 d start st →
  diagramData st' = Some d →
  pointHeap st' = pointHeap st →
  selectedPoints (interactionState st') = selectedPoints (interactionState st) →
  originalPositions (interactionState st') = originalPositions (interactionState st) →
  pointHeap (revertDraggedPositions st') = pointHeap st0.
Proof.
  intros Hdist (Hsame & Hm & Hs & Hp & Hsel & Ho & Hheap) Hd' Hh' Hsel' Ho'.
  apply map_eq. intros r. rewrite (revertDraggedPositions_lookup _ _ _ Hd'), Hh'.
  case_bool_decide as Hin.
  - unfold revert_point. rewrite Hsel', Ho', Hsel, Ho.
    destruct (Hheap r) as [Heq|(pt & a & b & _ & Hpt & Hptsel & Hcur)].
    + rewrite Heq. destruct (pointHeap st0 !! r) as [pt|] eqn:Hpt; [|done]. simpl.
      destruct (JSSet.has _ (iri pt)) eqn:Hhas; [|done].
      apply JSSet_has_true in Hhas.
      rewrite (snapshot_lookup_own _ _ _ _ _ Hdist Hin Hpt Hhas). simpl.
      by rewrite set_xy_same.
    + rewrite Hcur, Hpt. simpl.
      assert (JSSet.has (selectedPoints (interactionState st0)) (iri pt) = true) as ->
        by by apply JSSet_has_true.
      rewrite (snapshot_lookup_own _ _ _ _ _ Hdist Hin Hpt Hptsel). simpl.
      by rewrite set_xy_set_xy, set_xy_same.
  - destruct (Hheap r) as [Heq|(pt & a & b & Hin' & _)]; done.
Qed.

(** C1: committing a drag by [endDragging] at a position with
    [|dx| <= dragThreshold] and [|dy| <= dragThreshold], where
    [(dx, dy) = position - dragStart], is insignificant: [endDragging] returns
    null, no position-update event is emitted and no remote call is issued,
    the mode is NONE with [dragStart] and [dragEnd] cleared, every selected
    point of the diagram is put back at its snapshot and no other point is
    touched; when the state is the one a drag gesture (begun on a diagram
    whose points bear distinct identifiers, with any pointer moves) has
    reached, all points are as they were before the drag. *)
Theorem insignificant_drag_is_reverted cfg st start position :
  mode (interactionState st) = DRAGGING →
  dragStart (interactionState st) = Some start →
  (Math_abs (x position - x start) <=? dragThreshold cfg)%float = true →
  (Math_abs (y position - y start) <=? dragThreshold cfg)%float = true →
  let result := (endDragging cfg position st).1 in
  let st' := (endDragging cfg position st).2 in
  result = None ∧
  positionUpdateEvent st' = positionUpdateEvent st ∧
  remoteCalls st' = remoteCalls st ∧
  mode (interactionState st') = NONE ∧
  dragStart (interactionState st') = None ∧
  dragEnd (interactionState st') = None ∧
  selectedPoints (interactionState st') = selectedPoints (interactionState st) ∧
  (∀ d r pt original, diagramData st = Some d → r ∈ points d →
     pointHeap st !! r = Some pt →
     iri pt ∈ selectedPoints (interactionState st) →
     originalPositions (interactionState st) !! iri pt = Some original →
     pointHeap st' !! r = Some (set_xy (x original) (y original) pt)) ∧
  (∀ r pt, pointHeap st !! r = Some pt →
     iri pt ∉ selectedPoints (interactionState st)
       ∨ originalPositions (interactionState st) !! iri pt = None →
     pointHeap st' !! r = Some pt) ∧
  (∀ st0 d moves, st = drag_gesture start moves st0 →
     diagramData st0 = Some d →
     distinct_iris (pointHeap st0) (points d) →
     pointHeap st' = pointHeap st0).
Proof.
  intros Hm Hs Hx Hy result st'.
  pose proof (endDragging_insignificant cfg position st start Hm Hs
                (isSignificant_false _ _ _ Hx Hy)) as Hend.
  subst result st'. rewrite Hend. simpl.
  set (ended := update_interactionState (λ state,
                  {| mode := NONE; dragStart := None; dragEnd := None;
                     panStart := panStart state;
                     selectedPoints := selectedPoints state;
                     originalPositions := originalPositions state |}) st).
  assert (positionUpdateEvent (revertDraggedPositions ended) = positionUpdateEvent st ∧
          remoteCalls (revertDraggedPositions ended) = remoteCalls st ∧
          interactionState (revertDraggedPositions ended) = interactionState ended)
    as (Hev & Hrc & Hint).
  { unfold revertDraggedPositions. by destruct (diagramData ended). }
  rewrite Hev, Hrc, Hint. simpl.
  do 7 (split; [done|]). split; [|split].
  - intros d r pt original Hd Hr Hpt Hsel Horig.
    rewrite (revertDraggedPositions_lookup ended d r) by done.
    rewrite bool_decide_eq_true_2 by done. simpl. rewrite Hpt. simpl.
    unfold revert_point. simpl. apply JSSet_has_true in Hsel.
    by rewrite Hsel, Horig.
  - intros r pt Hpt Hcases.
    destruct (diagramData st) as [d|] eqn:Hd.
    + rewrite (revertDraggedPositions_lookup ended d r) by done. simpl.
      case_bool_decide; [|done]. rewrite Hpt. simpl. unfold revert_point. simpl.
      destruct Hcases as [Hsel|Horig].
      * apply JSSet_has_false in Hsel. by rewrite Hsel.
      * rewrite Horig. by destruct (JSSet.has _ _).
    + unfold revertDraggedPositions. simpl. by rewrite Hd.
  - intros st0 d moves -> Hd Hdist.
    pose proof (drag_gesture_dragging_from st0 d start moves Hd) as Hinv.
    eapply revert_dragging_from; eauto.
    destruct Hinv as ((_ & _ & Hdd & _) & _). simpl. by rewrite Hdd.
Qed.

Lemma insignificant_drag_is_reverted_witness :
  let st0 := Example.line_selected in
  let st := drag_gesture {| x := 0; y := 0 |}
              [{| x := 40; y := 30 |}; {| x := 3; y := -2 |}] st0 in
  mode (interactionState st) = DRAGGING ∧
  pointHeap st !! 2%positive = Some (Example.P "P1" 13 (-2) 1 1%positive []) ∧
  (Math_abs (3 - 0) <=? dragThreshold Example.config)%float = true ∧
  (endDragging Example.config {| x := 3; y := -2 |} st).1 = None ∧
  pointHeap (endDragging Example.config {| x := 3; y := -2 |} st).2 = pointHeap st0.
Proof.
  intros st0 st.
  split; [reflexivity|].
  split; [vm_compute; reflexivity|]. split; [vm_compute; reflexivity|].
  destruct (insignificant_drag_is_reverted Example.config st
              {| x := 0; y := 0 |} {| x := 3; y := -2 |})
    as (Hres & _ & _ & _ & _ & _ & _ & _ & _ & Hheap).
  - reflexivity.
  - reflexivity.
  - vm_compute. reflexivity.
  - vm_compute. reflexivity.
  - split; [exact Hres|].
    apply (Hheap st0 {| objects := [1%positive]; points := [1; 2; 3]%positive |}
             [{| x := 40; y := 30 |}; {| x := 3; y := -2 |}]).
    + reflexivity.
    + reflexivity.
    + unfold distinct_iris. apply (bool_decide_unpack _). vm_compute. reflexivity.
Defined.

Lemma drag_calls_outside_drag_are_noops_witness :
  mode (interactionState Example.line_selected) ≠ DRAGGING ∧
  updateDragging {| x := 7; y := 7 |} Example.line_selected = Example.line_selected ∧
  endDragging Example.config {| x := 7; y := 7 |} Example.line_selected
    = (None, Example.line_selected).
Proof.
  assert (mode (interactionState Example.line_selected) ≠ DRAGGING) as H by done.
  split; [exact H|].
  apply (drag_calls_outside_drag_are_noops Example.config {| x := 7; y := 7 |}
           Example.line_selected).
  left. exact H.
Defined.

(** C2 (as amended): in a dragging state on a loaded diagram, [updateDragging]
    at [position] sets [dragEnd] to [position], puts every point of the
    diagram whose identifier is selected and has a snapshot at that snapshot
    plus [position - dragStart], and leaves every other point as it is,
    glued to a selected point or not. *)
Theorem updateDragging_moves_selected_points_only position st d start :
  diagramData st = Some d →
  mode (interactionState st) = DRAGGING →
  dragStart (interactionState st) = Some start →
  let dx := (x position - x start)%float in
  let dy := (y position - y start)%float in
  let st' := updateDragging position st in
  dragEnd (interactionState st') = Some position ∧
  mode (interactionState st') = DRAGGING ∧
  dragStart (interactionState st') = Some start ∧
  selectedPoints (interactionState st') = selectedPoints (interactionState st) ∧
  originalPositions (interactionState st') = originalPositions (interactionState st) ∧
  (∀ r pt original, r ∈ points d → pointHeap st !! r = Some pt →
     iri pt ∈ selectedPoints (interactionState st) →
     originalPositions (interactionState st) !! iri pt = Some original →
     pointHeap st' !! r = Some (set_xy (x original + dx) (y original + dy) pt)) ∧
  (∀ r pt, pointHeap st !! r = Some pt →
     r ∉ points d ∨ iri pt ∉ selectedPoints (interactionState st)
       ∨ originalPositions (interactionState st) !! iri pt = None →
     pointHeap st' !! r = Some pt).
Proof.
  intros Hd Hm Hs dx dy st'.
  assert (∀ r, pointHeap st' !! r =
    if bool_decide (r ∈ points d)
    then drag_point (interactionState st) dx dy <$> pointHeap st !! r
    else pointHeap st !! r) as Hlookup.
  { intros r. by apply updateDragging_lookup. }
  subst st'. unfold updateDragging in *. rewrite Hd, Hm, Hs in *. simpl.
  do 5 (split; [done|]). split.
  - intros r pt original Hr Hpt Hsel Ho. rewrite Hlookup, bool_decide_eq_true_2 by done.
    rewrite Hpt. simpl. unfold drag_point.
    apply JSSet_has_true in Hsel. by rewrite Hsel, Ho.
  - intros r pt Hpt Hcases. rewrite Hlookup. case_bool_decide as Hin; [|done].
    rewrite Hpt. simpl. unfold drag_point.
    destruct Hcases as [?|[Hsel|Ho]]; [done| |].
    + apply JSSet_has_false in Hsel. by rewrite Hsel.
    + rewrite Ho. by destruct (JSSet.has _ _).
Qed.

Lemma updateDragging_moves_selected_points_only_witness :
  let st := startDragging {| x := 0; y := 0 |} Example.glued in
  let st' := updateDragging {| x := 3; y := 4 |} st in
  mode (interactionState st) = DRAGGING ∧
  dragEnd (interactionState st') = Some {| x := 3; y := 4 |} ∧
  pointHeap st' !! 2%positive = Some (Example.P "A" 3 4 1 1%positive ["B"]) ∧
  pointHeap st' !! 3%positive = Some (Example.P "B" 5 5 0 2%positive ["A"]).
Proof.
  intros st st'.
  destruct (updateDragging_moves_selected_points_only {| x := 3; y := 4 |} st
              {| objects := [1; 2]%positive; points := [1; 2; 3; 4]%positive |}
              {| x := 0; y := 0 |})
    as (Hend & _ & _ & _ & _ & Hsel & Hother); [reflexivity..|].
  split; [reflexivity|]. split; [exact Hend|]. split.
  - apply (Hsel 2%positive (Example.P "A" 0 0 1 1%positive ["B"]) {| x := 0; y := 0 |}).
    + apply (bool_decide_unpack _). vm_compute. reflexivity.
    + vm_compute. reflexivity.
    + apply (bool_decide_unpack _). vm_compute. reflexivity.
    + vm_compute. reflexivity.
  - apply (Hother 3%positive). { vm_compute. reflexivity. }
    right; left. apply (bool_decide_unpack _). vm_compute. reflexivity.
Defined.

Lemma float_ltb_neq (a b : float) : (a <? b)%float = true → a ≠ b.
Proof.
  intros H ->. rewrite ltb_spec in H. unfold SFltb in H.
  pose proof (SFcompare_antisym (Prim2SF b) (Prim2SF b)) as Ha.
  destruct (SFcompare (Prim2SF b) (Prim2SF b)) as [[]|]; simpl in *; congruence.
Qed.

(** C2 (as stated) fails: [B] is glued to the selected point [A] and is not
    selected; a drag update by [(3,4)] leaves [B] at [(5,5)], so it is not the
    case that every point glued to a selected point receives the delta. *)
Lemma updateDragging_does_not_move_glued_point :
  let st := startDragging {| x := 0; y := 0 |} Example.glued in
  let st' := updateDragging {| x := 3; y := 4 |} st in
  ¬ (∀ r pt, pointHeap st !! r = Some pt →
       (∃ rq q, pointHeap st !! rq = Some q ∧
                iri q ∈ selectedPoints (interactionState st) ∧
                iri pt ∈ gluedTo q) →
       pointHeap st' !! r
         = Some (set_xy (point_x pt + (3 - 0)) (point_y pt + (4 - 0)) pt)).
Proof.
  intros st st' H.
  assert (pointHeap st' !! 3%positive = Some (Example.P "B" 5 5 0 2%positive ["A"])) as Hb
    by (vm_compute; reflexivity).
  assert (pointHeap st' !! 3%positive
          = Some (set_xy (5 + (3 - 0)) (5 + (4 - 0)) (Example.P "B" 5 5 0 2%positive ["A"])))
    as Heq.
  { apply (H 3%positive (Example.P "B" 5 5 0 2%positive ["A"])); [vm_compute; reflexivity|].
    exists 2%positive, (Example.P "A" 0 0 1 1%positive ["B"]).
    split; [vm_compute; reflexivity|].
    split; apply (bool_decide_unpack _); vm_compute; reflexivity. }
  pose proof (eq_trans (eq_sym Hb) Heq) as Hne. clear Hb Heq H.
  apply (f_equal (λ o, from_option point_x 0%float o)) in Hne. simpl in Hne.
  by apply float_ltb_neq in Hne.
Qed.

(** ** The snapshot map over the life of the session *)

Lemma loadDiagramLayout_interactionState cfg query outcome diagramIri st :
  diagramIri ≠ "" →
  interactionState (loadDiagramLayout cfg query outcome diagramIri st).1
    = interactionState (clearSelection st).
Proof.
  intros Hne. unfold loadDiagramLayout.
  rewrite bool_decide_eq_false_2 by done. by destruct outcome.
Qed.

Lemma loadDiagramLayout_originalPositions cfg query outcome diagramIri st :
  originalPositions (interactionState (loadDiagramLayout cfg query outcome diagramIri st).1)
    = originalPositions (interactionState st).
Proof.
  destruct (decide (diagramIri = "")) as [->|Hne].
  - done.
  - by rewrite loadDiagramLayout_interactionState.
Qed.

Lemma step_originalPositions cfg query e st :
  is_StartDragging e = false →
  originalPositions (interactionState (step cfg query e st))
    = originalPositions (interactionState st).
Proof.
  intros He. destruct e; try discriminate He; simpl; try done.
  - unfold updateDragging.
    destruct (diagramData st), (mode (interactionState st)); try done.
    by destruct (dragStart (interactionState st)).
  - unfold endDragging.
    destruct (mode (interactionState st)); try done.
    destruct (dragStart (interactionState st)); [|done].
    destruct (negb _); [|done]. simpl.
    unfold revertDraggedPositions. simpl. by destruct (diagramData st).
  - unfold revertDraggedPositions. by destruct (diagramData st).
  - unfold completeSelecting.
    destruct (diagramData st), (mode (interactionState st)); try done.
    destruct (dragStart (interactionState st)); [|done].
    destruct (dragEnd (interactionState st)); [|done].
    by destruct (too_small _ _ _ _).
  - unfold updatePanning.
    destruct (mode (interactionState st)); try done.
    by destruct (panStart (interactionState st)).
  - unfold addNewPointToLine, addNewPointToLine_begin.
    destruct (objectHeap st !! object) as [obj|] eqn:Ho; [|done].
    destruct (diagramData st) as [d|] eqn:Hd; [|done].
    destruct outcome; simpl; [done|].
    unfold addNewPointToLine_revert. simpl. by rewrite lookup_insert_eq.
  - unfold deletePointFromLine, deletePointFromLine_begin.
    destruct (pointHeap st !! point) as [pt|]; [|done].
    destruct (diagramData st) as [d|]; [|done].
    destruct (parentObject pt ≫= _) as [[object obj]|]; [|done].
    destruct (_ || _); [done|].
    destruct outcome; simpl.
    + by destruct (JSSet.has _ _).
    + case_bool_decide; [done|].
      match goal with
      | |- context [loadDiagramLayout cfg query reload ?i ?s] =>
          pose proof (loadDiagramLayout_originalPositions cfg query reload i s) as Hl;
          destruct (loadDiagramLayout cfg query reload i s) as [s' err]
      end.
      simpl in *. by rewrite Hl.
  - apply loadDiagramLayout_originalPositions.
Qed.

(** C9 (as amended): right after [startDragging] on a loaded diagram the
    mode is DRAGGING and the keys of the snapshot map are exactly the selected
    identifiers that name a point of the diagram; no other operation writes
    the map, so it is kept (not cleared) when the drag ends and in the states
    that follow, until the next [startDragging] replaces it. *)
Theorem snapshot_keys_at_drag_start_and_kept_afterwards cfg query position st d :
  diagramData st = Some d →
  let st1 := startDragging position st in
  mode (interactionState st1) = DRAGGING ∧
  (∀ k, is_Some (originalPositions (interactionState st1) !! k) ↔
        k ∈ selectedPoints (interactionState st) ∧
        ∃ r pt, r ∈ points d ∧ pointHeap st !! r = Some pt ∧ iri pt = k) ∧
  (∀ e st2, is_StartDragging e = false →
     originalPositions (interactionState (step cfg query e st2))
       = originalPositions (interactionState st2)).
Proof.
  intros Hd st1. subst st1. unfold startDragging. rewrite Hd. simpl.
  split; [done|]. split.
  - intros k. apply snapshot_is_Some.
  - intros e st2. apply step_originalPositions.
Qed.

Lemma snapshot_keys_at_drag_start_and_kept_afterwards_witness :
  let st1 := startDragging {| x := 0; y := 0 |} Example.line_selected in
  diagramData Example.line_selected
    = Some {| objects := [1%positive]; points := [1; 2; 3]%positive |} ∧
  (is_Some (originalPositions (interactionState st1) !! "P1") ↔
   "P1" ∈ selectedPoints (interactionState Example.line_selected) ∧
   ∃ r pt, r ∈ [1; 2; 3]%positive ∧
           pointHeap Example.line_selected !! r = Some pt ∧ iri pt = "P1") ∧
  originalPositions (interactionState
     (step Example.config Example.query (EndDragging {| x := 1; y := 1 |}) st1))
    = originalPositions (interactionState st1).
Proof.
  intros st1.
  destruct (snapshot_keys_at_drag_start_and_kept_afterwards Example.config Example.query
              {| x := 0; y := 0 |} Example.line_selected
              {| objects := [1%positive]; points := [1; 2; 3]%positive |} eq_refl)
    as (_ & Hkeys & Hkept).
  split; [reflexivity|]. split; [apply (Hkeys "P1")|].
  apply (Hkept (EndDragging {| x := 1; y := 1 |}) st1). reflexivity.
Defined.

(** C9 (as stated) fails: after a drag of the selected point [P1] has been
    committed the mode is NONE, and the snapshot map still holds the entry of
    [P1]. *)
Lemma snapshot_not_cleared_by_endDragging :
  let st := (endDragging Example.config {| x := 1; y := 1 |}
               (startDragging {| x := 0; y := 0 |} Example.line_selected)).2 in
  mode (interactionState st) = NONE ∧
  originalPositions (interactionState st) !! "P1" = Some {| x := 10; y := 0 |} ∧
  originalPositions (interactionState st) ≠ ∅.
Proof.
  intros st.
  assert (originalPositions (interactionState st) !! "P1" = Some {| x := 10; y := 0 |}) as H
    by (vm_compute; reflexivity).
  split; [vm_compute; reflexivity|]. split; [exact H|].
  intros Hempty. rewrite Hempty, lookup_empty in H. discriminate H.
Qed.

(** ** Reload and version change *)

(** C8 (as amended): after a layout load of a selected diagram, whatever its
    outcome, and after a CGMES version change the selection is empty; the
    mode, [dragStart], [dragEnd], [panStart] and the snapshot map are what
    they were. *)
Theorem reload_and_version_change_clear_the_selection_only
    cfg query outcome diagramIri version st :
  diagramIri ≠ "" →
  let loaded := interactionState (loadDiagramLayout cfg query outcome diagramIri st).1 in
  let changed := interactionState (setCGMESVersion version st) in
  loaded = changed ∧
  selectedPoints changed = [] ∧
  mode changed = mode (interactionState st) ∧
  dragStart changed = dragStart (interactionState st) ∧
  dragEnd changed = dragEnd (interactionState st) ∧
  panStart changed = panStart (interactionState st) ∧
  originalPositions changed = originalPositions (interactionState st).
Proof.
  intros Hne loaded changed. subst loaded changed.
  by rewrite loadDiagramLayout_interactionState.
Qed.

Lemma reload_and_version_change_clear_the_selection_only_witness :
  let st := startDragging {| x := 0; y := 0 |} Example.line_selected in
  selectedPoints (interactionState st) = ["P1"] ∧
  selectedPoints (interactionState
    (loadDiagramLayout Example.config Example.query (QueryFailed "timeout")
       "http://example.org/diagram" st).1) = [] ∧
  selectedPoints (interactionState (setCGMESVersion V2_4_15 st)) = [].
Proof.
  intros st.
  destruct (reload_and_version_change_clear_the_selection_only Example.config Example.query
              (QueryFailed "timeout") "http://example.org/diagram" V2_4_15 st)
    as (Hl & Hs & _); [done|].
  split; [reflexivity|]. split; [|exact Hs].
  rewrite Hl. exact Hs.
Defined.

(** C8 (as stated) fails: a version change and a layout load in the middle of
    a drag both leave the mode at DRAGGING, with [dragStart] still set. *)
Lemma mode_not_reset_by_reload_or_version_change :
  let st := startDragging {| x := 0; y := 0 |} Example.line_selected in
  let changed := setCGMESVersion V2_4_15 st in
  let loaded :=
    (loadDiagramLayout Example.config Example.query
       (QueryOk {| loaded_diagram := {| objects := []; points := [] |};
                   loaded_points := ∅; loaded_objects := ∅ |})
       "http://example.org/diagram" st).1 in
  mode (interactionState changed) ≠ NONE ∧
  mode (interactionState loaded) ≠ NONE ∧
  dragStart (interactionState loaded) = Some {| x := 0; y := 0 |}.
Proof. repeat split; vm_compute; congruence. Qed.

(** ** Rectangle selection *)

Lemma JSSet_elem_of_add k k' s : k ∈ JSSet.add k' s ↔ k = k' ∨ k ∈ s.
Proof.
  unfold JSSet.add. destruct (JSSet.has s k') eqn:Hhas.
  - apply JSSet_has_true in Hhas. split; [by right|]. intros [->|]; done.
  - rewrite elem_of_app, list_elem_of_singleton. tauto.
Qed.

Lemma in_rectangle_true startX startY endX endY pt :
  in_rectangle startX startY endX endY pt = true ↔
  (startX <=? point_x pt)%float = true ∧ (point_x pt <=? endX)%float = true ∧
  (startY <=? point_y pt)%float = true ∧ (point_y pt <=? endY)%float = true.
Proof.
  unfold in_rectangle, geb. rewrite !andb_true_iff. tauto.
Qed.

Lemma select_in_rectangle_snoc h startX startY endX endY sel rs r :
  select_in_rectangle h startX startY endX endY sel (rs ++ [r]) =
    let s := select_in_rectangle h startX startY endX endY sel rs in
    match h !! r with
    | Some point =>
        if in_rectangle startX startY endX endY point then JSSet.add (iri point) s else s
    | None => s
    end.
Proof. unfold select_in_rectangle. by rewrite foldl_app. Qed.

(** The selection after the rectangle has been applied: what was selected,
    and the identifiers of the points of the array inside the rectangle. *)
Lemma elem_of_select_in_rectangle h startX startY endX endY sel rs k :
  k ∈ select_in_rectangle h startX startY endX endY sel rs ↔
  k ∈ sel ∨ ∃ r pt, r ∈ rs ∧ h !! r = Some pt ∧ iri pt = k ∧
                    in_rectangle startX startY endX endY pt = true.
Proof.
  induction rs as [|r rs IH] using rev_ind.
  - simpl. split; [by left|]. intros [?|(r & pt & Hr & _)]; [done|set_solver].
  - rewrite select_in_rectangle_snoc. simpl.
    assert ((∃ r0 pt, r0 ∈ rs ++ [r] ∧ h !! r0 = Some pt ∧ iri pt = k ∧
                      in_rectangle startX startY endX endY pt = true) ↔
            (∃ r0 pt, r0 ∈ rs ∧ h !! r0 = Some pt ∧ iri pt = k ∧
                      in_rectangle startX startY endX endY pt = true) ∨
            (∃ pt, h !! r = Some pt ∧ iri pt = k ∧
                   in_rectangle startX startY endX endY pt = true)) as Hsplit.
    { split.
      - intros (r0 & pt & Hin & Hrest).
        apply elem_of_app in Hin as [Hin|Hin]; [left; by eauto|].
        apply list_elem_of_singleton in Hin as ->. right. by eauto.
      - intros [(r0 & pt & Hin & Hrest)|(pt & Hrest)].
        + exists r0, pt. split; [set_solver|done].
        + exists r, pt. split; [set_solver|done]. }
    rewrite Hsplit. clear Hsplit.
    destruct (h !! r) as [point|] eqn:Hpoint.
    + destruct (in_rectangle startX startY endX endY point) eqn:Hrect.
      * rewrite JSSet_elem_of_add, IH. split.
        -- intros [->|[?|?]]; [|tauto..]. right; right. by eauto.
        -- intros [?|[?|(pt & [= <-] & <- & _)]]; tauto.
      * rewrite IH. split; [tauto|].
        intros [?|[?|(pt & [= <-] & _ & ?)]]; [tauto..|congruence].
    + rewrite IH. split; [tauto|].
      intros [?|[?|(pt & ? & _)]]; [tauto..|congruence].
Qed.

(** C5: committing a rectangle selection (mode SELECTING, [dragStart] and
    [dragEnd] set, a diagram loaded) ends the gesture; if the rectangle spanned
    by [dragStart] and [dragEnd] has width [<= 3] or height [<= 3] the
    selection is unchanged; otherwise the selection afterwards consists of what
    was selected before and of every point of the diagram with
    [minX <= x <= maxX] and [minY <= y <= maxY]. *)
Theorem completeSelecting_adds_points_of_rectangle st d dstart dend :
  diagramData st = Some d →
  mode (interactionState st) = SELECTING →
  dragStart (interactionState st) = Some dstart →
  dragEnd (interactionState st) = Some dend →
  let minX := Math_min (x dstart) (x dend) in
  let minY := Math_min (y dstart) (y dend) in
  let maxX := Math_max (x dstart) (x dend) in
  let maxY := Math_max (y dstart) (y dend) in
  let width := Math_abs (maxX - minX) in
  let height := Math_abs (maxY - minY) in
  let st' := completeSelecting st in
  mode (interactionState st') = NONE ∧
  dragStart (interactionState st') = None ∧
  dragEnd (interactionState st') = None ∧
  pointHeap st' = pointHeap st ∧
  ((width <=? 3)%float = true ∨ (height <=? 3)%float = true →
   selectedPoints (interactionState st') = selectedPoints (interactionState st)) ∧
  ((width <=? 3)%float = false ∧ (height <=? 3)%float = false →
   ∀ k, k ∈ selectedPoints (interactionState st') ↔
        k ∈ selectedPoints (interactionState st) ∨
        ∃ r pt, r ∈ points d ∧ pointHeap st !! r = Some pt ∧ iri pt = k ∧
                (minX <=? point_x pt)%float = true ∧ (point_x pt <=? maxX)%float = true ∧
                (minY <=? point_y pt)%float = true ∧ (point_y pt <=? maxY)%float = true).
Proof.
  intros Hd Hm Hs He minX minY maxX maxY width height st'.
  subst st'. unfold completeSelecting. rewrite Hd, Hm, Hs, He.
  fold minX minY maxX maxY. unfold too_small. fold width height.
  destruct (width <=? 3)%float eqn:Hw; simpl.
  { do 4 (split; [done|]). split; [done|]. by intros [? _]. }
  destruct (height <=? 3)%float eqn:Hh; simpl.
  { do 4 (split; [done|]). split; [done|]. by intros [_ ?]. }
  do 4 (split; [done|]). split; [by intros [?|?]|].
  intros _ k. rewrite elem_of_select_in_rectangle.
  by setoid_rewrite in_rectangle_true.
Qed.

Lemma completeSelecting_adds_points_of_rectangle_witness :
  let st := updateSelecting {| x := 10; y := 4 |}
              (startSelecting {| x := 8; y := -4 |} Example.line_selected) in
  let st2 := updateSelecting {| x := -1; y := -4 |}
               (startSelecting {| x := 12; y := 4 |} Example.line_selected) in
  mode (interactionState st) = SELECTING ∧
  selectedPoints (interactionState (completeSelecting st))
    = selectedPoints (interactionState st) ∧
  mode (interactionState st2) = SELECTING ∧
  "P0" ∈ selectedPoints (interactionState (completeSelecting st2)) ∧
  "P1" ∈ selectedPoints (interactionState (completeSelecting st2)).
Proof.
  intros st st2. split; [reflexivity|]. split; [|split; [reflexivity|]].
  - destruct (completeSelecting_adds_points_of_rectangle st
                {| objects := [1%positive]; points := [1; 2; 3]%positive |}
                {| x := 8; y := -4 |} {| x := 10; y := 4 |})
      as (_ & _ & _ & _ & Hsmall & _); [reflexivity..|].
    apply Hsmall. left. vm_compute. reflexivity.
  - destruct (completeSelecting_adds_points_of_rectangle st2
                {| objects := [1%positive]; points := [1; 2; 3]%positive |}
                {| x := 12; y := 4 |} {| x := -1; y := -4 |})
      as (_ & _ & _ & _ & _ & Hadd); [reflexivity..|].
    split; apply Hadd; try (split; vm_compute; reflexivity).
    + right. exists 1%positive, (Example.P "P0" 0 0 0 1%positive []).
      split; [apply (bool_decide_unpack _); vm_compute; reflexivity|].
      repeat split; vm_compute; reflexivity.
    + left. apply (bool_decide_unpack _). vm_compute. reflexivity.
Defined.

(** ** Zoom *)

(** C6 (as amended): [zoom] at cursor [center] with wheel delta [delta]
    multiplies the scale by [factor], which is the configured zoom factor when
    [delta < 0] and its reciprocal otherwise, and sets each offset to
    [c - (c - offset) * factor]; it touches nothing else.  The arithmetic is
    the binary64 one: in the example (scale 1, offset (0,0), zoom factor 1.1,
    negative delta, cursor (100,100)) the new scale is the double 1.1 and both
    new offsets are [-(10 + 2^-46)], that is -10.000000000000014, which is
    (-10) up to one rounding of [100 * 1.1]. *)
Theorem zoom_scales_about_the_cursor cfg center delta st :
  let factor :=
    if (delta <? 0)%float then canvas_zoomFactor cfg
    else (1 / canvas_zoomFactor cfg)%float in
  let t := viewTransform st in
  let st' := zoom cfg center delta st in
  viewTransform st' =
    {| scale := (scale t * factor)%float;
       offsetX := (x center - (x center - offsetX t) * factor)%float;
       offsetY := (y center - (y center - offsetY t) * factor)%float |} ∧
  interactionState st' = interactionState st ∧
  pointHeap st' = pointHeap st ∧
  diagramData st' = diagramData st ∧
  (canvas_zoomFactor cfg = 0x1.199999999999ap+0%float →
   t = {| scale := 1; offsetX := 0; offsetY := 0 |} →
   center = {| x := 100; y := 100 |} →
   (delta <? 0)%float = true →
   viewTransform st' =
     {| scale := 0x1.199999999999ap+0;
        offsetX := -0x1.4000000000008p+3;
        offsetY := -0x1.4000000000008p+3 |}).
Proof.
  intros factor t st'. subst factor t st'. unfold zoom. simpl.
  do 4 (split; [done|]).
  intros -> -> -> ->. simpl. vm_compute. reflexivity.
Qed.

Lemma zoom_scales_about_the_cursor_witness :
  canvas_zoomFactor Example.config = 0x1.199999999999ap+0%float ∧
  ((-120) <? 0)%float = true ∧
  viewTransform (zoom Example.config {| x := 100; y := 100 |} (-120) Example.unit_view) =
    {| scale := 0x1.199999999999ap+0;
       offsetX := -0x1.4000000000008p+3;
       offsetY := -0x1.4000000000008p+3 |}.
Proof.
  split; [reflexivity|]. split; [reflexivity|].
  destruct (zoom_scales_about_the_cursor Example.config {| x := 100; y := 100 |}
              (-120) Example.unit_view) as (_ & _ & _ & _ & Hex).
  apply Hex; reflexivity.
Defined.

(** C6 (as stated) fails in its example: with scale 1, offset (0,0), zoom
    factor 1.1 and a negative delta at cursor (100,100) the new offset is below
    [-10], because [100 * 1.1] rounds to 110.00000000000001. *)
Lemma zoom_example_offset_is_not_minus_ten :
  let t' := viewTransform
              (zoom Example.config {| x := 100; y := 100 |} (-120) Example.unit_view) in
  (100 * canvas_zoomFactor Example.config)%float = 0x1.b800000000001p+6%float ∧
  offsetX t' ≠ (-10)%float ∧ offsetY t' ≠ (-10)%float.
Proof.
  intros t'. split; [vm_compute; reflexivity|].
  split; apply float_ltb_neq; vm_compute; reflexivity.
Qed.

(** ** Arrays *)

Section arrays.
Context {A : Type}.
Implicit Types (l : list A) (a : A).

Lemma splice_start_in_range len start :
  (0 ≤ start ≤ Z.of_nat len)%Z → splice_start len start = Z.to_nat start.
Proof. intros H. unfold splice_start. destruct (start <? 0)%Z eqn:Hlt; lia. Qed.

Lemma splice_insert_in_range start a l :
  (0 ≤ start ≤ Z.of_nat (length l))%Z →
  splice_insert start a l = take (Z.to_nat start) l ++ a :: drop (Z.to_nat start) l.
Proof. intros H. unfold splice_insert. by rewrite splice_start_in_range. Qed.

Lemma splice_insert_Permutation start a l : splice_insert start a l ≡ₚ a :: l.
Proof.
  unfold splice_insert. rewrite <- Permutation_middle.
  by rewrite take_drop.
Qed.

Lemma length_splice_insert start a l : length (splice_insert start a l) = S (length l).
Proof. by rewrite splice_insert_Permutation. Qed.

Lemma elem_of_splice_insert start a l b : b ∈ splice_insert start a l ↔ b = a ∨ b ∈ l.
Proof. rewrite splice_insert_Permutation. apply elem_of_cons. Qed.

Lemma NoDup_splice_insert start a l : a ∉ l → NoDup l → NoDup (splice_insert start a l).
Proof. intros Ha Hl. rewrite splice_insert_Permutation. by constructor. Qed.

Lemma splice_delete_in_range start l :
  (0 ≤ start < Z.of_nat (length l))%Z →
  splice_delete start l = delete (Z.to_nat start) l.
Proof.
  intros H. unfold splice_delete.
  rewrite splice_start_in_range by lia. symmetry. apply delete_take_drop.
Qed.

Lemma splice_delete_sublist start l : splice_delete start l `sublist_of` l.
Proof.
  unfold splice_delete. set (k := splice_start (length l) start).
  rewrite <- (take_drop k l) at 3.
  apply sublist_app; [done|].
  replace (S k) with (k + 1) by lia. rewrite <- drop_drop. apply sublist_drop.
Qed.

Lemma findIndex_first (pred : A → bool) l k a :
  l !! k = Some a → pred a = true →
  (∀ j b, l !! j = Some b → j < k → pred b = false) →
  findIndex pred l = Z.of_nat k.
Proof.
  intros Hk Ha Hbefore. unfold findIndex.
  assert (list_find (λ a, pred a = true) l = Some (k, a)) as ->; [|done].
  apply list_find_Some. split; [done|]. split; [done|].
  intros j b Hj Hlt Hb. by rewrite (Hbefore j b Hj Hlt) in Hb.
Qed.

End arrays.

(** ** Renumbering *)

Lemma alter_set_sequenceNumber_iri_of n r h r' :
  iri_of (alter (set_sequenceNumber n) r h) r' = iri_of h r'.
Proof.
  unfold iri_of. destruct (decide (r = r')) as [->|Hne].
  - rewrite lookup_alter_eq. by destruct (h !! r').
  - by rewrite lookup_alter_ne.
Qed.

Lemma renumber_iri_of k rs h r : iri_of (renumber k rs h) r = iri_of h r.
Proof.
  revert k h. induction rs as [|a rs IH]; intros k h; simpl; [done|].
  by rewrite IH, alter_set_sequenceNumber_iri_of.
Qed.

Lemma renumber_lookup_notin k rs h r : r ∉ rs → renumber k rs h !! r = h !! r.
Proof.
  revert k h. induction rs as [|a rs IH]; intros k h Hr; simpl; [done|].
  rewrite IH by set_solver. apply lookup_alter_ne. set_solver.
Qed.

(** With no reference repeated, the point at index [i] gets sequence number
    [k + i] and keeps its other fields. *)
Lemma renumber_lookup k rs h i r :
  NoDup rs → rs !! i = Some r →
  renumber k rs h !! r = set_sequenceNumber (Z.of_nat (k + i)) <$> h !! r.
Proof.
  revert k h i. induction rs as [|a rs IH]; intros k h i Hnd Hi; [done|].
  apply NoDup_cons in Hnd as [Ha Hnd]. destruct i as [|i]; simpl in *.
  - injection Hi as ->. rewrite renumber_lookup_notin by done.
    rewrite lookup_alter_eq. by replace (k + 0) with k by lia.
  - rewrite (IH (S k) _ i Hnd Hi).
    assert (a ≠ r) by (intros ->; apply Ha; by eapply list_elem_of_lookup_2).
    rewrite lookup_alter_ne by done. by replace (S k + i) with (k + S i) by lia.
Qed.

Lemma renumber_numbered rs h : NoDup rs → live h rs → numbered (renumber 0 rs h) rs.
Proof.
  intros Hnd Hlive i r Hi. rewrite (renumber_lookup 0 rs h i r Hnd Hi).
  assert (is_Some (h !! r)) as [pt Hpt].
  { eapply Forall_forall in Hlive; [done|]. by eapply list_elem_of_lookup_2. }
  by rewrite Hpt.
Qed.

(** ** Inserting and deleting points *)

Lemma newRef_fresh (h : gmap ref PointModel) : h !! newRef h = None.
Proof. apply not_elem_of_dom. unfold newRef. apply is_fresh. Qed.

Lemma newRef_not_live h rs : live h rs → newRef h ∉ rs.
Proof.
  intros Hlive Hin. eapply Forall_forall in Hlive; [|exact Hin].
  rewrite newRef_fresh in Hlive. by destruct Hlive.
Qed.

Lemma live_sublist h rs rs' : rs' `sublist_of` rs → live h rs → live h rs'.
Proof.
  intros Hsub Hlive. apply Forall_forall. intros r Hr.
  eapply Forall_forall in Hlive; [done|]. by eapply elem_of_sublist.
Qed.

(** The state in which [addNewPointToLine] awaits the remote insert. *)
Lemma addNewPointToLine_begin_Awaiting cfg object obj d position insertIndex uuid st :
  objectHeap st !! object = Some obj →
  diagramData st = Some d →
  let r := newRef (pointHeap st) in
  let newPoint :=
    {| iri := newPointIri uuid; point_x := x position; point_y := y position;
       sequenceNumber := insertIndex; parentObject := Some object; gluedTo := [] |} in
  let rs' := splice_insert insertIndex r (object_points obj) in
  let h' := renumber 0 rs' (<[r := newPoint]> (pointHeap st)) in
  ∃ st', addNewPointToLine_begin cfg object position insertIndex uuid st = Awaiting st' ∧
    objectHeap st' = <[object := set_object_points rs' obj]> (objectHeap st) ∧
    pointHeap st' = h' ∧
    diagramData st' = Some (set_points (points d ++ [r]) d) ∧
    interactionState st' = interactionState st ∧
    viewTransform st' = viewTransform st ∧
    cgmesVersion st' = cgmesVersion st ∧
    selectedDiagram st' = selectedDiagram st ∧
    positionUpdateEvent st' = positionUpdateEvent st ∧
    isLoading st' = true ∧
    statusText st' = "Adding new point..." ∧
    remoteCalls st' = remoteCalls st ++
      [InsertNewPoint (newPointIri uuid) (object_iri obj) (x position) (y position)
         insertIndex (sequenceUpdates_of h' rs') (namespaces cfg (cgmesVersion st))].
Proof.
  intros Ho Hd r newPoint rs' h'. unfold addNewPointToLine_begin. rewrite Ho, Hd.
  eexists. split; [reflexivity|]. simpl. by repeat split.
Qed.

(** The two outcomes of [deletePointFromLine] on a point of a live object of
    a loaded diagram, up to the [await]. *)
Lemma deletePointFromLine_begin_cases cfg point pt object obj d st :
  pointHeap st !! point = Some pt →
  diagramData st = Some d →
  parentObject pt = Some object →
  objectHeap st !! object = Some obj →
  let pointIndex := findIndex (has_iri (pointHeap st) (iri pt)) (object_points obj) in
  let rs' := splice_delete pointIndex (object_points obj) in
  let h' := renumber 0 rs' (pointHeap st) in
  let diagramPointIndex := findIndex (has_iri h' (iri pt)) (points d) in
  let ds' := if (0 <=? diagramPointIndex)%Z
             then splice_delete diagramPointIndex (points d) else points d in
  if (pointIndex =? 0)%Z || (pointIndex =? Z.of_nat (length (object_points obj)) - 1)%Z
  then deletePointFromLine_begin cfg point st =
         Returned (setLoading false
           (updateStatus "Cannot delete first or last point of a line or shape" st))
  else ∃ st', deletePointFromLine_begin cfg point st = Awaiting st' ∧
    objectHeap st' = <[object := set_object_points rs' obj]> (objectHeap st) ∧
    pointHeap st' = h' ∧
    diagramData st' = Some (set_points ds' d) ∧
    interactionState st' = interactionState st ∧
    viewTransform st' = viewTransform st ∧
    remoteCalls st' = remoteCalls st ++
      [DeletePoint (iri pt) (sequenceUpdates_of h' rs') (namespaces cfg (cgmesVersion st))].
Proof.
  intros Hpt Hd Hparent Ho pointIndex rs' h' diagramPointIndex ds'.
  unfold deletePointFromLine_begin. rewrite Hpt, Hd, Hparent. simpl. rewrite Ho. simpl.
  fold pointIndex. destruct (_ || _); [done|].
  eexists. split; [reflexivity|]. simpl. by repeat split.
Qed.

(** Where identifiers are distinct, [findIndex] by identifier finds the point
    itself. *)
Lemma findIndex_has_iri h h' rs k r pt :
  (∀ r', iri_of h' r' = iri_of h r') →
  distinct_iris h rs → rs !! k = Some r → h !! r = Some pt →
  findIndex (has_iri h' (iri pt)) rs = Z.of_nat k.
Proof.
  intros Hsame Hd Hk Hpt.
  assert (iri_of h r = Some (iri pt)) as Hr by (unfold iri_of; by rewrite Hpt).
  apply (findIndex_first _ _ k r); [done| |].
  - unfold has_iri. rewrite Hsame. by apply bool_decide_eq_true.
  - intros j b Hj Hlt. unfold has_iri. rewrite Hsame. apply bool_decide_eq_false.
    intros Hb. assert (j = k); [|lia].
    eapply (NoDup_lookup _ j k (Some (iri pt))); [exact Hd| |].
    + by rewrite list_lookup_fmap, Hj; simpl; rewrite Hb.
    + by rewrite list_lookup_fmap, Hk; simpl; rewrite Hr.
Qed.

(** C3: on an object whose point array is live and repeats no point, in a
    loaded diagram:
    - inserting at [insertIndex] splices the new point into the object's array
      (at index [insertIndex] when [0 <= insertIndex <= n]), appends it to the
      diagram's flattened array, and leaves the sequence numbers of the
      object's points at [0 .. n] in array order, also once the remote insert
      has resolved;
    - a delete that goes through leaves the sequence numbers of the remaining
      points at [0 .. n-2] in array order;
    - the delete of the point at an interior index [k], identifiers being
      distinct, does go through: the object's array is the old one without
      index [k], one shorter and without the point, the points before [k] keep
      their sequence numbers and the points after it have theirs lowered by
      one, also once the remote delete has resolved;
    - whatever a delete of a point of the object does (refusal included), an
      array numbered [0 .. n-1] before it is numbered [0 .. n'-1] after it;
    - inserting at index 1 at (5,0) into [O = [P0(0,0), P1(10,0), P2(10,10)]]
      yields P0 seq 0, Pnew(5,0) seq 1, P1 seq 2, P2 seq 3, and deleting P1
      from [O] yields P0 seq 0, P2 seq 1. *)
Theorem insert_and_delete_renumber_the_object cfg object obj d st :
  objectHeap st !! object = Some obj →
  diagramData st = Some d →
  live (pointHeap st) (object_points obj) →
  NoDup (object_points obj) →
  (∀ position insertIndex uuid,
     let r := newRef (pointHeap st) in
     let st' := state_of (addNewPointToLine_begin cfg object position insertIndex uuid st) in
     let st'' := addNewPointToLine cfg Resolved object position insertIndex uuid st in
     ∃ obj' newPoint,
       objectHeap st' !! object = Some obj' ∧
       object_points obj' = splice_insert insertIndex r (object_points obj) ∧
       ((0 ≤ insertIndex ≤ Z.of_nat (length (object_points obj)))%Z →
        object_points obj' =
          take (Z.to_nat insertIndex) (object_points obj) ++
          r :: drop (Z.to_nat insertIndex) (object_points obj)) ∧
       length (object_points obj') = S (length (object_points obj)) ∧
       (r ∉ object_points obj) ∧
       pointHeap st' !! r = Some newPoint ∧
       iri newPoint = newPointIri uuid ∧
       point_x newPoint = x position ∧ point_y newPoint = y position ∧
       (points <$> diagramData st') = Some (points d ++ [r]) ∧
       numbered (pointHeap st') (object_points obj') ∧
       pointHeap st'' = pointHeap st' ∧ objectHeap st'' = objectHeap st' ∧
       diagramData st'' = diagramData st') ∧
  (∀ point pt st',
     pointHeap st !! point = Some pt →
     parentObject pt = Some object →
     deletePointFromLine_begin cfg point st = Awaiting st' →
     ∃ obj',
       objectHeap st' !! object = Some obj' ∧
       object_points obj' `sublist_of` object_points obj ∧
       numbered (pointHeap st') (object_points obj')) ∧
  (∀ point pt k,
     pointHeap st !! point = Some pt →
     parentObject pt = Some object →
     object_points obj !! k = Some point →
     distinct_iris (pointHeap st) (object_points obj) →
     0 < k < length (object_points obj) - 1 →
     ∃ st' obj',
       deletePointFromLine_begin cfg point st = Awaiting st' ∧
       objectHeap st' !! object = Some obj' ∧
       object_points obj' = delete k (object_points obj) ∧
       S (length (object_points obj')) = length (object_points obj) ∧
       (point ∉ object_points obj') ∧
       numbered (pointHeap st') (object_points obj') ∧
       (∀ j r, object_points obj !! j = Some r → j ≠ k →
          sequenceNumber <$> pointHeap st' !! r
            = Some (Z.of_nat (if decide (j < k) then j else j - 1))) ∧
       (∀ query reload,
          let st'' := (deletePointFromLine cfg query Resolved reload point st).1 in
          pointHeap st'' = pointHeap st' ∧ objectHeap st'' = objectHeap st')) ∧
  (numbered (pointHeap st) (object_points obj) →
   ∀ point pt query reload,
     pointHeap st !! point = Some pt →
     parentObject pt = Some object →
     let st' := (deletePointFromLine cfg query Resolved reload point st).1 in
     ∃ obj',
       objectHeap st' !! object = Some obj' ∧
       object_points obj' `sublist_of` object_points obj ∧
       numbered (pointHeap st') (object_points obj')) ∧
  (let ex := state_of (addNewPointToLine_begin cfg 1%positive {| x := 5; y := 0 |} 1 "u"
                         Example.line) in
   (object_points <$> objectHeap ex !! 1%positive) = Some [1; 4; 2; 3]%positive ∧
   (λ pt, (iri pt, point_x pt, point_y pt, sequenceNumber pt))
     <$> deref (pointHeap ex) [1; 4; 2; 3]%positive =
     [("P0", 0%float, 0%float, 0%Z);
      ("http://tempuri.org/point/u", 5%float, 0%float, 1%Z);
      ("P1", 10%float, 0%float, 2%Z);
      ("P2", 10%float, 10%float, 3%Z)]) ∧
  (let ex := state_of (deletePointFromLine_begin cfg 2%positive Example.line) in
   (object_points <$> objectHeap ex !! 1%positive) = Some [1; 3]%positive ∧
   (λ pt, (iri pt, sequenceNumber pt)) <$> deref (pointHeap ex) [1; 3]%positive =
     [("P0", 0%Z); ("P2", 1%Z)]).
Proof.
  intros Ho Hd Hlive Hnd. split; [|split; [|split; [|split; [|split]]]].
  - intros position insertIndex uuid r st' st''.
    destruct (addNewPointToLine_begin_Awaiting cfg object obj d position insertIndex uuid st
                Ho Hd) as (st1 & Hbegin & Hobj & Hheap & Hdia & _).
    subst st' st''. unfold addNewPointToLine. rewrite Hbegin. simpl.
    fold r in Hobj, Hheap, Hdia.
    pose proof (newRef_not_live _ _ Hlive) as Hfresh. fold r in Hfresh.
    set (rs' := splice_insert insertIndex r (object_points obj)) in *.
    assert (NoDup rs') as Hnd' by by apply NoDup_splice_insert.
    assert (r ∈ rs') as Hr by (apply elem_of_splice_insert; by left).
    apply list_elem_of_lookup in Hr as [i Hi].
    eexists (set_object_points rs' obj), _.
    split; [by rewrite Hobj, lookup_insert_eq|].
    split; [done|].
    split; [intros Hrange; by apply splice_insert_in_range|].
    split; [apply length_splice_insert|].
    split; [done|].
    split.
    { rewrite Hheap, (renumber_lookup 0 rs' _ i r Hnd' Hi), lookup_insert_eq. done. }
    do 3 (split; [done|]).
    split; [by rewrite Hdia|].
    split; [|done].
    rewrite Hheap. apply renumber_numbered; [done|].
    apply Forall_forall. intros r' Hr'.
    apply elem_of_splice_insert in Hr' as [->|Hr'].
    + rewrite lookup_insert_eq. by eexists.
    + eapply Forall_forall in Hlive; [|exact Hr'].
      destruct (decide (r = r')) as [->|Hne];
        [rewrite lookup_insert_eq; by eexists | by rewrite lookup_insert_ne].
  - intros point pt st' Hpt Hparent Hbegin.
    pose proof (deletePointFromLine_begin_cases cfg point pt object obj d st
                  Hpt Hd Hparent Ho) as Hcases. simpl in Hcases.
    destruct (_ || _); [congruence|].
    destruct Hcases as (st1 & Hbegin1 & Hobj & Hheap & _).
    rewrite Hbegin in Hbegin1. injection Hbegin1 as <-.
    eexists. split; [by rewrite Hobj, lookup_insert_eq|]. simpl.
    split; [apply splice_delete_sublist|].
    rewrite Hheap. apply renumber_numbered.
    + exact (sublist_NoDup _ _ Hnd (splice_delete_sublist _ _)).
    + eapply live_sublist; [apply splice_delete_sublist|done].
  - intros point pt k Hpt Hparent Hk Hdist Hinterior.
    pose proof (deletePointFromLine_begin_cases cfg point pt object obj d st
                  Hpt Hd Hparent Ho) as Hcases. simpl in Hcases.
    rewrite (findIndex_has_iri (pointHeap st) (pointHeap st) _ k point pt) in Hcases
      by done.
    set (n := length (object_points obj)) in *.
    assert ((Z.of_nat k =? 0)%Z || (Z.of_nat k =? Z.of_nat n - 1)%Z = false) as Hguard.
    { apply orb_false_iff. lia. }
    rewrite Hguard in Hcases.
    destruct Hcases as (st' & Hbegin & Hobj & Hheap & _).
    rewrite splice_delete_in_range, Nat2Z.id in Hobj, Hheap by (fold n; lia).
    assert (numbered (pointHeap st') (delete k (object_points obj))) as Hnum.
    { rewrite Hheap. apply renumber_numbered.
      - exact (sublist_NoDup _ _ Hnd (sublist_delete _ _)).
      - eapply live_sublist; [apply sublist_delete|done]. }
    exists st', (set_object_points (delete k (object_points obj)) obj).
    split; [done|].
    split; [by rewrite Hobj, lookup_insert_eq|].
    split; [done|].
    split; [simpl; rewrite length_delete by (by eexists); fold n; lia|].
    split.
    { simpl. intros Hin. apply list_elem_of_lookup in Hin as [i Hi].
      destruct (decide (i < k)) as [Hlt|Hge].
      - rewrite list_lookup_delete_lt in Hi by done.
        pose proof (NoDup_lookup _ _ _ _ Hnd Hk Hi). lia.
      - rewrite list_lookup_delete_ge in Hi by lia.
        pose proof (NoDup_lookup _ _ _ _ Hnd Hk Hi). lia. }
    split; [done|].
    split.
    { intros j r Hj Hjk. destruct (decide (j < k)) as [Hlt|Hge].
      - apply Hnum. by rewrite list_lookup_delete_lt.
      - apply Hnum. rewrite list_lookup_delete_ge by lia.
        by replace (S (j - 1)) with j by lia. }
    intros query reload st''. subst st''. unfold deletePointFromLine.
    rewrite Hbegin. by simpl.
  - intros Hnum point pt query reload Hpt Hparent st'.
    pose proof (deletePointFromLine_begin_cases cfg point pt object obj d st
                  Hpt Hd Hparent Ho) as Hcases. simpl in Hcases.
    subst st'. unfold deletePointFromLine. destruct (_ || _).
    + rewrite Hcases. simpl. exists obj. by split.
    + destruct Hcases as (st1 & -> & Hobj & Hheap & _). simpl.
      eexists. split; [by rewrite Hobj, lookup_insert_eq|]. simpl.
      split; [apply splice_delete_sublist|].
      rewrite Hheap. apply renumber_numbered.
      * exact (sublist_NoDup _ _ Hnd (splice_delete_sublist _ _)).
      * eapply live_sublist; [apply splice_delete_sublist|done].
  - vm_compute. split; reflexivity.
  - vm_compute. split; reflexivity.
Qed.

Lemma insert_and_delete_renumber_the_object_witness :
  let inserted := state_of (addNewPointToLine_begin Example.config 1%positive
                              {| x := 5; y := 0 |} 1 "u" Example.line) in
  NoDup [1; 2; 3]%positive ∧
  (∃ obj', objectHeap inserted !! 1%positive = Some obj' ∧
           length (object_points obj') = 4 ∧
           numbered (pointHeap inserted) (object_points obj')) ∧
  (∃ deleted obj',
     deletePointFromLine_begin Example.config 2%positive Example.line = Awaiting deleted ∧
     objectHeap deleted !! 1%positive = Some obj' ∧
     object_points obj' = [1; 3]%positive ∧
     (2%positive ∉ object_points obj') ∧
     sequenceNumber <$> pointHeap deleted !! 1%positive = Some 0%Z ∧
     sequenceNumber <$> pointHeap deleted !! 3%positive = Some 1%Z).
Proof.
  intros inserted.
  assert (NoDup [1; 2; 3]%positive) as Hnd
    by (apply (bool_decide_unpack _); vm_compute; reflexivity).
  split; [exact Hnd|].
  destruct (insert_and_delete_renumber_the_object Example.config 1%positive
              {| object_iri := "O"; object_points := [1; 2; 3]%positive |}
              {| objects := [1%positive]; points := [1; 2; 3]%positive |}
              Example.line) as (Hinsert & _ & Hdelete & _).
  - reflexivity.
  - reflexivity.
  - unfold live. apply (bool_decide_unpack _). vm_compute. reflexivity.
  - exact Hnd.
  - split.
    + destruct (Hinsert {| x := 5; y := 0 |} 1%Z "u")
        as (obj' & newPoint & Hobj & _ & _ & Hlen & _ & _ & _ & _ & _ & _ & Hnum & _).
      exists obj'. split; [exact Hobj|]. split; [exact Hlen|exact Hnum].
    + destruct (Hdelete 2%positive (Example.P "P1" 10 0 1 1%positive []) 1)
        as (deleted & obj' & Hbegin & Hobj & Hpoints & _ & Hgone & _ & Hseq & _).
      * reflexivity.
      * reflexivity.
      * reflexivity.
      * unfold distinct_iris. apply (bool_decide_unpack _). vm_compute. reflexivity.
      * simpl. lia.
      * exists deleted, obj'.
        split; [exact Hbegin|]. split; [exact Hobj|].
        split; [exact Hpoints|]. split; [exact Hgone|].
        split; [exact (Hseq 0 1%positive eq_refl ltac:(lia))
               |exact (Hseq 2 3%positive eq_refl ltac:(lia))].
Defined.

Lemma set_sequenceNumber_twice n m pt :
  set_sequenceNumber n (set_sequenceNumber m pt) = set_sequenceNumber n pt.
Proof. reflexivity. Qed.

(** Renumbering changes sequence numbers only. *)
Lemma renumber_lookup_cases k rs h r :
  renumber k rs h !! r = h !! r ∨
  ∃ n pt, h !! r = Some pt ∧ renumber k rs h !! r = Some (set_sequenceNumber n pt).
Proof.
  revert k h. induction rs as [|a rs IH]; intros k h; simpl; [by left|].
  destruct (IH (S k) (alter (set_sequenceNumber (Z.of_nat k)) a h)) as [Heq|(n & pt & Hpt & Heq)].
  - rewrite Heq. destruct (decide (a = r)) as [->|Hne].
    + rewrite lookup_alter_eq. destruct (h !! r) as [pt|]; [|by left].
      right. by eauto.
    + left. by rewrite lookup_alter_ne.
  - rewrite Heq. right. destruct (decide (a = r)) as [->|Hne].
    + rewrite lookup_alter_eq in Hpt. destruct (h !! r) as [pt0|]; [|done].
      simpl in Hpt. injection Hpt as <-. by eauto.
    + rewrite lookup_alter_ne in Hpt by done. by eauto.
Qed.

(** C4: let [point] be the point at index [k] of its parent object, whose
    points bear distinct identifiers, in a loaded diagram.  If [k] is the
    first or the last index, [deletePointFromLine] reports that the point
    cannot be deleted and changes neither heap, nor the diagram, nor the
    interaction state, and issues no remote call.  Otherwise the local delete
    goes through: the point is removed from the object's array and (the
    flattened array holding it, with distinct identifiers) from the flattened
    array, the remaining points of the object are renumbered [0 .. n-2], no
    point changes anything but its sequence number, and the remote delete is
    issued. *)
Theorem delete_refuses_end_points_and_removes_interior_points
    cfg query point pt object obj d k st :
  diagramData st = Some d →
  pointHeap st !! point = Some pt →
  parentObject pt = Some object →
  objectHeap st !! object = Some obj →
  object_points obj !! k = Some point →
  distinct_iris (pointHeap st) (object_points obj) →
  let n := length (object_points obj) in
  (k = 0 ∨ k = n - 1 →
   ∀ outcome reload,
     let st' := (deletePointFromLine cfg query outcome reload point st).1 in
     statusText st' = "Cannot delete first or last point of a line or shape" ∧
     pointHeap st' = pointHeap st ∧ objectHeap st' = objectHeap st ∧
     diagramData st' = diagramData st ∧ remoteCalls st' = remoteCalls st ∧
     interactionState st' = interactionState st ∧
     viewTransform st' = viewTransform st) ∧
  (0 < k < n - 1 →
   ∃ st', deletePointFromLine_begin cfg point st = Awaiting st' ∧
     objectHeap st' !! object = Some (set_object_points (delete k (object_points obj)) obj) ∧
     (point ∉ delete k (object_points obj)) ∧
     (live (pointHeap st) (object_points obj) →
      numbered (pointHeap st') (delete k (object_points obj))) ∧
     (∀ j, points d !! j = Some point → distinct_iris (pointHeap st) (points d) →
        diagramData st' = Some (set_points (delete j (points d)) d) ∧
        (point ∉ delete j (points d))) ∧
     (∀ r p, pointHeap st !! r = Some p →
        ∃ seq, pointHeap st' !! r = Some (set_sequenceNumber seq p)) ∧
     remoteCalls st' = remoteCalls st ++
       [DeletePoint (iri pt)
          (sequenceUpdates_of (pointHeap st') (delete k (object_points obj)))
          (namespaces cfg (cgmesVersion st))]).
Proof.
  intros Hd Hpt Hparent Ho Hk Hdist n.
  pose proof (deletePointFromLine_begin_cases cfg point pt object obj d st
                Hpt Hd Hparent Ho) as Hcases. simpl in Hcases.
  rewrite (findIndex_has_iri (pointHeap st) (pointHeap st) _ k point pt) in Hcases
    by done.
  assert (k < n) as Hkn by (by eapply lookup_lt_Some).
  fold n in Hcases. split.
  - intros Hends outcome reload st'.
    assert ((Z.of_nat k =? 0)%Z || (Z.of_nat k =? Z.of_nat n - 1)%Z = true) as Hguard.
    { apply orb_true_iff. destruct Hends; [left|right]; lia. }
    rewrite Hguard in Hcases. subst st'. unfold deletePointFromLine.
    by rewrite Hcases.
  - intros Hinterior.
    assert ((Z.of_nat k =? 0)%Z || (Z.of_nat k =? Z.of_nat n - 1)%Z = false) as Hguard.
    { apply orb_false_iff. lia. }
    rewrite Hguard in Hcases.
    destruct Hcases as (st' & Hbegin & Hobj & Hheap & Hdia & _ & _ & Hcalls).
    rewrite splice_delete_in_range, Nat2Z.id in Hobj, Hheap, Hcalls by (fold n; lia).
    assert (NoDup (object_points obj)) as Hnd by (by eapply NoDup_fmap_1).
    assert (∀ (l : list ref) i, NoDup l → l !! i = Some point → point ∉ delete i l) as Hgone.
    { intros l i Hl Hi Hin. apply list_elem_of_lookup in Hin as [i' Hi'].
      destruct (decide (i' < i)) as [Hlt|Hge].
      - rewrite list_lookup_delete_lt in Hi' by done.
        pose proof (NoDup_lookup _ _ _ _ Hl Hi Hi'). lia.
      - rewrite list_lookup_delete_ge in Hi' by lia.
        pose proof (NoDup_lookup _ _ _ _ Hl Hi Hi'). lia. }
    exists st'. split; [done|].
    split; [by rewrite Hobj, lookup_insert_eq|].
    split; [by apply Hgone|].
    split; [|split; [|split; [|by rewrite Hcalls, Hheap]]].
    + intros Hlive. rewrite Hheap. apply renumber_numbered.
      * exact (sublist_NoDup _ _ Hnd (sublist_delete _ _)).
      * eapply live_sublist; [apply sublist_delete|done].
    + intros j Hj Hdistd.
      rewrite (findIndex_has_iri (pointHeap st) _ _ j point pt) in Hdia; try done;
        [|intros r'; apply renumber_iri_of].
      assert ((0 <=? Z.of_nat j)%Z = true) as Hj0 by (apply Z.leb_le; lia).
      rewrite Hj0, splice_delete_in_range, Nat2Z.id in Hdia
        by (apply lookup_lt_Some in Hj; lia).
      split; [done|]. apply Hgone; [|done]. by eapply NoDup_fmap_1.
    + intros r p Hp. rewrite Hheap.
      destruct (renumber_lookup_cases 0 (delete k (object_points obj)) (pointHeap st) r)
        as [Heq|(seq & p' & Hp' & Heq)].
      * exists (sequenceNumber p). by rewrite Heq, Hp, set_sequenceNumber_same.
      * exists seq. rewrite Heq. congruence.
Qed.

Lemma delete_refuses_end_points_and_removes_interior_points_witness :
  let refused := (deletePointFromLine Example.config Example.query Resolved
                    (QueryFailed "unused") 3%positive Example.line).1 in
  distinct_iris (pointHeap Example.line) [1; 2; 3]%positive ∧
  statusText refused = "Cannot delete first or last point of a line or shape" ∧
  pointHeap refused = pointHeap Example.line ∧
  remoteCalls refused = [] ∧
  ∃ st', deletePointFromLine_begin Example.config 2%positive Example.line = Awaiting st' ∧
         objectHeap st' !! 1%positive
           = Some {| object_iri := "O"; object_points := [1; 3]%positive |} ∧
         diagramData st' = Some {| objects := [1%positive]; points := [1; 3]%positive |} ∧
         numbered (pointHeap st') [1; 3]%positive.
Proof.
  intros refused.
  assert (live (pointHeap Example.line) [1; 2; 3]%positive) as Hlive
    by (unfold live; apply (bool_decide_unpack _); vm_compute; reflexivity).
  assert (distinct_iris (pointHeap Example.line) [1; 2; 3]%positive) as Hdist
    by (unfold distinct_iris; apply (bool_decide_unpack _); vm_compute; reflexivity).
  split; [exact Hdist|].
  destruct (delete_refuses_end_points_and_removes_interior_points
              Example.config Example.query 3%positive
              (Example.P "P2" 10 10 2 1%positive []) 1%positive
              {| object_iri := "O"; object_points := [1; 2; 3]%positive |}
              {| objects := [1%positive]; points := [1; 2; 3]%positive |}
              2 Example.line) as (Hrefused & _); try reflexivity; try assumption.
  destruct (Hrefused (or_intror eq_refl) Resolved (QueryFailed "unused"))
    as (Hstatus & Hheap & _ & _ & Hcalls & _).
  split; [exact Hstatus|]. split; [exact Hheap|]. split; [exact Hcalls|].
  destruct (delete_refuses_end_points_and_removes_interior_points
              Example.config Example.query 2%positive
              (Example.P "P1" 10 0 1 1%positive []) 1%positive
              {| object_iri := "O"; object_points := [1; 2; 3]%positive |}
              {| objects := [1%positive]; points := [1; 2; 3]%positive |}
              1 Example.line) as (_ & Hinterior); try reflexivity; try assumption.
  destruct Hinterior as (st' & Hbegin & Hobj & _ & Hnum & Hflat & _); [simpl; lia|].
  destruct (Hflat 1 eq_refl Hdist) as (Hdia & _).
  exists st'. split; [exact Hbegin|]. split; [exact Hobj|].
  split; [exact Hdia|exact (Hnum Hlive)].
Defined.

(** ** Rolling back a failed insert *)

Lemma filter_all {A} (P : A → Prop) `{∀ a, Decision (P a)} (l : list A) :
  Forall P l → filter P l = l.
Proof.
  induction 1 as [|a l Ha _ IH]; [done|].
  by rewrite filter_cons_True, IH.
Qed.

Lemma filter_splice_insert {A} (P : A → Prop) `{∀ a, Decision (P a)} start a (l : list A) :
  ¬ P a → Forall P l → filter P (splice_insert start a l) = l.
Proof.
  intros Ha Hl. unfold splice_insert.
  set (k := splice_start (length l) start).
  rewrite filter_app, filter_cons_False by done.
  rewrite <- filter_app, take_drop. by apply filter_all.
Qed.

Lemma filter_snoc_False {A} (P : A → Prop) `{∀ a, Decision (P a)} a (l : list A) :
  ¬ P a → Forall P l → filter P (l ++ [a]) = l.
Proof.
  intros Ha Hl. rewrite filter_app, filter_cons_False, filter_nil, app_nil_r by done.
  by apply filter_all.
Qed.

(** C7: let the object's point array be live and numbered [0 .. n-1], the
    diagram's flattened array be live, and the identifier generated for the
    new point be borne by no point of either array.  If the remote insert
    fails, [addNewPointToLine] leaves the diagram, the object heap and every
    point that existed before exactly as they were before the insert (the new
    point is in neither array any more and is the only addition to the point
    heap), reports ["Error: " + message], clears the loading flag, leaves the
    interaction state and the view alone, and completes normally. *)
Theorem failed_insert_is_rolled_back cfg object obj d position insertIndex uuid message st :
  objectHeap st !! object = Some obj →
  diagramData st = Some d →
  live (pointHeap st) (object_points obj) →
  numbered (pointHeap st) (object_points obj) →
  live (pointHeap st) (points d) →
  (∀ r, r ∈ object_points obj ++ points d →
        iri_of (pointHeap st) r ≠ Some (newPointIri uuid)) →
  let st' := addNewPointToLine cfg (Rejected message) object position insertIndex uuid st in
  diagramData st' = diagramData st ∧
  objectHeap st' = objectHeap st ∧
  delete (newRef (pointHeap st)) (pointHeap st') = pointHeap st ∧
  (∀ r pt, pointHeap st !! r = Some pt → pointHeap st' !! r = Some pt) ∧
  statusText st' = "Error: " +:+ message ∧
  isLoading st' = false ∧
  interactionState st' = interactionState st ∧
  viewTransform st' = viewTransform st ∧
  cgmesVersion st' = cgmesVersion st ∧
  selectedDiagram st' = selectedDiagram st ∧
  positionUpdateEvent st' = positionUpdateEvent st.
Proof.
  intros Ho Hd Hlive Hnum Hlived Hfresh st'.
  destruct (addNewPointToLine_begin_Awaiting cfg object obj d position insertIndex uuid st
              Ho Hd)
    as (st1 & Hbegin & Hobj & Hheap & Hdia & Hint & Hview & Hver & Hsel & Hev & _).
  set (r := newRef (pointHeap st)) in *.
  set (newPoint := {| iri := newPointIri uuid; point_x := x position;
                      point_y := y position; sequenceNumber := insertIndex;
                      parentObject := Some object; gluedTo := [] |}) in *.
  set (rs := object_points obj) in *.
  set (rs' := splice_insert insertIndex r rs) in *.
  set (h0 := <[r := newPoint]> (pointHeap st)) in *.
  assert (pointHeap st !! r = None) as Hr by apply newRef_fresh.
  assert (r ∉ rs) as Hrrs by (by apply newRef_not_live).
  assert (r ∉ points d) as Hrd by (by apply newRef_not_live).
  assert (∀ r0, r0 ≠ r → iri_of (pointHeap st1) r0 = iri_of (pointHeap st) r0) as Hiri.
  { intros r0 Hne. rewrite Hheap, renumber_iri_of. unfold iri_of, h0.
    by rewrite lookup_insert_ne. }
  assert (iri_of (pointHeap st1) r = Some (newPointIri uuid)) as Hirir.
  { rewrite Hheap, renumber_iri_of. unfold iri_of, h0. by rewrite lookup_insert_eq. }
  assert (filter (λ r0, has_iri (pointHeap st1) (newPointIri uuid) r0 = false) rs' = rs)
    as Hfilter.
  { apply filter_splice_insert.
    - unfold has_iri. rewrite bool_decide_eq_true_2 by done. done.
    - apply Forall_forall. intros r0 Hr0. unfold has_iri. apply bool_decide_eq_false.
      rewrite Hiri by (intros ->; done). apply Hfresh. set_solver. }
  assert (∀ h, (∀ r0, iri_of h r0 = iri_of (pointHeap st1) r0) →
            filter (λ r0, has_iri h (newPointIri uuid) r0 = false) (points d ++ [r])
            = points d) as Hfilterd.
  { intros h Hh. apply filter_snoc_False.
    - unfold has_iri. rewrite Hh, bool_decide_eq_true_2 by done. done.
    - apply Forall_forall. intros r0 Hr0. unfold has_iri. apply bool_decide_eq_false.
      rewrite Hh, Hiri by (intros ->; done). apply Hfresh. set_solver. }
  assert (NoDup rs) as Hnd.
  { apply NoDup_alt. intros i i' r0 Hi Hi'.
    pose proof (Hnum i r0 Hi) as Hsi. pose proof (Hnum i' r0 Hi') as Hsi'.
    rewrite Hsi in Hsi'. injection Hsi'. lia. }
  assert (NoDup rs') as Hnd' by (by apply NoDup_splice_insert).
  assert (delete r (renumber 0 rs (pointHeap st1)) = pointHeap st) as Hrestored.
  { apply map_eq. intros r0. destruct (decide (r0 = r)) as [->|Hne].
    { by rewrite lookup_delete_eq. }
    rewrite lookup_delete_ne by done.
    destruct (decide (r0 ∈ rs)) as [Hin|Hin].
    - apply list_elem_of_lookup in Hin as [i Hi].
      assert (r0 ∈ rs') as Hin' by (apply elem_of_splice_insert; right;
                                    by eapply list_elem_of_lookup_2).
      apply list_elem_of_lookup in Hin' as [i' Hi'].
      rewrite (renumber_lookup 0 rs _ i r0 Hnd Hi), Hheap.
      rewrite (renumber_lookup 0 rs' _ i' r0 Hnd' Hi'). unfold h0.
      rewrite lookup_insert_ne by done.
      pose proof (Hnum i r0 Hi) as Hs.
      destruct (pointHeap st !! r0) as [pt|]; [|done]. simpl in *.
      injection Hs as Hs. rewrite set_sequenceNumber_twice.
      by rewrite <- Hs, set_sequenceNumber_same.
    - assert (r0 ∉ rs') as Hin'.
      { intros [->|?]%elem_of_splice_insert; done. }
      rewrite renumber_lookup_notin, Hheap, renumber_lookup_notin by done.
      unfold h0. by rewrite lookup_insert_ne. }
  subst st'. unfold addNewPointToLine. rewrite Hbegin.
  unfold addNewPointToLine_settle, addNewPointToLine_revert. simpl.
  rewrite Hobj, lookup_insert_eq, Hdia. simpl.
  rewrite Hfilter, Hfilterd by (intros r0; apply renumber_iri_of).
  rewrite insert_insert_eq.
  replace (set_object_points rs (set_object_points rs' obj)) with obj
    by (by destruct obj).
  rewrite (insert_id _ _ _ Ho).
  replace (set_points (points d) (set_points (points d ++ [r]) d)) with d
    by (by destruct d).
  rewrite Hrestored.
  split; [by rewrite Hd|]. split; [done|]. split; [done|]. split; [|done].
  intros r0 pt Hpt. rewrite <- Hrestored in Hpt.
  destruct (decide (r0 = r)) as [->|Hne].
  - by rewrite lookup_delete_eq in Hpt.
  - by rewrite lookup_delete_ne in Hpt.
Qed.

Lemma failed_insert_is_rolled_back_witness :
  let st' := addNewPointToLine Example.config (Rejected "503 Service Unavailable")
               1%positive {| x := 5; y := 0 |} 1 "u" Example.line in
  numbered (pointHeap Example.line) [1; 2; 3]%positive ∧
  diagramData st' = diagramData Example.line ∧
  objectHeap st' = objectHeap Example.line ∧
  delete 4%positive (pointHeap st') = pointHeap Example.line ∧
  statusText st' = "Error: 503 Service Unavailable".
Proof.
  intros st'.
  assert (numbered (pointHeap Example.line) [1; 2; 3]%positive) as Hnum.
  { intros i r Hi. destruct i as [|[|[|i]]]; simpl in Hi; try discriminate Hi;
      injection Hi as <-; vm_compute; reflexivity. }
  split; [exact Hnum|].
  destruct (failed_insert_is_rolled_back Example.config 1%positive
              {| object_iri := "O"; object_points := [1; 2; 3]%positive |}
              {| objects := [1%positive]; points := [1; 2; 3]%positive |}
              {| x := 5; y := 0 |} 1 "u" "503 Service Unavailable" Example.line)
    as (Hdia & Hobj & Hheap & _ & Hstatus & _).
  - reflexivity.
  - reflexivity.
  - unfold live. apply (bool_decide_unpack _). vm_compute. reflexivity.
  - exact Hnum.
  - unfold live. apply (bool_decide_unpack _). vm_compute. reflexivity.
  - apply (Forall_forall (λ r, iri_of (pointHeap Example.line) r
                               ≠ Some (newPointIri "u"))).
    apply (bool_decide_unpack _). vm_compute. reflexivity.
  - split; [exact Hdia|]. split; [exact Hobj|]. split; [exact Hheap|exact Hstatus].
Defined.

(** * Further properties of the operations *)

(** ** Selection toggling *)

Lemma JSSet_elem_of_delete k k' s : k ∈ JSSet.delete k' s ↔ k ≠ k' ∧ k ∈ s.
Proof. unfold JSSet.delete. by rewrite list_elem_of_filter. Qed.

Lemma JSSet_NoDup_add k s : NoDup s → NoDup (JSSet.add k s).
Proof.
  intros Hs. unfold JSSet.add. destruct (JSSet.has s k) eqn:Hhas; [done|].
  apply JSSet_has_false in Hhas. apply NoDup_app. split; [done|].
  split; [|apply NoDup_singleton].
  intros k' Hk' ->%list_elem_of_singleton. done.
Qed.

Lemma JSSet_NoDup_delete k s : NoDup s → NoDup (JSSet.delete k s).
Proof. intros Hs. unfold JSSet.delete. by apply NoDup_filter. Qed.

(** X1: [togglePointSelection] flips the membership of the one identifier it
    is given and of no other, keeps the selection free of duplicates, and
    leaves the mode, the drag and pan anchors, the snapshot map and every
    other store alone; toggling the same identifier twice gives back the same
    set of selected identifiers. *)
Theorem togglePointSelection_flips_one_identifier pointIri st :
  let state := interactionState st in
  let st' := togglePointSelection pointIri st in
  let state' := interactionState st' in
  (pointIri ∈ selectedPoints state' ↔ pointIri ∉ selectedPoints state) ∧
  (∀ k, k ≠ pointIri → k ∈ selectedPoints state' ↔ k ∈ selectedPoints state) ∧
  (NoDup (selectedPoints state) → NoDup (selectedPoints state')) ∧
  (∀ k, k ∈ selectedPoints (interactionState (togglePointSelection pointIri st'))
        ↔ k ∈ selectedPoints state) ∧
  mode state' = mode state ∧ dragStart state' = dragStart state ∧
  dragEnd state' = dragEnd state ∧ panStart state' = panStart state ∧
  originalPositions state' = originalPositions state ∧
  pointHeap st' = pointHeap st ∧ same_stores st' st.
Proof.
  intros state st' state'. subst st' state'. unfold togglePointSelection. simpl.
  fold state.
  assert (∀ s, (pointIri ∈ (if JSSet.has s pointIri then JSSet.delete pointIri s
                            else JSSet.add pointIri s) ↔ pointIri ∉ s) ∧
               (∀ k, k ≠ pointIri →
                  k ∈ (if JSSet.has s pointIri then JSSet.delete pointIri s
                       else JSSet.add pointIri s) ↔ k ∈ s)) as Hflip.
  { intros s. destruct (JSSet.has s pointIri) eqn:Hhas.
    - apply JSSet_has_true in Hhas. split.
      + rewrite JSSet_elem_of_delete. tauto.
      + intros k Hk. rewrite JSSet_elem_of_delete. tauto.
    - apply JSSet_has_false in Hhas. split.
      + rewrite JSSet_elem_of_add. tauto.
      + intros k Hk. rewrite JSSet_elem_of_add. tauto. }
  destruct (Hflip (selectedPoints state)) as [Hself Hother].
  split; [exact Hself|]. split; [exact Hother|]. split.
  { intros Hnd. destruct (JSSet.has _ _);
      [by apply JSSet_NoDup_delete | by apply JSSet_NoDup_add]. }
  split; [|by repeat split].
  intros k.
  set (s1 := if JSSet.has (selectedPoints state) pointIri
             then JSSet.delete pointIri (selectedPoints state)
             else JSSet.add pointIri (selectedPoints state)) in *.
  destruct (Hflip s1) as [Hself1 Hother1].
  destruct (decide (k = pointIri)) as [->|Hne].
  - rewrite Hself1, Hself. destruct (decide (pointIri ∈ selectedPoints state)); tauto.
  - by rewrite Hother1, Hother.
Qed.

(** ** Dragging, continued *)

Lemma drag_point_absorbs cs dx dy dx' dy' pt :
  drag_point cs dx dy (drag_point cs dx' dy' pt) = drag_point cs dx dy pt.
Proof.
  unfold drag_point. destruct (JSSet.has _ (iri pt)) eqn:Hs; [|by rewrite Hs].
  destruct (originalPositions cs !! iri pt) eqn:Ho; simpl; by rewrite Hs, Ho.
Qed.

Lemma forEach_forEach f g rs h :
  (∀ pt, f (f pt) = f pt) → (∀ pt, g (g pt) = g pt) → (∀ pt, f (g pt) = f pt) →
  forEach f rs (forEach g rs h) = forEach f rs h.
Proof.
  intros Hf Hg Hfg. apply map_eq. intros r. destruct (decide (r ∈ rs)) as [Hin|Hin].
  - rewrite !forEach_lookup_in by done. destruct (h !! r); simpl; by rewrite ?Hfg.
  - by rewrite !forEach_lookup_notin.
Qed.

(** X2: the live preview of a drag is absolute, not incremental: a drag
    update overrides the one before it, so two updates in a row leave the
    application state the last one alone would leave. *)
Theorem updateDragging_overrides_previous_update p1 p2 st :
  updateDragging p2 (updateDragging p1 st) = updateDragging p2 st.
Proof.
  unfold updateDragging at 2.
  destruct (diagramData st) as [d|] eqn:Hd; [|done].
  destruct (mode (interactionState st)) eqn:Hm; try done.
  destruct (dragStart (interactionState st)) as [start|] eqn:Hs; [|done].
  unfold updateDragging. simpl. rewrite Hd, Hm, Hs. simpl.
  unfold update_interactionState, set_pointHeap. simpl. f_equal.
  apply (forEach_forEach
           (drag_point (interactionState st) (x p2 - x start) (y p2 - y start))
           (drag_point (interactionState st) (x p1 - x start) (y p1 - y start))).
  - intros pt. apply drag_point_idem.
  - intros pt. apply drag_point_idem.
  - intros pt. apply drag_point_absorbs.
Qed.

Lemma drag_gesture_snoc start moves position st :
  drag_gesture start (moves ++ [position]) st
    = updateDragging position (drag_gesture start moves st).
Proof. unfold drag_gesture. by rewrite foldl_app. Qed.

(** A significant commit, in any dragging state. *)
Lemma endDragging_significant cfg position st start :
  mode (interactionState st) = DRAGGING →
  dragStart (interactionState st) = Some start →
  isSignificant cfg (x position - x start) (y position - y start) = true →
  endDragging cfg position st =
    let result :=
      {| moved_points := selectedPoints (interactionState st);
         dx := (x position - x start)%float; dy := (y position - y start)%float |} in
    (Some result,
     set_positionUpdateEvent (Some result)
       (update_interactionState (λ state,
          {| mode := NONE; dragStart := None; dragEnd := None;
             panStart := panStart state;
             selectedPoints := selectedPoints state;
             originalPositions := originalPositions state |}) st)).
Proof.
  intros Hm Hs Hsig. unfold endDragging. by rewrite Hm, Hs, Hsig.
Qed.

(** X3: a drag gesture on a loaded diagram with distinct point identifiers
    whose release lies beyond the threshold in [x] or in [y] is committed:
    [endDragging] returns, and publishes as the position-update event, the
    selected identifiers in selection order with [(dx, dy) = position -
    dragStart]; the mode is NONE and no remote call is made.  [endDragging]
    itself moves no point: every selected point of the diagram is where the
    last preview put it, at its position before the drag plus the offset of
    the last pointer move from [dragStart] (or where it was, if there was no
    move), and every other point is where it was.  So the points agree with
    the published [(dx, dy)] when the last move was at the release position,
    and need not otherwise. *)
Theorem significant_drag_commits_the_preview cfg st0 d start moves position :
  diagramData st0 = Some d →
  distinct_iris (pointHeap st0) (points d) →
  (dragThreshold cfg <? Math_abs (x position - x start))%float = true
    ∨ (dragThreshold cfg <? Math_abs (y position - y start))%float = true →
  let st := drag_gesture start moves st0 in
  let selected := selectedPoints (interactionState st0) in
  let result :=
    {| moved_points := selected;
       dx := (x position - x start)%float; dy := (y position - y start)%float |} in
  let st' := (endDragging cfg position st).2 in
  let previewed pt :=
    match last moves with
    | Some p => set_xy (point_x pt + (x p - x start)) (point_y pt + (y p - y start)) pt
    | None => pt
    end in
  (endDragging cfg position st).1 = Some result ∧
  positionUpdateEvent st' = Some result ∧
  remoteCalls st' = remoteCalls st0 ∧
  mode (interactionState st') = NONE ∧
  dragStart (interactionState st') = None ∧
  dragEnd (interactionState st') = None ∧
  selectedPoints (interactionState st') = selected ∧
  pointHeap st' = pointHeap st ∧
  (∀ r pt, r ∈ points d → pointHeap st0 !! r = Some pt → iri pt ∈ selected →
     pointHeap st' !! r = Some (previewed pt)) ∧
  (∀ r pt, pointHeap st0 !! r = Some pt → r ∉ points d ∨ iri pt ∉ selected →
     pointHeap st' !! r = Some pt) ∧
  (last moves = Some position →
   ∀ r pt, r ∈ points d → pointHeap st0 !! r = Some pt → iri pt ∈ selected →
     pointHeap st' !! r
       = Some (set_xy (point_x pt + dx result) (point_y pt + dy result) pt)).
Proof.
  intros Hd Hdist Hbeyond st selected result st' previewed.
  pose proof (drag_gesture_dragging_from st0 d start moves Hd) as Hinv.
  fold st in Hinv. destruct Hinv as (Hsame & Hm & Hs & _ & Hsel & _ & _).
  assert (isSignificant cfg (x position - x start) (y position - y start) = true) as Hsig.
  { unfold isSignificant, gtb. apply orb_true_iff. tauto. }
  pose proof (endDragging_significant cfg position st start Hm Hs Hsig) as Hend.
  subst st'. rewrite Hend. simpl. rewrite Hsel. fold selected. fold result.
  destruct Hsame as (_ & _ & _ & _ & _ & _ & _ & _ & Hrc).
  do 8 (split; [done|]).
  assert ((∀ r pt, r ∈ points d → pointHeap st0 !! r = Some pt → iri pt ∈ selected →
             pointHeap st !! r = Some (previewed pt)) ∧
          (∀ r pt, pointHeap st0 !! r = Some pt → r ∉ points d ∨ iri pt ∉ selected →
             pointHeap st !! r = Some pt)) as [Hmoved Hkept].
  { subst st previewed. clear Hm Hs Hsel Hend Hrc.
    destruct moves as [|p0 moves0] using rev_ind.
    - assert (pointHeap (drag_gesture start [] st0) = pointHeap st0) as ->
        by (unfold drag_gesture, startDragging; simpl; by rewrite Hd).
      by split.
    - clear IHmoves0. rename moves0 into moves. rename p0 into p.
      rewrite last_snoc.
      pose proof (drag_gesture_dragging_from st0 d start moves Hd)
        as (Hsame0 & Hm0 & Hs0 & _ & Hsel0 & Ho0 & Hheap0).
      assert (diagramData (drag_gesture start moves st0) = Some d) as Hd1.
      { destruct Hsame0 as (_ & _ & -> & _). done. }
      assert (∀ r, pointHeap (drag_gesture start (moves ++ [p]) st0) !! r =
        if bool_decide (r ∈ points d)
        then drag_point (interactionState (drag_gesture start moves st0))
               (x p - x start) (y p - y start)
               <$> pointHeap (drag_gesture start moves st0) !! r
        else pointHeap (drag_gesture start moves st0) !! r) as Hlookup.
      { intros r. rewrite drag_gesture_snoc. by apply updateDragging_lookup. }
      split.
      + intros r pt Hr Hpt Hptsel. rewrite Hlookup, bool_decide_eq_true_2 by done.
        assert (JSSet.has (selectedPoints (interactionState (drag_gesture start moves st0)))
                  (iri pt) = true) as Hhas
          by (rewrite Hsel0; by apply JSSet_has_true).
        assert (originalPositions (interactionState (drag_gesture start moves st0)) !! iri pt
                = Some {| x := point_x pt; y := point_y pt |}) as Horig
          by (rewrite Ho0; eapply snapshot_lookup_own; eauto).
        destruct (Hheap0 r) as [Heq|(pt' & a & b & _ & Hpt' & _ & Hcur)].
        * rewrite Heq, Hpt. simpl. unfold drag_point. by rewrite Hhas, Horig.
        * rewrite Hcur. simpl. unfold drag_point. simpl.
          assert (pt' = pt) as -> by congruence. by rewrite Hhas, Horig.
      + intros r pt Hpt Hcases. rewrite Hlookup.
        destruct (Hheap0 r) as [Heq|(pt' & a & b & Hin & Hpt' & Hptsel & _)].
        * rewrite Heq, Hpt. case_bool_decide as Hin; [|done].
          destruct Hcases as [?|Hnsel]; [done|]. simpl. unfold drag_point.
          assert (JSSet.has (selectedPoints (interactionState (drag_gesture start moves st0)))
                    (iri pt) = false) as ->
            by (rewrite Hsel0; by apply JSSet_has_false).
          done.
        * assert (pt' = pt) as -> by congruence. destruct Hcases; done. }
  split; [exact Hmoved|]. split; [exact Hkept|].
  intros Hlast r pt Hr Hpt Hptsel. rewrite (Hmoved r pt Hr Hpt Hptsel).
  subst previewed. simpl. by rewrite Hlast.
Qed.

Lemma significant_drag_commits_the_preview_witness :
  let start := {| x := 0; y := 0 |} in
  let release := {| x := 20; y := 30 |} in
  let early := drag_gesture start [{| x := 1; y := 1 |}] Example.line_selected in
  let late := drag_gesture start [{| x := 1; y := 1 |}; release] Example.line_selected in
  (dragThreshold Example.config <? Math_abs (20 - 0))%float = true ∧
  ((endDragging Example.config release early).1
     = Some {| moved_points := ["P1"]; dx := 20; dy := 30 |} ∧
   pointHeap (endDragging Example.config release early).2 !! 2%positive
     = Some (Example.P "P1" 11 1 1 1%positive [])) ∧
  ((endDragging Example.config release late).1
     = Some {| moved_points := ["P1"]; dx := 20; dy := 30 |} ∧
   pointHeap (endDragging Example.config release late).2 !! 2%positive
     = Some (Example.P "P1" 30 30 1 1%positive [])).
Proof.
  intros start release early late. split; [vm_compute; reflexivity|].
  assert (distinct_iris (pointHeap Example.line_selected) [1; 2; 3]%positive) as Hdist
    by (unfold distinct_iris; apply (bool_decide_unpack _); vm_compute; reflexivity).
  assert (2%positive ∈ [1; 2; 3]%positive) as Hin
    by (apply (bool_decide_unpack _); vm_compute; reflexivity).
  assert ("P1" ∈ selectedPoints (interactionState Example.line_selected)) as Hsel
    by (apply (bool_decide_unpack _); vm_compute; reflexivity).
  split.
  - destruct (significant_drag_commits_the_preview Example.config Example.line_selected
                {| objects := [1%positive]; points := [1; 2; 3]%positive |}
                start [{| x := 1; y := 1 |}] release eq_refl Hdist
                (or_introl eq_refl))
      as (Hres & _ & _ & _ & _ & _ & _ & _ & Hmoved & _).
    split; [exact Hres|].
    exact (Hmoved 2%positive (Example.P "P1" 10 0 1 1%positive []) Hin eq_refl Hsel).
  - destruct (significant_drag_commits_the_preview Example.config Example.line_selected
                {| objects := [1%positive]; points := [1; 2; 3]%positive |}
                start [{| x := 1; y := 1 |}; release] release eq_refl Hdist
                (or_introl eq_refl))
      as (Hres & _ & _ & _ & _ & _ & _ & _ & _ & _ & Hagree).
    split; [exact Hres|].
    exact (Hagree eq_refl 2%positive (Example.P "P1" 10 0 1 1%positive []) Hin eq_refl Hsel).
Defined.

(** X4: while no diagram is loaded a drag gesture does nothing at all:
    [startDragging] does not enter the DRAGGING mode, so the updates and the
    commit are no-ops, and [endDragging] returns null. *)
Theorem drag_without_diagram_does_nothing cfg start moves position st :
  diagramData st = None →
  mode (interactionState st) ≠ DRAGGING →
  drag_gesture start moves st = st ∧
  endDragging cfg position (drag_gesture start moves st) = (None, st).
Proof.
  intros Hd Hm.
  assert (drag_gesture start moves st = st) as Hst.
  { unfold drag_gesture, startDragging. rewrite Hd.
    induction moves as [|p moves IH] using rev_ind; [done|].
    rewrite foldl_app. simpl. rewrite IH. apply updateDragging_noop. by left. }
  rewrite Hst. split; [done|]. apply endDragging_noop. by left.
Qed.

Lemma drag_without_diagram_does_nothing_witness :
  diagramData Scene.unloaded = None ∧
  endDragging Example.config {| x := 50; y := 50 |}
    (drag_gesture {| x := 0; y := 0 |} [{| x := 50; y := 50 |}] Scene.unloaded)
    = (None, Scene.unloaded).
Proof.
  split; [reflexivity|].
  apply (drag_without_diagram_does_nothing Example.config {| x := 0; y := 0 |}
           [{| x := 50; y := 50 |}] {| x := 50; y := 50 |} Scene.unloaded).
  - reflexivity.
  - discriminate.
Defined.

(** ** Rectangle selection, continued *)

Lemma updateSelecting_selecting a b position st :
  updateSelecting position (selecting a b st) = selecting a position st.
Proof. reflexivity. Qed.

(** The state a rectangle gesture has reached before its release. *)
Lemma selecting_moves start moves st :
  foldl (λ st position, updateSelecting position st) (startSelecting start st) moves
    = selecting start (default start (last moves)) st.
Proof.
  induction moves as [|p moves IH] using rev_ind; [done|].
  rewrite foldl_app. simpl. rewrite IH, updateSelecting_selecting.
  by rewrite last_snoc.
Qed.

(** X5: while no diagram is loaded [completeSelecting] returns without
    ending the gesture: a rectangle selection from press to release leaves
    the mode at SELECTING with both corners set, and the selection as it
    was. *)
Theorem rectangle_gesture_without_diagram_stays_open start moves release st :
  diagramData st = None →
  let st' := select_gesture start (moves ++ [release]) st in
  st' = selecting start release st ∧
  mode (interactionState st') = SELECTING ∧
  dragStart (interactionState st') = Some start ∧
  dragEnd (interactionState st') = Some release ∧
  selectedPoints (interactionState st') = selectedPoints (interactionState st).
Proof.
  intros Hd st'. subst st'. unfold select_gesture.
  rewrite selecting_moves, last_snoc. simpl.
  unfold completeSelecting. simpl. by rewrite Hd.
Qed.

Lemma rectangle_gesture_without_diagram_stays_open_witness :
  diagramData Scene.unloaded = None ∧
  mode (interactionState
          (select_gesture {| x := -5; y := -5 |} ([] ++ [{| x := 50; y := 50 |}])
             Scene.unloaded)) = SELECTING.
Proof.
  split; [reflexivity|].
  apply (rectangle_gesture_without_diagram_stays_open {| x := -5; y := -5 |} []
           {| x := 50; y := 50 |} Scene.unloaded).
  reflexivity.
Defined.

Lemma is_nan_false_not_nan a : is_nan a = false → Prim2SF a ≠ S754_nan.
Proof.
  unfold is_nan. rewrite FloatAxioms.eqb_spec. unfold SFeqb.
  intros H Hn. rewrite Hn in H. discriminate H.
Qed.

Lemma SFcompare_Eq f1 f2 :
  SFcompare f1 f2 = Some Eq →
  f1 = f2 ∨ (∃ s1 s2, f1 = S754_zero s1 ∧ f2 = S754_zero s2).
Proof.
  destruct f1 as [s1|s1| |s1 m1 e1], f2 as [s2|s2| |s2 m2 e2]; simpl; try discriminate;
    try (destruct s1; discriminate); try (destruct s2; discriminate).
  - intros _. right. eauto.
  - destruct s1, s2; try discriminate; by left.
  - destruct s1, s2; try discriminate.
    + destruct (e1 ?= e2)%Z eqn:He; try discriminate.
      apply Z.compare_eq in He as ->. intros [= H].
      destruct (PosDef.Pos.compare_cont Eq m1 m2) eqn:Hm; try discriminate.
      apply Pos.compare_eq in Hm as ->. by left.
    + destruct (e1 ?= e2)%Z eqn:He; try discriminate.
      apply Z.compare_eq in He as ->. intros [= H].
      apply Pos.compare_eq in H as ->. by left.
Qed.

Lemma float_zero_cases a s : Prim2SF a = S754_zero s → a = (if s then neg_zero else zero).
Proof. intros H. apply Prim2SF_inj. rewrite H. by destruct s. Qed.

(** Two numbers neither of which is below the other are the same number, or
    are the two zeros. *)
Lemma float_unordered_cases a b :
  is_nan a = false → is_nan b = false →
  (a <? b)%float = false → (b <? a)%float = false →
  a = b ∨ (a = zero ∧ b = neg_zero) ∨ (a = neg_zero ∧ b = zero).
Proof.
  intros Ha Hb Hab Hba.
  apply is_nan_false_not_nan in Ha. apply is_nan_false_not_nan in Hb.
  rewrite ltb_spec in Hab, Hba. unfold SFltb in *.
  rewrite (SFcompare_antisym (Prim2SF a) (Prim2SF b)) in Hba.
  destruct (SFcompare (Prim2SF a) (Prim2SF b)) as [[]|] eqn:Hc; simpl in *; try discriminate.
  - apply SFcompare_Eq in Hc as [Heq|(s1 & s2 & H1 & H2)].
    + left. by apply Prim2SF_inj.
    + apply float_zero_cases in H1, H2. subst. destruct s1, s2; auto.
  - exfalso. destruct (Prim2SF a) as [| | |], (Prim2SF b) as [| | |]; simpl in Hc; congruence.
Qed.

Lemma ltb_asym a b : (a <? b)%float = true → (b <? a)%float = false.
Proof.
  rewrite !ltb_spec. unfold SFltb.
  rewrite (SFcompare_antisym (Prim2SF a) (Prim2SF b)).
  destruct (SFcompare (Prim2SF a) (Prim2SF b)) as [[]|]; simpl; congruence.
Qed.

Lemma Math_min_comm a b : Math_min a b = Math_min b a.
Proof.
  unfold Math_min. rewrite (orb_comm (is_nan b)).
  destruct (is_nan a) eqn:Ha, (is_nan b) eqn:Hb; simpl; try done.
  destruct (a <? b)%float eqn:Hab.
  - by rewrite (ltb_asym _ _ Hab).
  - destruct (b <? a)%float eqn:Hba; [done|].
    destruct (float_unordered_cases a b Ha Hb Hab Hba) as [->|[[-> ->]|[-> ->]]];
      [by destruct (get_sign b) | done | done].
Qed.

Lemma Math_max_comm a b : Math_max a b = Math_max b a.
Proof.
  unfold Math_max. rewrite (orb_comm (is_nan b)).
  destruct (is_nan a) eqn:Ha, (is_nan b) eqn:Hb; simpl; try done.
  destruct (a <? b)%float eqn:Hab.
  - by rewrite (ltb_asym _ _ Hab).
  - destruct (b <? a)%float eqn:Hba; [done|].
    destruct (float_unordered_cases a b Ha Hb Hab Hba) as [->|[[-> ->]|[-> ->]]];
      [by destruct (get_sign b) | done | done].
Qed.

(** X6: on a loaded diagram a rectangle selection does not depend on the
    direction it is dragged in, nor on the path of the pointer: pressing at
    [a] and releasing at [b] leaves the application state that pressing at [b]
    and releasing at [a] leaves, NaN and signed zeros included. *)
Theorem rectangle_selection_ignores_drag_direction a b moves moves' st d :
  diagramData st = Some d →
  select_gesture a (moves ++ [b]) st = select_gesture b (moves' ++ [a]) st.
Proof.
  intros Hd. unfold select_gesture.
  rewrite !selecting_moves, !last_snoc. simpl.
  unfold completeSelecting. simpl. rewrite Hd.
  rewrite (Math_min_comm (x b) (x a)), (Math_min_comm (y b) (y a)).
  by rewrite (Math_max_comm (x b) (x a)), (Math_max_comm (y b) (y a)).
Qed.

Lemma rectangle_selection_ignores_drag_direction_witness :
  diagramData Example.line = Some {| objects := [1%positive]; points := [1; 2; 3]%positive |} ∧
  select_gesture {| x := -1; y := -1 |} ([{| x := 3; y := 40 |}] ++ [{| x := 11; y := 5 |}])
    Example.line
  = select_gesture {| x := 11; y := 5 |} ([] ++ [{| x := -1; y := -1 |}]) Example.line ∧
  selectedPoints (interactionState
    (select_gesture {| x := 11; y := 5 |} ([] ++ [{| x := -1; y := -1 |}]) Example.line))
  = ["P0"; "P1"].
Proof.
  split; [reflexivity|]. split; [|vm_compute; reflexivity].
  apply (rectangle_selection_ignores_drag_direction {| x := -1; y := -1 |}
           {| x := 11; y := 5 |} [{| x := 3; y := 40 |}] [] Example.line
           {| objects := [1%positive]; points := [1; 2; 3]%positive |}).
  reflexivity.
Defined.

(** ** Panning *)

Lemma pan_moves_cons start position moves st :
  pan_moves start (position :: moves) st
    = pan_moves position moves
        (set_viewTransform
           {| scale := scale (viewTransform st);
              offsetX := (offsetX (viewTransform st) + (x position - x start))%float;
              offsetY := (offsetY (viewTransform st) + (y position - y start))%float |}
           st).
Proof. reflexivity. Qed.

Lemma pan_moves_spec start moves st :
  let st' := pan_moves start moves st in
  viewTransform st' =
    {| scale := scale (viewTransform st);
       offsetX := pan_offset x (offsetX (viewTransform st)) start moves;
       offsetY := pan_offset y (offsetY (viewTransform st)) start moves |} ∧
  mode (interactionState st') = PANNING ∧
  panStart (interactionState st') = Some (default start (last moves)) ∧
  dragStart (interactionState st') = dragStart (interactionState st) ∧
  dragEnd (interactionState st') = dragEnd (interactionState st) ∧
  selectedPoints (interactionState st') = selectedPoints (interactionState st) ∧
  originalPositions (interactionState st') = originalPositions (interactionState st) ∧
  pointHeap st' = pointHeap st ∧ objectHeap st' = objectHeap st ∧
  diagramData st' = diagramData st ∧ remoteCalls st' = remoteCalls st ∧
  positionUpdateEvent st' = positionUpdateEvent st.
Proof.
  revert start st. induction moves as [|position moves IH]; intros start st.
  - simpl. by destruct (viewTransform st).
  - rewrite pan_moves_cons.
    specialize (IH position
      (set_viewTransform
         {| scale := scale (viewTransform st);
            offsetX := (offsetX (viewTransform st) + (x position - x start))%float;
            offsetY := (offsetY (viewTransform st) + (y position - y start))%float |} st)).
    cbv zeta in IH. destruct IH as (Hv & Hm & Hp & Hrest). cbv zeta.
    split; [rewrite Hv; reflexivity|]. split; [exact Hm|]. split; [|exact Hrest].
    rewrite Hp. destruct moves as [|p moves]; [reflexivity|].
    change (last (position :: p :: moves)) with (last (p :: moves)).
    assert (is_Some (last (p :: moves))) as [q ->] by (by apply last_is_Some).
    reflexivity.
Qed.

(** X7: a pan, from press over any pointer moves to release, changes the
    offsets of the view and nothing else that outlives it: the scale, the
    selection, the drag corners, the snapshot map, all points and the diagram
    are as before, no event and no remote call is produced, and the mode ends
    at NONE with [panStart] cleared.  Each move adds to the offset its
    distance from the pointer position of the move before (from the press,
    for the first).  Outside the PANNING mode [updatePanning] does nothing. *)
Theorem pan_moves_the_view_and_nothing_else start moves st :
  let st' := endPanning (pan_moves start moves st) in
  viewTransform st' =
    {| scale := scale (viewTransform st);
       offsetX := pan_offset x (offsetX (viewTransform st)) start moves;
       offsetY := pan_offset y (offsetY (viewTransform st)) start moves |} ∧
  mode (interactionState st') = NONE ∧
  panStart (interactionState st') = None ∧
  dragStart (interactionState st') = dragStart (interactionState st) ∧
  dragEnd (interactionState st') = dragEnd (interactionState st) ∧
  selectedPoints (interactionState st') = selectedPoints (interactionState st) ∧
  originalPositions (interactionState st') = originalPositions (interactionState st) ∧
  pointHeap st' = pointHeap st ∧ objectHeap st' = objectHeap st ∧
  diagramData st' = diagramData st ∧ remoteCalls st' = remoteCalls st ∧
  positionUpdateEvent st' = positionUpdateEvent st ∧
  (∀ position st0,
     mode (interactionState st0) ≠ PANNING ∨ panStart (interactionState st0) = None →
     updatePanning position st0 = st0).
Proof.
  intros st'. subst st'.
  destruct (pan_moves_spec start moves st) as (Hv & _ & _ & Hrest).
  unfold endPanning. simpl.
  split; [exact Hv|]. split; [done|]. split; [done|].
  destruct Hrest as (? & ? & ? & ? & ? & ? & ? & ? & ?).
  do 9 (split; [done|]).
  intros position st0 Hguard. unfold updatePanning.
  destruct (mode (interactionState st0)) eqn:Hm; try done.
  destruct (panStart (interactionState st0)); [|done]. by destruct Hguard.
Qed.

(** ** The snapshot of [startDragging], continued *)

(** X8: on a loaded diagram whose points bear distinct identifiers
    [startDragging] moves no point and stores, for every selected point of the
    diagram, the position it has at that moment; every entry of the snapshot
    map is the position of such a point.  This holds in any mode, so a drag
    that is started again while one is in progress takes the previewed
    positions as its snapshot. *)
Theorem startDragging_snapshots_current_positions position st d :
  diagramData st = Some d →
  distinct_iris (pointHeap st) (points d) →
  let st' := startDragging position st in
  pointHeap st' = pointHeap st ∧
  dragStart (interactionState st') = Some position ∧
  dragEnd (interactionState st') = Some position ∧
  selectedPoints (interactionState st') = selectedPoints (interactionState st) ∧
  (∀ r pt, r ∈ points d → pointHeap st !! r = Some pt →
     iri pt ∈ selectedPoints (interactionState st) →
     originalPositions (interactionState st') !! iri pt
       = Some {| x := point_x pt; y := point_y pt |}) ∧
  (∀ k original, originalPositions (interactionState st') !! k = Some original →
     k ∈ selectedPoints (interactionState st) ∧
     ∃ r pt, r ∈ points d ∧ pointHeap st !! r = Some pt ∧ iri pt = k ∧
             original = {| x := point_x pt; y := point_y pt |}).
Proof.
  intros Hd Hdist st'. subst st'. unfold startDragging. rewrite Hd. simpl.
  do 4 (split; [done|]). split.
  - intros r pt Hr Hpt Hsel. by eapply snapshot_lookup_own.
  - intros k original Hk. split.
    + assert (is_Some (snapshot (pointHeap st) (selectedPoints (interactionState st))
                         (points d) !! k)) as Hsome by (by eexists).
      by apply snapshot_is_Some in Hsome as [? _].
    + by apply snapshot_lookup_Some in Hk.
Qed.

Lemma startDragging_snapshots_current_positions_witness :
  let st := updateDragging {| x := 4; y := 6 |}
              (startDragging {| x := 0; y := 0 |} Example.line_selected) in
  distinct_iris (pointHeap st) [1; 2; 3]%positive ∧
  originalPositions (interactionState (startDragging {| x := 4; y := 6 |} st)) !! "P1"
    = Some {| x := 14; y := 6 |}.
Proof.
  intros st.
  assert (distinct_iris (pointHeap st) [1; 2; 3]%positive) as Hdist
    by (unfold distinct_iris; apply (bool_decide_unpack _); vm_compute; reflexivity).
  split; [exact Hdist|].
  destruct (startDragging_snapshots_current_positions {| x := 4; y := 6 |} st
              {| objects := [1%positive]; points := [1; 2; 3]%positive |})
    as (_ & _ & _ & _ & Hown & _); [reflexivity|exact Hdist|].
  apply (Hown 2%positive (Example.P "P1" 14 6 1 1%positive [])).
  - apply (bool_decide_unpack _). vm_compute. reflexivity.
  - vm_compute. reflexivity.
  - apply (bool_decide_unpack _). vm_compute. reflexivity.
Defined.

(** ** Inserting a point, continued *)

(** X9: an insert whose remote call resolved leaves the new point as the
    only selected point, the status at ["New point added"] and the loading
    flag cleared; it issued one remote call; it changed no point but in its
    sequence number, no object but the target (whose identifier it keeps),
    not the diagram's list of objects, and neither the mode, the drag and pan
    anchors, the snapshot map nor the view. *)
Theorem resolved_insert_selects_the_new_point
    cfg object obj d position insertIndex uuid st :
  objectHeap st !! object = Some obj →
  diagramData st = Some d →
  let st' := addNewPointToLine cfg Resolved object position insertIndex uuid st in
  selectedPoints (interactionState st') = [newPointIri uuid] ∧
  statusText st' = "New point added" ∧
  isLoading st' = false ∧
  length (remoteCalls st') = S (length (remoteCalls st)) ∧
  (∀ r p, pointHeap st !! r = Some p →
     ∃ seq, pointHeap st' !! r = Some (set_sequenceNumber seq p)) ∧
  (∀ o, o ≠ object → objectHeap st' !! o = objectHeap st !! o) ∧
  (object_iri <$> objectHeap st' !! object) = Some (object_iri obj) ∧
  (objects <$> diagramData st') = Some (objects d) ∧
  mode (interactionState st') = mode (interactionState st) ∧
  dragStart (interactionState st') = dragStart (interactionState st) ∧
  dragEnd (interactionState st') = dragEnd (interactionState st) ∧
  panStart (interactionState st') = panStart (interactionState st) ∧
  originalPositions (interactionState st') = originalPositions (interactionState st) ∧
  viewTransform st' = viewTransform st.
Proof.
  intros Ho Hd st'.
  destruct (addNewPointToLine_begin_Awaiting cfg object obj d position insertIndex uuid st
              Ho Hd)
    as (st1 & Hbegin & Hobj & Hheap & Hdia & Hint & Hview & _ & _ & _ & _ & _ & Hcalls).
  subst st'. unfold addNewPointToLine. rewrite Hbegin. simpl.
  rewrite Hint, Hview, Hobj, Hdia, Hcalls, Hheap. simpl.
  do 3 (split; [done|]).
  split; [rewrite length_app; simpl; lia|].
  split.
  { intros r p Hp.
    assert (r ≠ newRef (pointHeap st)) as Hne
      by (intros ->; by rewrite newRef_fresh in Hp).
    match goal with
    | |- context [renumber 0 ?rs ?h] =>
        destruct (renumber_lookup_cases 0 rs h r) as [Heq|(seq & p' & Hp' & Heq)]
    end.
    - exists (sequenceNumber p).
      by rewrite Heq, lookup_insert_ne, Hp, set_sequenceNumber_same.
    - exists seq. rewrite Heq. rewrite lookup_insert_ne in Hp' by done. congruence. }
  split; [intros o Hne; by rewrite lookup_insert_ne|].
  split; [by rewrite lookup_insert_eq|]. done.
Qed.

Lemma resolved_insert_selects_the_new_point_witness :
  let st' := addNewPointToLine Example.config Resolved 1%positive
               {| x := 5; y := 0 |} 1 "u" Example.line_selected in
  selectedPoints (interactionState Example.line_selected) = ["P1"] ∧
  selectedPoints (interactionState st') = ["http://tempuri.org/point/u"] ∧
  statusText st' = "New point added".
Proof.
  intros st'.
  destruct (resolved_insert_selects_the_new_point Example.config 1%positive
              {| object_iri := "O"; object_points := [1; 2; 3]%positive |}
              {| objects := [1%positive]; points := [1; 2; 3]%positive |}
              {| x := 5; y := 0 |} 1 "u" Example.line_selected)
    as (Hsel & Hstatus & _); [reflexivity..|].
  split; [reflexivity|]. split; [exact Hsel|exact Hstatus].
Defined.

(** ** What the remote calls carry *)

Lemma sequenceUpdates_of_live h rs :
  live h rs →
  sequenceUpdates_of h rs
    = (λ r, from_option (λ p, (iri p, sequenceNumber p)) ("", 0%Z) (h !! r)) <$> rs.
Proof.
  unfold sequenceUpdates_of.
  induction 1 as [|r rs [p Hp] _ IH]; [done|].
  simpl. rewrite Hp. simpl. f_equal. exact IH.
Qed.

Lemma sequenceUpdates_of_numbered h rs j r :
  numbered h rs → rs !! j = Some r →
  ∃ pt, h !! r = Some pt ∧ sequenceUpdates_of h rs !! j = Some (iri pt, Z.of_nat j).
Proof.
  intros Hnum Hj.
  assert (live h rs) as Hlive.
  { apply Forall_forall. intros r' Hr'. apply list_elem_of_lookup in Hr' as [i Hi].
    pose proof (Hnum i r' Hi) as Hs. by destruct (h !! r'); [eexists|]. }
  pose proof (Hnum j r Hj) as Hs.
  destruct (h !! r) as [pt|] eqn:Hpt; [|done]. simpl in Hs. injection Hs as Hs.
  exists pt. split; [done|].
  rewrite sequenceUpdates_of_live, list_lookup_fmap, Hj by done. simpl.
  by rewrite Hpt, <- Hs.
Qed.

Lemma length_sequenceUpdates_of h rs :
  live h rs → length (sequenceUpdates_of h rs) = length rs.
Proof. intros Hlive. by rewrite sequenceUpdates_of_live, length_fmap. Qed.

Lemma numbered_live h rs : numbered h rs → live h rs.
Proof.
  intros Hnum. apply Forall_forall. intros r Hr.
  apply list_elem_of_lookup in Hr as [i Hi].
  pose proof (Hnum i r Hi) as Hs. by destruct (h !! r); [eexists|].
Qed.

(** The object's array after an insert is numbered in the heap the insert
    leaves. *)
Lemma splice_insert_renumber_numbered h rs insertIndex newPoint :
  live h rs → NoDup rs →
  let r := newRef h in
  let rs' := splice_insert insertIndex r rs in
  numbered (renumber 0 rs' (<[r := newPoint]> h)) rs'.
Proof.
  intros Hlive Hnd r rs'. apply renumber_numbered.
  - apply NoDup_splice_insert; [by apply newRef_not_live | done].
  - apply Forall_forall. intros r' Hr'.
    apply elem_of_splice_insert in Hr' as [->|Hr'].
    + rewrite lookup_insert_eq. by eexists.
    + eapply Forall_forall in Hlive; [|exact Hr'].
      destruct (decide (r = r')) as [->|Hne];
        [rewrite lookup_insert_eq; by eexists | by rewrite lookup_insert_ne].
Qed.

(** X10: on an object whose point array is live and repeats no point, in a
    loaded diagram, the remote calls carry the local renumbering.  The insert
    call names the new point, its object, its position and the requested
    index, under the namespace of the current CGMES version, and lists every
    point of the object once, in array order, with its identifier and its new
    sequence number (its index); the new point's entry agrees with the
    requested index when that index lies in [0 .. n].  The delete call names
    the deleted point and lists the remaining points the same way. *)
Theorem remote_calls_carry_the_renumbering cfg object obj d st :
  objectHeap st !! object = Some obj →
  diagramData st = Some d →
  live (pointHeap st) (object_points obj) →
  NoDup (object_points obj) →
  (∀ position insertIndex uuid,
     let st' := state_of (addNewPointToLine_begin cfg object position insertIndex uuid st) in
     let rs' := splice_insert insertIndex (newRef (pointHeap st)) (object_points obj) in
     ∃ updates,
       remoteCalls st' = remoteCalls st ++
         [InsertNewPoint (newPointIri uuid) (object_iri obj) (x position) (y position)
            insertIndex updates (namespaces cfg (cgmesVersion st))] ∧
       length updates = S (length (object_points obj)) ∧
       (∀ j r, rs' !! j = Some r →
          ∃ pt, pointHeap st' !! r = Some pt ∧ updates !! j = Some (iri pt, Z.of_nat j)) ∧
       ((0 ≤ insertIndex ≤ Z.of_nat (length (object_points obj)))%Z →
        updates !! Z.to_nat insertIndex = Some (newPointIri uuid, insertIndex))) ∧
  (∀ point pt st',
     pointHeap st !! point = Some pt →
     parentObject pt = Some object →
     deletePointFromLine_begin cfg point st = Awaiting st' →
     ∃ updates obj',
       remoteCalls st' = remoteCalls st ++
         [DeletePoint (iri pt) updates (namespaces cfg (cgmesVersion st))] ∧
       objectHeap st' !! object = Some obj' ∧
       length updates = length (object_points obj') ∧
       (∀ j r, object_points obj' !! j = Some r →
          ∃ p, pointHeap st' !! r = Some p ∧ updates !! j = Some (iri p, Z.of_nat j))).
Proof.
  intros Ho Hd Hlive Hnd. split.
  - intros position insertIndex uuid st' rs'.
    destruct (addNewPointToLine_begin_Awaiting cfg object obj d position insertIndex uuid st
                Ho Hd)
      as (st1 & Hbegin & _ & Hheap & _ & _ & _ & _ & _ & _ & _ & _ & Hcalls).
    subst st'. rewrite Hbegin. simpl. fold rs' in Hheap, Hcalls.
    pose proof (splice_insert_renumber_numbered (pointHeap st) (object_points obj)
                  insertIndex
                  {| iri := newPointIri uuid; point_x := x position;
                     point_y := y position; sequenceNumber := insertIndex;
                     parentObject := Some object; gluedTo := [] |} Hlive Hnd) as Hnum.
    cbv zeta in Hnum. fold rs' in Hnum. rewrite <- Hheap in Hnum.
    eexists. split; [exact Hcalls|]. rewrite Hheap in *.
    split.
    { rewrite length_sequenceUpdates_of by (by apply numbered_live).
      apply length_splice_insert. }
    split.
    { intros j r Hj. by apply sequenceUpdates_of_numbered. }
    intros Hrange.
    assert (rs' !! Z.to_nat insertIndex = Some (newRef (pointHeap st))) as Hi.
    { unfold rs'. rewrite splice_insert_in_range by done.
      rewrite lookup_app_r by (rewrite length_take; lia).
      rewrite length_take. replace (_ - _) with 0 by lia. done. }
    destruct (sequenceUpdates_of_numbered _ _ _ _ Hnum Hi) as (pt & Hpt & Hup).
    rewrite Hup. rewrite renumber_lookup with (i := Z.to_nat insertIndex) in Hpt;
      [|apply NoDup_splice_insert; [by apply newRef_not_live|done] | done].
    rewrite lookup_insert_eq in Hpt. simpl in Hpt. injection Hpt as <-.
    simpl. by rewrite Z2Nat.id by lia.
  - intros point pt st' Hpt Hparent Hbegin.
    pose proof (deletePointFromLine_begin_cases cfg point pt object obj d st
                  Hpt Hd Hparent Ho) as Hcases. simpl in Hcases.
    destruct (_ || _); [congruence|].
    destruct Hcases as (st1 & Hbegin1 & Hobj & Hheap & _ & _ & _ & Hcalls).
    rewrite Hbegin in Hbegin1. injection Hbegin1 as <-.
    set (rs' := splice_delete
                  (findIndex (has_iri (pointHeap st) (iri pt)) (object_points obj))
                  (object_points obj)) in *.
    assert (numbered (pointHeap st') rs') as Hnum.
    { rewrite Hheap. apply renumber_numbered.
      - exact (sublist_NoDup _ _ Hnd (splice_delete_sublist _ _)).
      - eapply live_sublist; [apply splice_delete_sublist|done]. }
    eexists _, _. split; [exact Hcalls|].
    split; [by rewrite Hobj, lookup_insert_eq|]. simpl. rewrite <- Hheap.
    split; [by apply length_sequenceUpdates_of, numbered_live|].
    intros j r Hj. by apply sequenceUpdates_of_numbered.
Qed.

Lemma remote_calls_carry_the_renumbering_witness :
  NoDup [1; 2; 3]%positive ∧
  ∃ updates,
    remoteCalls (state_of (addNewPointToLine_begin Example.config 1%positive
                             {| x := 5; y := 0 |} 1 "u" Example.line))
    = [InsertNewPoint "http://tempuri.org/point/u" "O" 5 0 1 updates
         "http://iec.ch/TC57/CIM100#"] ∧
    length updates = 4 ∧
    updates !! 1 = Some ("http://tempuri.org/point/u", 1%Z).
Proof.
  assert (NoDup [1; 2; 3]%positive) as Hnd
    by (apply (bool_decide_unpack _); vm_compute; reflexivity).
  split; [exact Hnd|].
  destruct (remote_calls_carry_the_renumbering Example.config 1%positive
              {| object_iri := "O"; object_points := [1; 2; 3]%positive |}
              {| objects := [1%positive]; points := [1; 2; 3]%positive |}
              Example.line) as (Hinsert & _).
  - reflexivity.
  - reflexivity.
  - unfold live. apply (bool_decide_unpack _). vm_compute. reflexivity.
  - exact Hnd.
  - destruct (Hinsert {| x := 5; y := 0 |} 1%Z "u") as (updates & Hcalls & Hlen & _ & Hnew).
    exists updates. split; [exact Hcalls|]. split; [exact Hlen|].
    apply Hnew. simpl. lia.
Defined.

(** ** Deleting a point, continued *)

Lemma deletePointFromLine_begin_Awaiting_inv cfg point st st1 :
  deletePointFromLine_begin cfg point st = Awaiting st1 →
  ∃ pt d object obj,
    pointHeap st !! point = Some pt ∧ diagramData st = Some d ∧
    parentObject pt = Some object ∧ objectHeap st !! object = Some obj ∧
    interactionState st1 = interactionState st ∧
    viewTransform st1 = viewTransform st ∧
    selectedDiagram st1 = selectedDiagram st ∧
    cgmesVersion st1 = cgmesVersion st.
Proof.
  unfold deletePointFromLine_begin.
  destruct (pointHeap st !! point) as [pt|]; [|done].
  destruct (diagramData st) as [d|]; [|done].
  destruct (parentObject pt) as [object|] eqn:Hparent; [|done]. simpl.
  destruct (objectHeap st !! object) as [obj|] eqn:Ho; [|done]. simpl.
  destruct (_ || _); [done|]. intros [= <-]. exists pt, d, object, obj.
  simpl. by repeat split.
Qed.

(** X11: a delete whose remote call resolved takes the deleted identifier
    out of the selection and keeps every other selected identifier; the
    status is ["Point deleted successfully"], the loading flag is cleared, no
    error escapes, no further remote call is made, and heaps, diagram, view,
    mode, anchors and snapshot map are those of the local delete. *)
Theorem resolved_delete_deselects_the_point cfg query reload point pt st st1 :
  pointHeap st !! point = Some pt →
  deletePointFromLine_begin cfg point st = Awaiting st1 →
  let st' := (deletePointFromLine cfg query Resolved reload point st).1 in
  (deletePointFromLine cfg query Resolved reload point st).2 = None ∧
  statusText st' = "Point deleted successfully" ∧
  isLoading st' = false ∧
  (iri pt ∉ selectedPoints (interactionState st')) ∧
  (∀ k, k ≠ iri pt →
     k ∈ selectedPoints (interactionState st') ↔ k ∈ selectedPoints (interactionState st)) ∧
  mode (interactionState st') = mode (interactionState st) ∧
  dragStart (interactionState st') = dragStart (interactionState st) ∧
  dragEnd (interactionState st') = dragEnd (interactionState st) ∧
  panStart (interactionState st') = panStart (interactionState st) ∧
  originalPositions (interactionState st') = originalPositions (interactionState st) ∧
  pointHeap st' = pointHeap st1 ∧ objectHeap st' = objectHeap st1 ∧
  diagramData st' = diagramData st1 ∧ remoteCalls st' = remoteCalls st1 ∧
  viewTransform st' = viewTransform st.
Proof.
  intros Hpt Hbegin st'.
  destruct (deletePointFromLine_begin_Awaiting_inv _ _ _ _ Hbegin)
    as (pt' & d & object & obj & Hpt' & _ & _ & _ & Hint & Hview & _).
  subst st'. unfold deletePointFromLine. rewrite Hbegin.
  unfold iri_of. rewrite Hpt. simpl. rewrite Hint, Hview.
  do 3 (split; [done|]).
  destruct (JSSet.has (selectedPoints (interactionState st)) (iri pt)) eqn:Hhas; simpl.
  - split; [rewrite JSSet_elem_of_delete; tauto|].
    split; [|done]. intros k Hk. rewrite JSSet_elem_of_delete. tauto.
  - apply JSSet_has_false in Hhas. by repeat split.
Qed.

Lemma resolved_delete_deselects_the_point_witness :
  let st' := (deletePointFromLine Example.config Example.query Resolved
                (QueryFailed "unused") 2%positive Example.line_selected).1 in
  selectedPoints (interactionState Example.line_selected) = ["P1"] ∧
  ("P1" ∉ selectedPoints (interactionState st')) ∧
  statusText st' = "Point deleted successfully".
Proof.
  intros st'. split; [reflexivity|].
  destruct (resolved_delete_deselects_the_point Example.config Example.query
              (QueryFailed "unused") 2%positive (Example.P "P1" 10 0 1 1%positive [])
              Example.line_selected
              (state_of (deletePointFromLine_begin Example.config 2%positive
                           Example.line_selected)))
    as (_ & Hstatus & _ & Hgone & _); [reflexivity..|].
  split; [exact Hgone|exact Hstatus].
Defined.

(** X12: a delete whose remote call failed is repaired by a reload only.
    With no diagram selected nothing is reloaded and the local delete stays
    in place, under the status ["Error: " + message], with no error escaping.
    With a diagram selected its layout is queried again: if that query
    succeeds the loaded graph replaces the diagram, the selection is empty,
    the view is reset and no error escapes; if it fails too, its error
    escapes, the status reports it, and the diagram keeps the local delete.
    The loading flag is cleared on all three paths. *)
Theorem failed_delete_is_repaired_by_reload_only cfg query message point st st1 :
  deletePointFromLine_begin cfg point st = Awaiting st1 →
  (selectedDiagram st = "" →
   ∀ reload,
     deletePointFromLine cfg query (Rejected message) reload point st
       = (setLoading false (updateStatus ("Error: " +:+ message) st1), None)) ∧
  (selectedDiagram st ≠ "" →
   (∀ g,
      let result := deletePointFromLine cfg query (Rejected message) (QueryOk g) point st in
      result.2 = None ∧
      diagramData result.1 = Some (loaded_diagram g) ∧
      pointHeap result.1 = loaded_points g ∧
      objectHeap result.1 = loaded_objects g ∧
      selectedPoints (interactionState result.1) = [] ∧
      viewTransform result.1 =
        {| scale := view_initialScale cfg; offsetX := view_initialOffsetX cfg;
           offsetY := view_initialOffsetY cfg |} ∧
      isLoading result.1 = false ∧
      remoteCalls result.1 = remoteCalls st1 ++
        [ExecuteQuery (query (selectedDiagram st) (namespaces cfg (cgmesVersion st)))]) ∧
   (∀ message',
      let result :=
        deletePointFromLine cfg query (Rejected message) (QueryFailed message') point st in
      result.2 = Some message' ∧
      statusText result.1 = "Error: " +:+ message' ∧
      diagramData result.1 = diagramData st1 ∧
      pointHeap result.1 = pointHeap st1 ∧
      objectHeap result.1 = objectHeap st1 ∧
      selectedPoints (interactionState result.1) = [] ∧
      isLoading result.1 = false)).
Proof.
  intros Hbegin.
  destruct (deletePointFromLine_begin_Awaiting_inv _ _ _ _ Hbegin)
    as (pt & d & object & obj & _ & _ & _ & _ & _ & _ & Hsel & Hver).
  unfold deletePointFromLine. rewrite Hbegin.
  unfold deletePointFromLine_settle. simpl. rewrite Hsel. split.
  - intros Hempty reload. by rewrite bool_decide_eq_true_2.
  - intros Hne. rewrite bool_decide_eq_false_2 by done.
    unfold loadDiagramLayout. rewrite bool_decide_eq_false_2 by done.
    split.
    + intros g. simpl. unfold cimNamespace. simpl. rewrite Hver. by repeat split.
    + intros message'. simpl. by repeat split.
Qed.

Lemma failed_delete_is_repaired_by_reload_only_witness :
  let st2 := state_of (deletePointFromLine_begin Example.config 2%positive Example.line) in
  let kept := deletePointFromLine Example.config Example.query (Rejected "503")
                (QueryFailed "504") 2%positive Example.line in
  deletePointFromLine_begin Example.config 2%positive Example.line = Awaiting st2 ∧
  kept.2 = Some "504" ∧
  diagramData kept.1 = Some {| objects := [1%positive]; points := [1; 3]%positive |}.
Proof.
  intros st2 kept.
  assert (deletePointFromLine_begin Example.config 2%positive Example.line = Awaiting st2)
    as Hbegin by reflexivity.
  split; [exact Hbegin|].
  destruct (failed_delete_is_repaired_by_reload_only Example.config Example.query "503"
              2%positive Example.line st2 Hbegin) as (_ & Hreload).
  destruct Hreload as (_ & Hfailed); [discriminate|].
  destruct (Hfailed "504") as (Herr & _ & Hdia & _).
  split; [exact Herr|]. exact (eq_trans Hdia eq_refl).
Defined.

Lemma findIndex_not_found {A} (pred : A → bool) (l : list A) :
  (∀ a, a ∈ l → pred a = false) → findIndex pred l = (-1)%Z.
Proof.
  intros Hl. unfold findIndex.
  assert (list_find (λ a, pred a = true) l = None) as ->; [|done].
  apply list_find_None, Forall_forall. intros a Ha. by rewrite (Hl a Ha).
Qed.

Lemma splice_delete_minus_one {A} (l : list A) :
  splice_delete (-1) l = take (length l - 1) l.
Proof.
  unfold splice_delete, splice_start. simpl.
  replace (Z.to_nat (Z.max (Z.of_nat (length l) + -1) 0)) with (length l - 1) by lia.
  rewrite (drop_ge l (S (length l - 1))) by lia. by rewrite app_nil_r.
Qed.

(** X13: what [deletePointFromLine] does, on a loaded diagram, with a point
    it cannot place.  A point without a parent object yields the status
    ["Cannot delete point: parent object not found"] and no other change, the
    loading flag included.  A point whose identifier no point of its parent's
    array bears is not refused unless that array is empty: [findIndex]
    answers [-1], which is neither [0] nor [n - 1], and [splice(-1, 1)] then
    removes the last point of the array, after which the remote delete of the
    given point is issued. *)
Theorem delete_of_a_point_it_cannot_place cfg query point pt d st :
  pointHeap st !! point = Some pt →
  diagramData st = Some d →
  (parentObject pt = None →
   ∀ outcome reload,
     deletePointFromLine cfg query outcome reload point st
       = (updateStatus "Cannot delete point: parent object not found" st, None)) ∧
  (∀ object obj,
     parentObject pt = Some object →
     objectHeap st !! object = Some obj →
     (∀ r, r ∈ object_points obj → iri_of (pointHeap st) r ≠ Some (iri pt)) →
     (object_points obj = [] →
      deletePointFromLine_begin cfg point st =
        Returned (setLoading false
          (updateStatus "Cannot delete first or last point of a line or shape" st))) ∧
     (object_points obj ≠ [] →
      ∃ st', deletePointFromLine_begin cfg point st = Awaiting st' ∧
        objectHeap st' !! object =
          Some (set_object_points
                  (take (length (object_points obj) - 1) (object_points obj)) obj) ∧
        ∃ updates namespace,
          remoteCalls st' = remoteCalls st ++ [DeletePoint (iri pt) updates namespace])).
Proof.
  intros Hpt Hd. split.
  - intros Hparent outcome reload.
    unfold deletePointFromLine, deletePointFromLine_begin.
    by rewrite Hpt, Hd, Hparent.
  - intros object obj Hparent Ho Hmissing.
    pose proof (deletePointFromLine_begin_cases cfg point pt object obj d st
                  Hpt Hd Hparent Ho) as Hcases. simpl in Hcases.
    rewrite findIndex_not_found in Hcases.
    2:{ intros r Hr. unfold has_iri. apply bool_decide_eq_false. by apply Hmissing. }
    split.
    + intros Hnil. rewrite Hnil in Hcases. exact Hcases.
    + intros Hne.
      assert (length (object_points obj) ≠ 0) as Hlen
        by (by destruct (object_points obj)).
      assert (((-1 =? 0)%Z || (-1 =? Z.of_nat (length (object_points obj)) - 1)%Z) = false)
        as Hguard by (apply orb_false_iff; lia).
      rewrite Hguard in Hcases.
      destruct Hcases as (st' & Hbegin & Hobj & _ & _ & _ & _ & Hcalls).
      exists st'. split; [done|].
      rewrite splice_delete_minus_one in Hobj.
      split; [by rewrite Hobj, lookup_insert_eq|]. by eauto.
Qed.

Lemma delete_of_a_point_it_cannot_place_witness :
  let st' := state_of (deletePointFromLine_begin Example.config 2%positive Scene.stale) in
  (object_points <$> objectHeap Scene.stale !! 1%positive) = Some [1; 3]%positive ∧
  (object_points <$> objectHeap st' !! 1%positive) = Some [1%positive] ∧
  deletePointFromLine Example.config Example.query Resolved (QueryFailed "unused")
    1%positive Scene.orphan
  = (updateStatus "Cannot delete point: parent object not found" Scene.orphan, None).
Proof.
  intros st'. split; [reflexivity|].
  destruct (delete_of_a_point_it_cannot_place Example.config Example.query 2%positive
              (Example.P "P1" 10 0 1 1%positive [])
              {| objects := [1%positive]; points := [1; 2; 3]%positive |}
              Scene.stale) as (_ & Hstale); [reflexivity..|].
  destruct (Hstale 1%positive {| object_iri := "O"; object_points := [1; 3]%positive |})
    as (_ & Hlast); [reflexivity..| |].
  { apply (Forall_forall (λ r, iri_of (pointHeap Scene.stale) r ≠ Some "P1")).
    apply (bool_decide_unpack _). vm_compute. reflexivity. }
  destruct Hlast as (st1 & Hbegin & Hobj & _); [discriminate|].
  split.
  - subst st'. rewrite Hbegin. exact (f_equal (fmap object_points) Hobj).
  - destruct (delete_of_a_point_it_cannot_place Example.config Example.query 1%positive
                {| iri := "Q"; point_x := 1; point_y := 2; sequenceNumber := 0;
                   parentObject := None; gluedTo := [] |}
                {| objects := []; points := [1%positive] |}
                Scene.orphan) as (Horphan & _); [reflexivity..|].
    apply Horphan. reflexivity.
Defined.

(** X14: while no diagram is loaded [addNewPointToLine] and
    [deletePointFromLine] return at once: whatever the remote outcome would
    be, the application state is unchanged (no status, no loading flag, no
    remote call) and no error escapes. *)
Theorem insert_and_delete_without_diagram_do_nothing cfg query st :
  diagramData st = None →
  (∀ outcome object position insertIndex uuid,
     addNewPointToLine cfg outcome object position insertIndex uuid st = st) ∧
  (∀ outcome reload point,
     deletePointFromLine cfg query outcome reload point st = (st, None)).
Proof.
  intros Hd. split.
  - intros outcome object position insertIndex uuid.
    unfold addNewPointToLine, addNewPointToLine_begin. rewrite Hd.
    by destruct (objectHeap st !! object).
  - intros outcome reload point.
    unfold deletePointFromLine, deletePointFromLine_begin. rewrite Hd.
    by destruct (pointHeap st !! point).
Qed.

Lemma insert_and_delete_without_diagram_do_nothing_witness :
  diagramData Scene.unloaded = None ∧
  addNewPointToLine Example.config (Rejected "503") 1%positive {| x := 5; y := 0 |} 1 "u"
    Scene.unloaded = Scene.unloaded.
Proof.
  split; [reflexivity|].
  destruct (insert_and_delete_without_diagram_do_nothing Example.config Example.query
              Scene.unloaded eq_refl) as (Hinsert & _).
  apply Hinsert.
Defined.

(** ** Loading a layout, continued *)

(** X15: [loadDiagramLayout] with an empty diagram identifier is rejected
    with ["Please select a diagram"] and touches no store.  Otherwise it
    issues one query, built from the identifier and the namespace of the
    current CGMES version, and ends with the view reset to its initial
    configuration, the selection empty and the loading flag cleared, whether
    the query succeeds or not.  On success the loaded graph is the diagram and
    the status counts its objects and points; on failure the error escapes,
    the status reports it, and the previous diagram and its points stay. *)
Theorem loadDiagramLayout_outcomes cfg query diagramIri st :
  (∀ outcome,
     loadDiagramLayout cfg query outcome "" st = (st, Some "Please select a diagram")) ∧
  (diagramIri ≠ "" →
   ∀ outcome,
     let result := loadDiagramLayout cfg query outcome diagramIri st in
     viewTransform result.1 =
       {| scale := view_initialScale cfg; offsetX := view_initialOffsetX cfg;
          offsetY := view_initialOffsetY cfg |} ∧
     selectedPoints (interactionState result.1) = [] ∧
     isLoading result.1 = false ∧
     remoteCalls result.1 = remoteCalls st ++
       [ExecuteQuery (query diagramIri (namespaces cfg (cgmesVersion st)))] ∧
     match outcome with
     | QueryOk g =>
         result.2 = None ∧
         diagramData result.1 = Some (loaded_diagram g) ∧
         pointHeap result.1 = loaded_points g ∧
         objectHeap result.1 = loaded_objects g ∧
         statusText result.1 =
           "Loaded diagram with " +:+ pretty (length (objects (loaded_diagram g)))
           +:+ " objects and " +:+ pretty (length (points (loaded_diagram g)))
           +:+ " points"
     | QueryFailed message =>
         result.2 = Some message ∧
         diagramData result.1 = diagramData st ∧
         pointHeap result.1 = pointHeap st ∧
         objectHeap result.1 = objectHeap st ∧
         statusText result.1 = "Error: " +:+ message
     end).
Proof.
  split; [done|]. intros Hne outcome. unfold loadDiagramLayout.
  rewrite bool_decide_eq_false_2 by done. by destruct outcome.
Qed.

Lemma loadDiagramLayout_outcomes_witness :
  let failed := loadDiagramLayout Example.config Example.query (QueryFailed "timeout")
                  "http://example.org/diagram" Example.line_selected in
  let loaded := loadDiagramLayout Example.config Example.query (QueryOk Scene.loaded)
                  "http://example.org/diagram" Example.line_selected in
  diagramData failed.1 = diagramData Example.line_selected ∧
  selectedPoints (interactionState failed.1) = [] ∧
  statusText loaded.1 = "Loaded diagram with 1 objects and 2 points".
Proof.
  intros failed loaded.
  destruct (loadDiagramLayout_outcomes Example.config Example.query
              "http://example.org/diagram" Example.line_selected) as (_ & Hload).
  destruct (Hload ltac:(discriminate) (QueryFailed "timeout"))
    as (_ & Hsel & _ & _ & _ & Hdia & _).
  destruct (Hload ltac:(discriminate) (QueryOk Scene.loaded))
    as (_ & _ & _ & _ & _ & _ & _ & _ & Hstatus).
  split; [exact Hdia|]. split; [exact Hsel|]. exact Hstatus.
Defined.

(** ** The handlers of the configuration panel *)

(** X16: [handleRenderDiagram] never lets an error escape and calls
    [onRenderDiagram], with the selected diagram, exactly when a diagram is
    selected and its layout query succeeded.  When it does not call it the
    status reads ["Error: "] followed by the error; with no diagram selected
    that is all that changes. *)
Theorem handleRenderDiagram_calls_back_on_success_only cfg query outcome st :
  let result := handleRenderDiagram cfg query outcome st in
  (result.2 = Some (selectedDiagram st) ↔
   selectedDiagram st ≠ "" ∧ ∃ g, outcome = QueryOk g) ∧
  (result.2 = None ∨ result.2 = Some (selectedDiagram st)) ∧
  (result.2 = None → ∃ message, statusText result.1 = "Error: " +:+ message) ∧
  (selectedDiagram st = "" →
   result = (updateStatus "Error: Please select a diagram" st, None)).
Proof.
  intros result. subst result. unfold handleRenderDiagram, loadDiagramLayout.
  destruct (decide (selectedDiagram st = "")) as [Hempty|Hne].
  - rewrite bool_decide_eq_true_2 by done. simpl. split; [|split; [|split]].
    + split; [discriminate|]. by intros [? _].
    + by left.
    + by eauto.
    + done.
  - rewrite bool_decide_eq_false_2 by done. destruct outcome as [g|message]; simpl.
    + split; [|split; [|split]]; try done.
      * split; [by eauto|done].
      * by right.
    + split; [|split; [|split]]; try done.
      * split; [discriminate|]. by intros [_ [g ?]].
      * by left.
      * by eauto.
Qed.

(** X17: [loadDiagramProfiles] rejects an endpoint that is not valid before
    it touches anything.  For a valid endpoint it hands the endpoint to the
    service, issues the diagrams query under the namespace of the current
    CGMES version, clears the loading flag, and leaves the selection, the
    view, the diagram and its points alone.  When the query succeeds the
    diagram list and the returned array are the rows of the response in their
    order, each named by its name or, where it has none, by its identifier,
    and the status is ["No diagrams found"] for no rows; when it fails the
    diagram list is kept and the error escapes.  [handleLoadDiagrams] calls
    [onLoadDiagrams] exactly when [loadDiagramProfiles] succeeded, and reports
    the error in the status otherwise. *)
Theorem loadDiagramProfiles_outcomes cfg valid diagramsQuery endpoint s :
  (valid endpoint = false →
   ∀ outcome,
     loadDiagramProfiles cfg valid diagramsQuery outcome endpoint s
       = (s, inr "Please enter a valid SPARQL endpoint URL") ∧
     handleLoadDiagrams cfg valid diagramsQuery outcome endpoint s
       = ({| app := updateStatus "Error: Please enter a valid SPARQL endpoint URL" (app s);
             diagramList := diagramList s;
             serviceEndpoint := serviceEndpoint s |}, None)) ∧
  (valid endpoint = true →
   ∀ outcome,
     let result := loadDiagramProfiles cfg valid diagramsQuery outcome endpoint s in
     let handled := handleLoadDiagrams cfg valid diagramsQuery outcome endpoint s in
     serviceEndpoint result.1 = endpoint ∧
     isLoading (app result.1) = false ∧
     remoteCalls (app result.1) = remoteCalls (app s) ++
       [ExecuteQuery (diagramsQuery (namespaces cfg (cgmesVersion (app s))))] ∧
     interactionState (app result.1) = interactionState (app s) ∧
     viewTransform (app result.1) = viewTransform (app s) ∧
     diagramData (app result.1) = diagramData (app s) ∧
     pointHeap (app result.1) = pointHeap (app s) ∧
     match outcome with
     | BindingsOk bindings =>
         result.2 = inl (diagramList result.1) ∧
         length (diagramList result.1) = length bindings ∧
         (∀ i binding, bindings !! i = Some binding →
            diagramList result.1 !! i =
              Some {| diagram_iri := binding_diagram binding;
                      diagram_name :=
                        default (binding_diagram binding) (binding_name binding) |}) ∧
         (bindings = [] → statusText (app result.1) = "No diagrams found") ∧
         handled = (result.1, Some endpoint)
     | BindingsFailed message =>
         result.2 = inr message ∧
         diagramList result.1 = diagramList s ∧
         statusText (app result.1) = "Error: " +:+ message ∧
         handled.2 = None ∧
         statusText (app handled.1) = "Error: " +:+ message
     end).
Proof.
  split.
  - intros Hinvalid outcome. unfold handleLoadDiagrams, loadDiagramProfiles.
    by rewrite Hinvalid.
  - intros Hvalid outcome. unfold handleLoadDiagrams, loadDiagramProfiles.
    rewrite Hvalid. cbn [negb]. destruct outcome as [bindings|message].
    + case_bool_decide as Hlen.
      * apply nil_length_inv in Hlen as ->. by repeat split.
      * cbn [fst snd app diagramList serviceEndpoint].
        do 7 (split; [done|]). split; [done|].
        split; [by rewrite length_fmap|]. split; [|split; [|done]].
        -- intros i b Hi. rewrite list_lookup_fmap, Hi. simpl.
           unfold diagram_of_binding. by destruct (binding_name b).
        -- intros ->. done.
    + by repeat split.
Qed.

Lemma loadDiagramProfiles_outcomes_witness :
  let result := loadDiagramProfiles Example.config Scene.valid_endpoint Scene.diagrams_query
                  (BindingsOk [{| binding_diagram := "urn:d1"; binding_name := None |};
                               {| binding_diagram := "urn:d2"; binding_name := Some "Two" |}])
                  "http://localhost:3030/ds" Scene.session in
  Scene.valid_endpoint "http://localhost:3030/ds" = true ∧
  Scene.valid_endpoint "" = false ∧
  diagramList result.1 !! 0 = Some {| diagram_iri := "urn:d1"; diagram_name := "urn:d1" |} ∧
  selectedPoints (interactionState (app result.1)) = ["P1"] ∧
  (handleLoadDiagrams Example.config Scene.valid_endpoint Scene.diagrams_query
     (BindingsFailed "unused") "" Scene.session).2 = None.
Proof.
  intros result.
  destruct (loadDiagramProfiles_outcomes Example.config Scene.valid_endpoint
              Scene.diagrams_query "http://localhost:3030/ds" Scene.session)
    as (_ & Hvalid).
  destruct (loadDiagramProfiles_outcomes Example.config Scene.valid_endpoint
              Scene.diagrams_query "" Scene.session) as (Hinvalid & _).
  split; [reflexivity|]. split; [reflexivity|].
  destruct (Hvalid eq_refl
              (BindingsOk [{| binding_diagram := "urn:d1"; binding_name := None |};
                           {| binding_diagram := "urn:d2"; binding_name := Some "Two" |}]))
    as (_ & _ & _ & Hint & _ & _ & _ & _ & _ & Hrows & _).
  split; [exact (Hrows 0 _ eq_refl)|].
  split; [exact (eq_trans (f_equal selectedPoints Hint) eq_refl)|].
  destruct (Hinvalid eq_refl (BindingsFailed "unused")) as (_ & Hhandled).
  by rewrite Hhandled.
Defined.

(** ** How the gestures compose *)

(** X18: a rectangle selection on a loaded diagram adds identifiers of points
    of the diagram only; so if every selected identifier named a point of the
    diagram before, the same holds afterwards, and a drag started next takes a
    snapshot whose keys are exactly the selected identifiers. *)
Theorem drag_after_rectangle_selection_snapshots_the_selection
    a b moves position st d :
  diagramData st = Some d →
  (∀ k, k ∈ selectedPoints (interactionState st) →
        ∃ r pt, r ∈ points d ∧ pointHeap st !! r = Some pt ∧ iri pt = k) →
  let st1 := select_gesture a (moves ++ [b]) st in
  let st2 := startDragging position st1 in
  (∀ k, k ∈ selectedPoints (interactionState st1) →
        ∃ r pt, r ∈ points d ∧ pointHeap st1 !! r = Some pt ∧ iri pt = k) ∧
  (∀ k, is_Some (originalPositions (interactionState st2) !! k)
        ↔ k ∈ selectedPoints (interactionState st1)) ∧
  mode (interactionState st2) = DRAGGING.
Proof.
  intros Hd Hnames st1 st2.
  assert (diagramData st1 = Some d ∧ pointHeap st1 = pointHeap st ∧
          ∀ k, k ∈ selectedPoints (interactionState st1) →
               ∃ r pt, r ∈ points d ∧ pointHeap st !! r = Some pt ∧ iri pt = k)
    as (Hd1 & Hh1 & Hnames1).
  { subst st1. unfold select_gesture. rewrite selecting_moves, last_snoc. simpl.
    unfold completeSelecting. simpl. rewrite Hd.
    destruct (too_small _ _ _ _); simpl; [by rewrite Hd|].
    rewrite Hd. do 2 (split; [done|]).
    intros k [Hk|(r & pt & Hr & Hpt & Hiri & _)]%elem_of_select_in_rectangle;
      [by apply Hnames | by eauto]. }
  split; [by rewrite Hh1|].
  subst st2. unfold startDragging. rewrite Hd1. simpl. split; [|done].
  intros k. rewrite snapshot_is_Some, Hh1. split; [by intros [? _]|].
  intros Hk. split; [done|by apply Hnames1].
Qed.

Lemma drag_after_rectangle_selection_snapshots_the_selection_witness :
  let st1 := select_gesture {| x := -1; y := -1 |} ([] ++ [{| x := 11; y := 5 |}])
               Example.line in
  selectedPoints (interactionState st1) = ["P0"; "P1"] ∧
  (is_Some (originalPositions
              (interactionState (startDragging {| x := 0; y := 0 |} st1)) !! "P0")
   ↔ "P0" ∈ selectedPoints (interactionState st1)).
Proof.
  intros st1. split; [vm_compute; reflexivity|].
  destruct (drag_after_rectangle_selection_snapshots_the_selection
              {| x := -1; y := -1 |} {| x := 11; y := 5 |} [] {| x := 0; y := 0 |}
              Example.line {| objects := [1%positive]; points := [1; 2; 3]%positive |})
    as (_ & Hkeys & _).
  - reflexivity.
  - intros k Hk. by apply elem_of_nil in Hk.
  - apply (Hkeys "P0").
Defined.

(** X20: the snapshot outlives the commit, so [revertDraggedPositions]
    undoes a drag after it has been committed: for a drag gesture on a loaded
    diagram with distinct point identifiers, committed at any position,
    significant or not, reverting afterwards puts every point back where it
    was before the drag, and changes neither the interaction state nor the
    published event. *)
Theorem revert_after_commit_undoes_the_drag cfg st0 d start moves position :
  diagramData st0 = Some d →
  distinct_iris (pointHeap st0) (points d) →
  let st1 := (endDragging cfg position (drag_gesture start moves st0)).2 in
  pointHeap (revertDraggedPositions st1) = pointHeap st0 ∧
  interactionState (revertDraggedPositions st1) = interactionState st1 ∧
  positionUpdateEvent (revertDraggedPositions st1) = positionUpdateEvent st1.
Proof.
  intros Hd Hdist st1.
  pose proof (drag_gesture_dragging_from st0 d start moves Hd) as Hinv.
  pose proof (startDragging_dragging_from st0 d start Hd) as Hinv0.
  subst st1. remember (drag_gesture start moves st0) as st eqn:Hst. clear Hst.
  pose proof Hinv as (Hsame & Hm & Hs & _ & Hsel & Ho & _).
  pose proof Hinv0 as (_ & _ & _ & _ & Hsel0 & Ho0 & _).
  assert (diagramData st = Some d) as Hdd.
  { destruct Hsame as (_ & _ & -> & _). done. }
  assert (∀ s, diagramData (revertDraggedPositions s) = diagramData s ∧
               interactionState (revertDraggedPositions s) = interactionState s ∧
               positionUpdateEvent (revertDraggedPositions s) = positionUpdateEvent s)
    as Hframe.
  { intros s. unfold revertDraggedPositions.
    destruct (diagramData s) eqn:E; simpl; by rewrite ?E. }
  split; [|split; apply Hframe].
  unfold endDragging. rewrite Hm, Hs.
  set (ended := update_interactionState (λ state,
                  {| mode := NONE; dragStart := None; dragEnd := None;
                     panStart := panStart state;
                     selectedPoints := selectedPoints state;
                     originalPositions := originalPositions state |}) st).
  assert (pointHeap (revertDraggedPositions ended) = pointHeap st0) as Hreverted.
  { apply (revert_dragging_from st0 d start st ended Hdist Hinv);
      [exact Hdd | reflexivity..]. }
  destruct (negb _); cbn [snd].
  - eapply (revert_dragging_from st0 d start (startDragging start st0)); try done.
    + destruct (Hframe ended) as (-> & _). done.
    + rewrite Hreverted. unfold startDragging. by rewrite Hd.
    + destruct (Hframe ended) as (_ & -> & _). simpl. by rewrite Hsel, Hsel0.
    + destruct (Hframe ended) as (_ & -> & _). simpl. by rewrite Ho, Ho0.
  - apply (revert_dragging_from st0 d start st _ Hdist Hinv);
      [exact Hdd | reflexivity..].
Qed.

Lemma revert_after_commit_undoes_the_drag_witness :
  let st1 := (endDragging Example.config {| x := 20; y := 30 |}
                (drag_gesture {| x := 0; y := 0 |} [{| x := 20; y := 30 |}]
                   Example.line_selected)).2 in
  pointHeap st1 !! 2%positive = Some (Example.P "P1" 30 30 1 1%positive []) ∧
  pointHeap (revertDraggedPositions st1) = pointHeap Example.line_selected.
Proof.
  intros st1. split; [vm_compute; reflexivity|].
  destruct (revert_after_commit_undoes_the_drag Example.config Example.line_selected
              {| objects := [1%positive]; points := [1; 2; 3]%positive |}
              {| x := 0; y := 0 |} [{| x := 20; y := 30 |}] {| x := 20; y := 30 |})
    as (Hheap & _).
  - reflexivity.
  - unfold distinct_iris. apply (bool_decide_unpack _). vm_compute. reflexivity.
  - exact Hheap.
Defined.

(** ** Insert and delete as a round trip *)

Lemma numbered_NoDup h rs : numbered h rs → NoDup rs.
Proof.
  intros Hnum. apply NoDup_alt. intros i j r Hi Hj.
  pose proof (Hnum i r Hi) as Hsi. pose proof (Hnum j r Hj) as Hsj.
  rewrite Hsi in Hsj. injection Hsj. lia.
Qed.

(** Renumbering the old array again, after the new point has been spliced in
    and the longer array renumbered, gives every old point its old sequence
    number back. *)
Lemma renumber_after_insert_restores h rs rs' r newPoint :
  numbered h rs → h !! r = None → NoDup rs' →
  (∀ r0, r0 ∈ rs' ↔ r0 = r ∨ r0 ∈ rs) →
  delete r (renumber 0 rs (renumber 0 rs' (<[r := newPoint]> h))) = h.
Proof.
  intros Hnum Hr Hnd' Hrs'. pose proof (numbered_NoDup _ _ Hnum) as Hnd.
  apply map_eq. intros r0. destruct (decide (r0 = r)) as [->|Hne].
  { by rewrite lookup_delete_eq. }
  rewrite lookup_delete_ne by done.
  destruct (decide (r0 ∈ rs)) as [Hin|Hin].
  - apply list_elem_of_lookup in Hin as [i Hi].
    assert (r0 ∈ rs') as Hin' by (apply Hrs'; right; by eapply list_elem_of_lookup_2).
    apply list_elem_of_lookup in Hin' as [i' Hi'].
    rewrite (renumber_lookup 0 rs _ i r0 Hnd Hi).
    rewrite (renumber_lookup 0 rs' _ i' r0 Hnd' Hi').
    rewrite lookup_insert_ne by done.
    pose proof (Hnum i r0 Hi) as Hs.
    destruct (h !! r0) as [pt|]; [|done]. simpl in *.
    injection Hs as Hs. rewrite set_sequenceNumber_twice.
    by rewrite <- Hs, set_sequenceNumber_same.
  - assert (r0 ∉ rs') as Hin' by (intros [->|?]%Hrs'; done).
    rewrite !renumber_lookup_notin by done. by rewrite lookup_insert_ne.
Qed.

(** X19: insert and delete are inverse on interior points, and an inserted
    end point is protected.  Let the object's points be numbered [0 .. n-1],
    the flattened array be live, and the generated identifier be new.  After
    an insert at an index strictly between [0] and [n] has resolved, deleting
    the new point restores the object's array, the flattened array and every
    old point, sequence numbers included.  After an insert at index [0] or
    [n] the new point is the first or the last point, and deleting it is
    refused. *)
Theorem delete_after_insert cfg object obj d position insertIndex uuid st :
  objectHeap st !! object = Some obj →
  diagramData st = Some d →
  numbered (pointHeap st) (object_points obj) →
  live (pointHeap st) (points d) →
  (∀ r, r ∈ object_points obj ++ points d →
        iri_of (pointHeap st) r ≠ Some (newPointIri uuid)) →
  (0 ≤ insertIndex ≤ Z.of_nat (length (object_points obj)))%Z →
  let st1 := addNewPointToLine cfg Resolved object position insertIndex uuid st in
  let r := newRef (pointHeap st) in
  ((0 < insertIndex < Z.of_nat (length (object_points obj)))%Z →
   ∃ st2, deletePointFromLine_begin cfg r st1 = Awaiting st2 ∧
     objectHeap st2 = objectHeap st ∧
     diagramData st2 = diagramData st ∧
     delete r (pointHeap st2) = pointHeap st ∧
     (∀ r0 pt, pointHeap st !! r0 = Some pt → pointHeap st2 !! r0 = Some pt)) ∧
  (insertIndex = 0%Z ∨ insertIndex = Z.of_nat (length (object_points obj)) →
   deletePointFromLine_begin cfg r st1 =
     Returned (setLoading false
       (updateStatus "Cannot delete first or last point of a line or shape" st1))).
Proof.
  intros Ho Hd Hnum Hlived Hfresh Hrange st1 r.
  destruct (addNewPointToLine_begin_Awaiting cfg object obj d position insertIndex uuid st
              Ho Hd) as (stb & Hbegin & Hobj & Hheap & Hdia & _).
  fold r in Hobj, Hheap, Hdia.
  set (newPoint := {| iri := newPointIri uuid; point_x := x position;
                      point_y := y position; sequenceNumber := insertIndex;
                      parentObject := Some object; gluedTo := [] |}) in *.
  set (rs := object_points obj) in *.
  set (i := Z.to_nat insertIndex).
  set (rs' := splice_insert insertIndex r rs) in *.
  set (h1 := renumber 0 rs' (<[r := newPoint]> (pointHeap st))) in *.
  pose proof (numbered_live _ _ Hnum) as Hlive.
  pose proof (numbered_NoDup _ _ Hnum) as Hnd.
  assert (pointHeap st !! r = None) as Hr by apply newRef_fresh.
  assert (r ∉ rs) as Hrrs by (by apply newRef_not_live).
  assert (r ∉ points d) as Hrd by (by apply newRef_not_live).
  assert (NoDup rs') as Hnd' by (by apply NoDup_splice_insert).
  assert (rs' = take i rs ++ r :: drop i rs) as Hrs' by (by apply splice_insert_in_range).
  assert (length (take i rs) = i) as Hlen by (rewrite length_take; fold rs in Hrange; lia).
  assert (rs' !! i = Some r) as Hi by (rewrite Hrs'; by apply list_lookup_middle).
  assert (objectHeap st1 = objectHeap stb ∧ pointHeap st1 = pointHeap stb ∧
          diagramData st1 = diagramData stb) as (Hobj1 & Hheap1 & Hdia1).
  { subst st1. unfold addNewPointToLine. by rewrite Hbegin. }
  rewrite Hobj in Hobj1. rewrite Hheap in Hheap1. rewrite Hdia in Hdia1.
  assert (h1 !! r = Some (set_sequenceNumber (Z.of_nat i) newPoint)) as Hpt1.
  { unfold h1. rewrite (renumber_lookup 0 rs' _ i r Hnd' Hi), lookup_insert_eq. done. }
  assert (∀ h, (∀ r0, iri_of h r0 = iri_of h1 r0) →
               ∀ r0, r0 ∈ rs ++ points d → has_iri h (newPointIri uuid) r0 = false)
    as Hold.
  { intros h Hh r0 Hr0. unfold has_iri. apply bool_decide_eq_false.
    rewrite Hh. unfold h1. rewrite renumber_iri_of. unfold iri_of.
    rewrite lookup_insert_ne by (intros <-; set_solver).
    by apply Hfresh. }
  assert (∀ h, (∀ r0, iri_of h r0 = iri_of h1 r0) →
               has_iri h (newPointIri uuid) r = true) as Hnew.
  { intros h Hh. unfold has_iri. apply bool_decide_eq_true.
    rewrite Hh. unfold iri_of. by rewrite Hpt1. }
  pose proof (deletePointFromLine_begin_cases cfg r
                (set_sequenceNumber (Z.of_nat i) newPoint) object
                (set_object_points rs' obj) (set_points (points d ++ [r]) d) st1) as Hcases.
  rewrite Hheap1, Hobj1, Hdia1, lookup_insert_eq in Hcases.
  specialize (Hcases Hpt1 eq_refl eq_refl eq_refl). simpl in Hcases.
  rewrite (findIndex_first _ rs' i r Hi) in Hcases; [|by apply Hnew|].
  2:{ intros j b Hj Hlt. apply (Hold h1); [done|].
      rewrite Hrs', lookup_app_l in Hj by lia.
      apply elem_of_app. left. apply list_elem_of_lookup_2 in Hj.
      apply elem_of_take in Hj as (j' & Hj' & _). by eapply list_elem_of_lookup_2. }
  assert (length rs' = S (length rs)) as Hlen' by apply length_splice_insert.
  assert (Z.of_nat i = insertIndex) as Hii by (unfold i; lia).
  rewrite Hlen' in Hcases. split.
  - intros Hinterior.
    assert (((Z.of_nat i =? 0)%Z || (Z.of_nat i =? Z.of_nat (S (length rs)) - 1)%Z) = false)
      as Hguard
      by (apply orb_false_iff; fold rs in Hinterior; clearbody i; split; apply Z.eqb_neq; lia).
    rewrite Hguard in Hcases.
    destruct Hcases as (st2 & Hbegin2 & Hobj2 & Hheap2 & Hdia2 & _).
    assert (splice_delete (Z.of_nat i) rs' = rs) as Hback.
    { rewrite splice_delete_in_range, Nat2Z.id by lia.
      rewrite Hrs'. rewrite <- Hlen at 1. by rewrite delete_middle, take_drop. }
    rewrite Hback in Hobj2, Hheap2, Hdia2.
    rewrite (findIndex_first _ (points d ++ [r]) (length (points d)) r) in Hdia2.
    2:{ by apply list_lookup_middle. }
    2:{ apply Hnew. intros r0. apply renumber_iri_of. }
    2:{ intros j b Hj Hlt. apply (Hold (renumber 0 rs h1)).
        - intros r0. apply renumber_iri_of.
        - rewrite lookup_app_l in Hj by done. apply elem_of_app. right.
          by eapply list_elem_of_lookup_2. }
    assert ((0 <=? Z.of_nat (length (points d)))%Z = true) as Hnonneg
      by (apply Z.leb_le; lia).
    rewrite Hnonneg, splice_delete_in_range, Nat2Z.id in Hdia2
      by (rewrite length_app; simpl; lia).
    rewrite delete_middle, app_nil_r in Hdia2.
    assert (delete r (renumber 0 rs h1) = pointHeap st) as Hrestored.
    { apply renumber_after_insert_restores; try done.
      intros r0. unfold rs'. apply elem_of_splice_insert. }
    exists st2. split; [done|]. split; [|split; [|split]].
    + rewrite Hobj2, insert_insert_eq.
      replace (set_object_points rs (set_object_points rs' obj)) with obj
        by (by destruct obj).
      by apply insert_id.
    + rewrite Hdia2, Hd. f_equal. by destruct d.
    + by rewrite Hheap2.
    + intros r0 pt Hpt. rewrite Hheap2. rewrite <- Hrestored in Hpt.
      destruct (decide (r0 = r)) as [->|Hne];
        [by rewrite lookup_delete_eq in Hpt | by rewrite lookup_delete_ne in Hpt].
  - intros Hends.
    assert (((Z.of_nat i =? 0)%Z || (Z.of_nat i =? Z.of_nat (S (length rs)) - 1)%Z) = true)
      as Hguard
      by (apply orb_true_iff; fold rs in Hends; clearbody i;
          destruct Hends; [left|right]; apply Z.eqb_eq; lia).
    by rewrite Hguard in Hcases.
Qed.

Lemma delete_after_insert_witness :
  let st1 := addNewPointToLine Example.config Resolved 1%positive
               {| x := 5; y := 0 |} 1 "u" Example.line in
  let st0 := addNewPointToLine Example.config Resolved 1%positive
               {| x := 5; y := 0 |} 3 "u" Example.line in
  numbered (pointHeap Example.line) [1; 2; 3]%positive ∧
  (∃ st2, deletePointFromLine_begin Example.config 4%positive st1 = Awaiting st2 ∧
          objectHeap st2 = objectHeap Example.line ∧
          diagramData st2 = diagramData Example.line ∧
          delete 4%positive (pointHeap st2) = pointHeap Example.line) ∧
  statusText (state_of (deletePointFromLine_begin Example.config 4%positive st0))
    = "Cannot delete first or last point of a line or shape".
Proof.
  intros st1 st0.
  assert (numbered (pointHeap Example.line) [1; 2; 3]%positive) as Hnum.
  { intros i r Hi. destruct i as [|[|[|i]]]; simpl in Hi; try discriminate Hi;
      injection Hi as <-; vm_compute; reflexivity. }
  assert (live (pointHeap Example.line) [1; 2; 3]%positive) as Hlive
    by (unfold live; apply (bool_decide_unpack _); vm_compute; reflexivity).
  assert (∀ r, r ∈ [1; 2; 3]%positive ++ [1; 2; 3]%positive →
               iri_of (pointHeap Example.line) r ≠ Some (newPointIri "u")) as Hfresh.
  { apply (Forall_forall (λ r, iri_of (pointHeap Example.line) r
                                 ≠ Some (newPointIri "u"))).
    apply (bool_decide_unpack _). vm_compute. reflexivity. }
  split; [exact Hnum|]. split.
  - destruct (delete_after_insert Example.config 1%positive
                {| object_iri := "O"; object_points := [1; 2; 3]%positive |}
                {| objects := [1%positive]; points := [1; 2; 3]%positive |}
                {| x := 5; y := 0 |} 1 "u" Example.line
                eq_refl eq_refl Hnum Hlive Hfresh ltac:(simpl; lia))
      as (Hinterior & _).
    destruct Hinterior as (st2 & Hbegin & Hobj & Hdia & Hheap & _); [simpl; lia|].
    exists st2. split; [exact Hbegin|]. split; [exact Hobj|]. split; [exact Hdia|exact Hheap].
  - destruct (delete_after_insert Example.config 1%positive
                {| object_iri := "O"; object_points := [1; 2; 3]%positive |}
                {| objects := [1%positive]; points := [1; 2; 3]%positive |}
                {| x := 5; y := 0 |} 3 "u" Example.line
                eq_refl eq_refl Hnum Hlive Hfresh ltac:(simpl; lia))
      as (_ & Hends).
    exact (f_equal (λ s, statusText (state_of s)) (Hends (or_intror eq_refl))).
Defined.
